(** * DBMA: the orchestration layer of the database assistant

    A shallow embedding of the parts of [core/agent.py] and
    [core/persistence.py] that decide how failed queries are retried, how a
    refined query is reported, how the rolling conversation memory is folded
    and how a conversation thread is identified, with the intent
    classifier, the reads and writes of the store they rest on, and the
    query types of [core/mysql_manager.py] and [utils/helpers.py].

    Conventions of the embedding.
    - A Python [str] is a [string]; the case maps, the whitespace test and
      the encoding are those of Python restricted to ASCII text, which is the
      scope of the model.
    - [None] is [None]; a Python exception is the [Raise] outcome of the
      monad below or a [None] result where the source catches it at once.
    - The MySQL engine, the language model and the PostgreSQL store are
      external: the first two enter as arbitrary transition functions on an
      abstract state, the store as explicit tables with a fault schedule. *)

From Stdlib Require Import ZArith NArith Ascii String.
From stdpp Require Import gmap strings list sorting.

Local Open Scope string_scope.
Local Open Scope list_scope.
Local Open Scope nat_scope.

(** ** Python string primitives *)

Module PyStr.

(** [c.isspace()] on ASCII: TAB, LF, VT, FF, CR, FS, GS, RS, US, SPACE. *)
Definition isspace (c : ascii) : bool :=
  let n := nat_of_ascii c in
  ((9 <=? n) && (n <=? 13)) || ((28 <=? n) && (n <=? 32)).

Definition upper_char (c : ascii) : ascii :=
  let n := nat_of_ascii c in
  if (97 <=? n) && (n <=? 122) then ascii_of_nat (n - 32) else c.

Definition lower_char (c : ascii) : ascii :=
  let n := nat_of_ascii c in
  if (65 <=? n) && (n <=? 90) then ascii_of_nat (n + 32) else c.

Fixpoint upper (s : string) : string :=
  match s with
  | EmptyString => EmptyString
  | String c s' => String (upper_char c) (upper s')
  end.

Fixpoint lower (s : string) : string :=
  match s with
  | EmptyString => EmptyString
  | String c s' => String (lower_char c) (lower s')
  end.

Fixpoint lstrip (s : string) : string :=
  match s with
  | EmptyString => EmptyString
  | String c s' => if isspace c then lstrip s' else s
  end.

Fixpoint rstrip (s : string) : string :=
  match s with
  | EmptyString => EmptyString
  | String c s' =>
      let r := rstrip s' in
      if isspace c && String.eqb r EmptyString then EmptyString
      else String c r
  end.

(** [s.strip()] *)
Definition strip (s : string) : string := rstrip (lstrip s).

(** [s.split()]: the maximal runs of non-whitespace characters. *)
Fixpoint split (s : string) : list string :=
  match s with
  | EmptyString => []
  | String c s' =>
      if isspace c then split s'
      else match s' with
           | EmptyString => [String c EmptyString]
           | String c' _ =>
               if isspace c' then String c EmptyString :: split s'
               else match split s' with
                    | w :: ws => String c w :: ws
                    | [] => [String c EmptyString]
                    end
           end
  end.

(** Truth value of a string: [bool(s)]. *)
Definition truthy (s : string) : bool := negb (String.eqb s EmptyString).

(** Truth value of an [Optional[str]]. *)
Definition truthy_opt (o : option string) : bool :=
  match o with
  | Some s => truthy s
  | None => false
  end.

(** [a or b] where [a] is an [Optional[str]] and [b] a [str]. *)
Definition or_else (a : option string) (b : string) : string :=
  match a with
  | Some s => if truthy s then s else b
  | None => b
  end.

(** [x in (k1, k2, ...)] for strings. *)
Definition mem (x : string) (ks : list string) : bool :=
  existsb (String.eqb x) ks.

End PyStr.

(** ** Regular expressions

    The source finds SQL and tagged lines in the model's free text with
    Python's [re] module.  The patterns it uses need only single-character
    classes under the repetition operators, one capturing group, the two
    string anchors and the word boundary, so this backtracking matcher covers
    them; it tries alternatives left to right, greedy repetitions longest
    first and lazy ones shortest first, as [re] does.  Flags are written into
    the pattern: [lit_ci] is a literal under [re.IGNORECASE], [any] is [.]
    under [re.DOTALL]. *)

Module Re.

Inductive regex : Type :=
| Chr (p : ascii -> bool)                 (* one character of a class *)
| Eps
| Seq (r1 r2 : regex)
| Alt (r1 r2 : regex)
| Star (greedy : bool) (p : ascii -> bool) (* p* and p*? *)
| Group (r : regex)                       (* the capturing group 1 *)
| Bos                                     (* ^ *)
| Eos                                     (* $ *)
| WordB.                                  (* \b *)

(** A match in progress: the character before the position, the rest of
    the subject, and what group 1 has captured. *)
Definition final : Type := (option string * string * option ascii)%type.
Definition cont : Type := option ascii -> string -> option string -> option final.

Definition is_word (c : ascii) : bool :=
  let n := nat_of_ascii c in
  ((48 <=? n) && (n <=? 57)) || ((65 <=? n) && (n <=? 90))
  || ((97 <=? n) && (n <=? 122)) || (n =? 95).

Definition is_word_opt (o : option ascii) : bool :=
  match o with Some c => is_word c | None => false end.

Definition head_char (s : string) : option ascii :=
  match s with String c _ => Some c | EmptyString => None end.

Fixpoint prefix (n : nat) (s : string) : string :=
  match n, s with
  | S n', String c s' => String c (prefix n' s')
  | _, _ => EmptyString
  end.

Definition or_try (a b : option final) : option final :=
  match a with Some x => Some x | None => b end.

Fixpoint star (greedy : bool) (p : ascii -> bool) (g : option string) (k : cont)
    (prev : option ascii) (s : string) : option final :=
  match s with
  | String c s' =>
      if p c then
        if greedy then or_try (star greedy p g k (Some c) s') (k prev s g)
        else or_try (k prev s g) (star greedy p g k (Some c) s')
      else k prev s g
  | EmptyString => k prev s g
  end.

Fixpoint run (r : regex) (prev : option ascii) (s : string) (g : option string)
    (k : cont) : option final :=
  match r with
  | Chr p =>
      match s with
      | String c s' => if p c then k (Some c) s' g else None
      | EmptyString => None
      end
  | Eps => k prev s g
  | Seq r1 r2 => run r1 prev s g (fun prev' s' g' => run r2 prev' s' g' k)
  | Alt r1 r2 => or_try (run r1 prev s g k) (run r2 prev s g k)
  | Star greedy p => star greedy p g k prev s
  | Group r' =>
      run r' prev s g
        (fun prev' s' _ =>
           k prev' s' (Some (prefix (String.length s - String.length s') s)))
  | Bos => match prev with None => k prev s g | Some _ => None end
  | Eos =>
      if String.eqb s EmptyString || String.eqb s (String "010" EmptyString)
      then k prev s g else None
  | WordB =>
      if xorb (is_word_opt prev) (is_word_opt (head_char s))
      then k prev s g else None
  end.

Definition accept : cont := fun prev s g => Some (g, s, prev).

(** [re.match(r, s)]: group 1 of a match at the start of [s]. *)
Definition match_ (r : regex) (s : string) : option final :=
  run r None s None accept.

(** The leftmost match at or after the current position: the text skipped
    before it, group 1, the text after it and the character before that. *)
Fixpoint search_from (r : regex) (prev : option ascii) (s : string)
    : option (string * final) :=
  match run r prev s None accept with
  | Some m => Some (EmptyString, m)
  | None =>
      match s with
      | EmptyString => None
      | String c s' =>
          match search_from r (Some c) s' with
          | Some (skipped, m) => Some (String c skipped, m)
          | None => None
          end
      end
  end.

(** [re.search(r, s).group(1)] *)
Definition search (r : regex) (s : string) : option string :=
  match search_from r None s with
  | Some (_, (g, _, _)) => Some (default EmptyString g)
  | None => None
  end.

Fixpoint sub_loop (fuel : nat) (r : regex) (repl : string)
    (prev : option ascii) (s : string) : string :=
  match fuel with
  | 0 => s
  | S fuel' =>
      match search_from r prev s with
      | Some (skipped, (_, rest, prev')) =>
          skipped ++ repl ++ sub_loop fuel' r repl prev' rest
      | None => s
      end
  end.

(** [re.sub(r, repl, s)] for a pattern that matches no empty text: every
    round consumes a character, so the length of [s] is fuel enough. *)
Definition sub (r : regex) (repl : string) (s : string) : string :=
  sub_loop (S (String.length s)) r repl None s.

(** Pattern builders. *)
Definition any : regex := Chr (fun _ => true).
Definition notnl (c : ascii) : bool := negb (Ascii.eqb c "010").
Definition space : ascii -> bool := PyStr.isspace.
Definition ci (c : ascii) : ascii -> bool :=
  fun x => Ascii.eqb (PyStr.lower_char x) (PyStr.lower_char c).

Fixpoint lit (s : string) : regex :=
  match s with
  | EmptyString => Eps
  | String c s' => Seq (Chr (Ascii.eqb c)) (lit s')
  end.

Fixpoint lit_ci (s : string) : regex :=
  match s with
  | EmptyString => Eps
  | String c s' => Seq (Chr (ci c)) (lit_ci s')
  end.

Fixpoint alts (rs : list regex) : regex :=
  match rs with
  | [] => Chr (fun _ => false)
  | [r] => r
  | r :: rs' => Alt r (alts rs')
  end.

End Re.

(** ** Text utilities of the agent ([core/agent.py]) *)

Module PyStrMore.

Definition is_linebreak (c : ascii) : bool :=
  let n := nat_of_ascii c in
  ((10 <=? n) && (n <=? 13)) || ((28 <=? n) && (n <=? 30)).

(** [s.splitlines()] *)
Fixpoint splitlines (s : string) : list string :=
  match s with
  | EmptyString => []
  | String c s' =>
      if is_linebreak c then
        if Ascii.eqb c "013" && bool_decide (Re.head_char s' = Some "010"%char)
        then splitlines s'
        else EmptyString :: splitlines s'
      else match splitlines s' with
           | l :: ls => String c l :: ls
           | [] => [String c EmptyString]
           end
  end.

(** [s.endswith(c)] for a one-character suffix. *)
Fixpoint endswith (s : string) (c : ascii) : bool :=
  match s with
  | EmptyString => false
  | String x EmptyString => Ascii.eqb x c
  | String _ s' => endswith s' c
  end.

End PyStrMore.

Definition nl : string := String "010" EmptyString.

(** The three substitutions that remove reasoning tokens
    ([<think>...</think>], an unclosed [<think>] and stray tags). *)
Definition strip_think_tags (text : string) : string :=
  let text := Re.sub (Re.Seq (Re.lit_ci "<think>")
                        (Re.Seq (Re.Star false (fun _ => true)) (Re.lit_ci "</think>")))
                     "" text in
  let text := Re.sub (Re.Seq (Re.lit_ci "<think>")
                        (Re.Seq (Re.Star true (fun _ => true)) Re.Eos))
                     "" text in
  Re.sub (Re.Seq (Re.lit_ci "<")
            (Re.Seq (Re.Alt (Re.lit "/") Re.Eps) (Re.lit_ci "think>")))
         "" text.

Definition SQL_KEYWORDS : Re.regex :=
  Re.alts (map Re.lit_ci
    ["SELECT"; "INSERT"; "UPDATE"; "DELETE"; "CREATE"; "DROP"; "ALTER"; "SHOW";
     "DESCRIBE"; "DESC"; "USE"; "TRUNCATE"; "CALL"; "GRANT"; "REVOKE"; "EXPLAIN"]).

(** [re.match(rf"^({SQL_KEYWORDS})\b", s, re.IGNORECASE)] as a truth value. *)
Definition starts_with_keyword (s : string) : bool :=
  bool_decide (is_Some
    (Re.match_ (Re.Seq Re.Bos (Re.Seq (Re.Group SQL_KEYWORDS) Re.WordB)) s)).

Definition add_semicolon (s : string) : string :=
  if PyStrMore.endswith s ";" then s else s ++ ";".

(** The last resort of [_extract_sql]: the first line that starts with a
    keyword and has at least two words. *)
Fixpoint first_sql_line (lines : list string) : option string :=
  match lines with
  | [] => None
  | line :: rest =>
      let line := PyStr.strip line in
      if starts_with_keyword line && (2 <=? length (PyStr.split line))
      then Some (add_semicolon line)
      else first_sql_line rest
  end.

Definition or_first (a b : option string) : option string :=
  match a with Some x => Some x | None => b end.

(** Pattern 1: a [```sql ... ```] block with a non-empty body. *)
Definition sql_from_tagged_block (text : string) : option string :=
  match Re.search (Re.Seq (Re.lit_ci "```sql")
                     (Re.Seq (Re.Star true Re.space)
                        (Re.Seq (Re.Group (Re.Star false (fun _ => true)))
                           (Re.Seq (Re.Star true Re.space) (Re.lit "```"))))) text with
  | Some g => if PyStr.truthy (PyStr.strip g) then Some (PyStr.strip g) else None
  | None => None
  end.

(** Pattern 2: a [``` ... ```] block whose body starts with a keyword. *)
Definition sql_from_plain_block (text : string) : option string :=
  match Re.search (Re.Seq (Re.lit "```")
                     (Re.Seq (Re.Star true Re.space)
                        (Re.Seq (Re.Group (Re.Star false (fun _ => true)))
                           (Re.Seq (Re.Star true Re.space) (Re.lit "```"))))) text with
  | Some g => if starts_with_keyword (PyStr.strip g) then Some (PyStr.strip g) else None
  | None => None
  end.

(** Pattern 3: a paragraph that starts with a keyword, up to a blank line,
    a line that starts with a letter or [*], or the end of the text. *)
Definition sql_from_paragraph (text : string) : option string :=
  match Re.search (Re.Seq (Re.Alt Re.Bos (Re.lit nl))
                     (Re.Seq (Re.Group (Re.Seq SQL_KEYWORDS
                                          (Re.Seq Re.WordB (Re.Star false (fun _ => true)))))
                        (Re.alts [Re.lit (nl ++ nl);
                                  Re.Seq (Re.lit nl)
                                    (Re.Chr (fun c =>
                                       let n := nat_of_ascii (PyStr.upper_char c) in
                                       ((65 <=? n) && (n <=? 90)) || (n =? 42)));
                                  Re.Eos]))) text with
  | Some g =>
      if 2 <=? length (PyStr.split (PyStr.strip g))
      then Some (add_semicolon (PyStr.strip g)) else None
  | None => None
  end.

(** [_extract_sql]: the four patterns in order, the first that yields a
    query wins; [None] when none does. *)
Definition _extract_sql (llm_response : string) : option string :=
  let text := strip_think_tags llm_response in
  or_first (sql_from_tagged_block text)
    (or_first (sql_from_plain_block text)
       (or_first (sql_from_paragraph text)
          (first_sql_line (PyStrMore.splitlines text)))).

(** [_extract_tagged_line(text, tag)] for a tag made of letters and
    underscores, as at its three call sites: the rest of the line after
    [TAG :], trimmed. *)
Definition _extract_tagged_line (text tag : string) : option string :=
  match Re.search (Re.Seq (Re.lit_ci tag)
                     (Re.Seq (Re.Star true Re.space)
                        (Re.Seq (Re.lit ":")
                           (Re.Seq (Re.Star true Re.space)
                              (Re.Group (Re.Seq (Re.Chr Re.notnl)
                                           (Re.Star true Re.notnl))))))) text with
  | Some g => Some (PyStr.strip g)
  | None => None
  end.

(** [_clean_response_text]: the text shown in the chat panel. *)
Definition _clean_response_text (llm_response : string) : string :=
  let cleaned := strip_think_tags llm_response in
  let cleaned := Re.sub (Re.Seq (Re.lit_ci "```sql")
                           (Re.Seq (Re.Star false (fun _ => true)) (Re.lit "```")))
                        "" cleaned in
  let cleaned := Re.sub (Re.Seq (Re.lit "```")
                           (Re.Seq (Re.Star false (fun _ => true)) (Re.lit "```")))
                        "" cleaned in
  let cleaned := Re.sub (Re.Seq (Re.lit (nl ++ nl ++ nl))
                           (Re.Star true (Ascii.eqb "010")))
                        (nl ++ nl) cleaned in
  PyStr.strip cleaned.

(** ** Constants, enums and dataclasses ([core/agent.py], [core/mysql_manager.py]) *)

Definition MAX_HEAL_ATTEMPTS : nat := 3.
Definition OPTIMIZER_ENABLED : bool := false.
Definition RECENT_MESSAGES_COUNT : nat := 40.
Definition SUMMARY_UPDATE_EVERY : nat := 20.

Inductive AgentIntent : Type :=
| SHOW_DATABASES | SWITCH_DATABASE | SELECT_QUERY | INSERT_DATA | UPDATE_DATA
| DELETE_DATA | CREATE_TABLE | DROP_TABLE | ALTER_TABLE | DESCRIBE_TABLE
| SHOW_TABLES | HELP | EXPLAIN_SCHEMA | GENERAL_QUESTION | EXECUTE_QUERY | UNKNOWN.

Global Instance AgentIntent_eq_dec : EqDecision AgentIntent.
Proof. solve_decision. Defined.

Module QueryResult.
Record t : Type := mk {
  success : bool;
  query : string;
  columns : list string;
  rows : list (list string);
  affected_rows : Z;
  last_insert_id : option Z;
  error : option string;
  execution_ms : Z;
  query_type : string
}.
End QueryResult.

Module HealAttempt.
Record t : Type := mk {
  attempt_no : nat;
  original_sql : string;
  error_message : string;
  corrected_sql : string;
  success : bool;
  execution_ms : Z
}.
End HealAttempt.

Module OptimizerReport.
Record t : Type := mk {
  original_sql : string;
  optimized_sql : string;
  final_sql : string;
  optimizer_notes : string;
  validator_notes : string;
  risk_level : string;
  was_modified : bool
}.
End OptimizerReport.

(** Without [confidence] and [metadata], which no modelled method sets. *)
Module AgentResponse.
Record t : Type := mk {
  natural_text : string;
  sql_query : option string;
  intent : AgentIntent;
  auto_execute : bool;
  requires_confirmation : bool;
  error : option string;
  heal_attempts : list HealAttempt.t;
  optimizer_report : option OptimizerReport.t
}.
End AgentResponse.

(** The fields of [DBMAAgent] that the modelled methods read. *)
Record Agent : Type := mkAgent {
  _current_thread_id : option string;
  _current_database : option string;
  _schema_context : string
}.

(** ** Outcomes of a call: a value or a raised exception *)

Inductive exn : Type := IndexError | UnboundLocalError | LLMException.

Inductive outcome (A : Type) : Type :=
| Ok (a : A)
| Raise (e : exn).
Arguments Ok {A} a.
Arguments Raise {A} e.

(** ** Classification of a query by its leading verb *)

(** [sql.strip().split()[0].upper()]; an index error when there is no word. *)
Definition first_word_upper (sql : string) : outcome string :=
  match PyStr.split (PyStr.strip sql) with
  | w :: _ => Ok (PyStr.upper w)
  | [] => Raise IndexError
  end.

Definition _infer_risk_level (sql : string) : outcome string :=
  if negb (PyStr.truthy sql) then Ok "LOW" else
  match first_word_upper sql with
  | Raise e => Raise e
  | Ok first =>
      if PyStr.mem first ["DELETE"; "DROP"; "TRUNCATE"] then Ok "HIGH"
      else if PyStr.mem first ["UPDATE"; "INSERT"; "ALTER"; "CREATE"] then Ok "MEDIUM"
      else Ok "LOW"
  end.

Definition _is_destructive (sql : option string) : outcome bool :=
  if negb (PyStr.truthy_opt sql) then Ok false else
  match first_word_upper (default "" sql) with
  | Raise e => Raise e
  | Ok first_word => Ok (PyStr.mem first_word ["DELETE"; "DROP"; "TRUNCATE"; "UPDATE"])
  end.

(** The comparison behind [was_modified] in [_run_optimizer_pipeline]:
    [final_sql.strip().lower() != original_sql.strip().lower()]. *)
Definition sql_was_modified (final_sql original_sql : string) : bool :=
  negb (String.eqb (PyStr.lower (PyStr.strip final_sql))
                   (PyStr.lower (PyStr.strip original_sql))).

Example infer_risk_ex2 : _infer_risk_level "Insert into t values (1)" = Ok "MEDIUM".
Proof. reflexivity. Qed.
Example infer_risk_ex4 : _infer_risk_level "   " = Raise IndexError.
Proof. reflexivity. Qed.
Example is_destructive_ex2 : _is_destructive None = Ok false.
Proof. reflexivity. Qed.

(** ** The durable store ([core/persistence.py])

    The PostgreSQL tables the modelled methods touch.  [dbma_messages] is a
    bag of rows; the summary and session tables are keyed by [thread_id],
    which both declare unique. *)

(** A row of [dbma_messages] as [ChatMessage] holds it, without the
    timestamp and the JSON columns. *)
Module ChatMessage.
Record t : Type := mk {
  role : string;
  content : option string;
  thread_id : string;
  message_id : option string;
  sql_query : option string;
  sequence_no : Z
}.
End ChatMessage.

Module Summary.
Record t : Type := mk {
  summary_text : string;
  summarized_up_to_seq : Z;
  message_count_summarized : Z
}.
End Summary.

Module Session.
Record t : Type := mk {
  mysql_db_name : string;
  mysql_host : string;
  mysql_user : string;
  (* how often [last_active_at] was set to [NOW()] after creation *)
  touched : nat
}.
End Session.

Record Store : Type := mkStore {
  dbma_sessions : gmap string Session.t;
  dbma_messages : list ChatMessage.t;
  dbma_conversation_summary : gmap string Summary.t
}.

(** [mysql_config]: the two settings that identify the MySQL server. *)
Module MySQLConfig.
Record t : Type := mk {
  host : string;
  user : string
}.
End MySQLConfig.

(** What the outside world did during a call, in order. *)
Inductive Event : Type :=
| EvExecute (sql : string) (result : QueryResult.t)   (* mysql.execute_query *)
| EvLLM (prompt : string) (response : option string). (* _llm.invoke; None: it raised *)

(** Number of engine calls in a trace. *)
Fixpoint engine_calls (t : list Event) : nat :=
  match t with
  | [] => 0
  | EvExecute _ _ :: t' => S (engine_calls t')
  | EvLLM _ _ :: t' => engine_calls t'
  end.

(** ORDER BY sequence_no ASC *)
Definition seq_le (a b : ChatMessage.t) : Prop :=
  (ChatMessage.sequence_no a <= ChatMessage.sequence_no b)%Z.

Global Instance seq_le_dec : RelDecision seq_le.
Proof. intros a b. unfold seq_le. apply _. Defined.

Definition order_by_seq_asc (l : list ChatMessage.t) : list ChatMessage.t :=
  merge_sort seq_le l.

Definition in_thread (thread_id : string) (m : ChatMessage.t) : bool :=
  String.eqb (ChatMessage.thread_id m) thread_id.

(** SELECT * FROM dbma_messages WHERE thread_id = %s AND sequence_no > %s
    ORDER BY sequence_no ASC *)
Definition select_messages_after (s : Store) (thread_id : string) (after_seq : Z)
    : list ChatMessage.t :=
  order_by_seq_asc
    (filter (fun m => in_thread thread_id m = true
                      /\ (after_seq < ChatMessage.sequence_no m)%Z)
            (dbma_messages s)).

(** SELECT * FROM (SELECT * FROM dbma_messages WHERE thread_id = %s
    ORDER BY sequence_no DESC LIMIT %s) sub ORDER BY sequence_no ASC *)
Definition select_recent_messages (s : Store) (thread_id : string) (n : nat)
    : list ChatMessage.t :=
  order_by_seq_asc
    (take n (reverse (order_by_seq_asc
       (filter (fun m => in_thread thread_id m = true) (dbma_messages s))))).

(** Python slices [l[-n:]] and [l[:-n]] for [n > 0]. *)
Definition slice_last {A} (n : nat) (l : list A) : list A := drop (length l - n) l.
Definition slice_but_last {A} (n : nat) (l : list A) : list A := take (length l - n) l.

Example slice_but_last_ex :
  slice_but_last 2 [1; 2; 3] = [1] /\ slice_but_last 5 [1; 2; 3] = [].
Proof. split; reflexivity. Qed.

(** [format_history_for_llm(messages)] with [include_sql=True]: role and
    content of every message whose content is not blank. *)
Definition ROLE_MAP (role : string) : string :=
  if String.eqb role "human" then "user"
  else if String.eqb role "user" then "user"
  else if String.eqb role "assistant" then "assistant"
  else "user".

Fixpoint format_history_for_llm (messages : list ChatMessage.t) : list (string * string) :=
  match messages with
  | [] => []
  | msg :: rest =>
      let role := ROLE_MAP (ChatMessage.role msg) in
      let content := default "" (ChatMessage.content msg) in
      let content :=
        if PyStr.truthy_opt (ChatMessage.sql_query msg) && String.eqb role "assistant"
        then (content ++ nl ++ nl ++ "Generated SQL:" ++ nl ++ "```sql" ++ nl
              ++ default "" (ChatMessage.sql_query msg) ++ nl ++ "```")%string
        else content in
      if PyStr.truthy (PyStr.strip content)
      then (role, content) :: format_history_for_llm rest
      else format_history_for_llm rest
  end.

(** ** SHA-256 ([hashlib.sha256], FIPS 180-4)

    Words are 32-bit values held in [N]; every sum is reduced modulo 2^32. *)

Module SHA256.
Local Open Scope N_scope.

Definition mask32 : N := 0xFFFFFFFF.
Definition add32 (a b : N) : N := N.land (a + b) mask32.
Definition rotr (n x : N) : N :=
  N.land (N.lor (N.shiftr x n) (N.shiftl x (32 - n))) mask32.
Definition shr (n x : N) : N := N.shiftr x n.
Definition not32 (x : N) : N := N.lxor x mask32.

Definition Ch (x y z : N) : N := N.lxor (N.land x y) (N.land (not32 x) z).
Definition Maj (x y z : N) : N :=
  N.lxor (N.lxor (N.land x y) (N.land x z)) (N.land y z).
Definition Sigma0 (x : N) : N := N.lxor (N.lxor (rotr 2 x) (rotr 13 x)) (rotr 22 x).
Definition Sigma1 (x : N) : N := N.lxor (N.lxor (rotr 6 x) (rotr 11 x)) (rotr 25 x).
Definition sigma0 (x : N) : N := N.lxor (N.lxor (rotr 7 x) (rotr 18 x)) (shr 3 x).
Definition sigma1 (x : N) : N := N.lxor (N.lxor (rotr 17 x) (rotr 19 x)) (shr 10 x).

(** The constants are defined as in the standard: the first 32 bits of the
    fractional parts of the cube roots of the first 64 primes, and of the
    square roots of the first 8. *)
Definition is_prime (n : nat) : bool :=
  (2 <=? n)%nat && forallb (fun d => negb (n mod d =? 0)%nat) (seq 2 (n - 2)).

Definition primes : list N :=
  map N.of_nat (firstn 64 (List.filter is_prime (seq 2 400))).

(** The largest [r] below [2 ^ bits] with [r ^ 3 <= n]. *)
Fixpoint cube_root (bits : nat) (n r : N) : N :=
  match bits with
  | O => r
  | S b =>
      let r' := r + N.shiftl 1 (N.of_nat b) in
      cube_root b n (if r' * r' * r' <=? n then r' else r)
  end.

Definition frac_cube_root (p : N) : N :=
  N.land (cube_root 36 (N.shiftl p 96) 0) mask32.

Definition frac_square_root (p : N) : N :=
  N.land (N.sqrt (N.shiftl p 64)) mask32.

Definition K : list N := Eval vm_compute in map frac_cube_root primes.

Definition H0 : list N := Eval vm_compute in map frac_square_root (firstn 8 primes).

(** Padding: the byte 0x80, zeros up to 56 modulo 64, the bit length on
    eight bytes, most significant first. *)
Definition be_bytes (width : nat) (x : N) : list N :=
  map (fun i => N.land (N.shiftr x (8 * N.of_nat i)) 0xFF) (rev (seq 0 width)).

Definition pad (msg : list N) : list N :=
  let len := length msg in
  let zeros := ((55 + 64 - len mod 64) mod 64)%nat in
  msg ++ [0x80] ++ repeat 0 zeros ++ be_bytes 8 (8 * N.of_nat len).

Fixpoint word_of_bytes (bs : list N) : N :=
  match bs with
  | [] => 0
  | b :: bs' => N.lor (N.shiftl b (8 * N.of_nat (length bs'))) (word_of_bytes bs')
  end.

(** Big-endian 32-bit words of a byte string. *)
Fixpoint words (fuel : nat) (bs : list N) : list N :=
  match fuel, bs with
  | S fuel', _ :: _ => word_of_bytes (firstn 4 bs) :: words fuel' (skipn 4 bs)
  | _, _ => []
  end.

(** The message schedule: sixteen block words, then forty-eight derived
    ones; [w] holds the schedule so far, newest first. *)
Fixpoint extend (n : nat) (w : list N) : list N :=
  match n with
  | O => w
  | S n' =>
      let x := add32 (add32 (sigma1 (nth 1 w 0)) (nth 6 w 0))
                     (add32 (sigma0 (nth 14 w 0)) (nth 15 w 0)) in
      extend n' (x :: w)
  end.

Definition schedule (block : list N) : list N := rev (extend 48 (rev block)).

Definition round (st : list N) (kw : N * N) : list N :=
  match st with
  | [a; b; c; d; e; f; g; h] =>
      let t1 := add32 (add32 (add32 h (Sigma1 e)) (add32 (Ch e f g) (fst kw))) (snd kw) in
      let t2 := add32 (Sigma0 a) (Maj a b c) in
      [add32 t1 t2; a; b; c; add32 d t1; e; f; g]
  | _ => st
  end.

Definition compress (h : list N) (block : list N) : list N :=
  let final := fold_left round (combine K (schedule block)) h in
  map (fun p => add32 (fst p) (snd p)) (combine h final).

Fixpoint blocks (fuel : nat) (ws : list N) : list (list N) :=
  match fuel, ws with
  | S fuel', _ :: _ => firstn 16 ws :: blocks fuel' (skipn 16 ws)
  | _, _ => []
  end.

Definition digest (msg : list N) : list N :=
  let bs := pad msg in
  let ws := words (length bs) bs in
  fold_left compress (blocks (length ws) ws) H0.

Definition hex_digit (n : N) : ascii :=
  if n <? 10 then ascii_of_N (48 + n) else ascii_of_N (87 + n).

Fixpoint hex_of_word (digits : nat) (x : N) : string :=
  match digits with
  | O => EmptyString
  | S d => String (hex_digit (N.land (N.shiftr x (4 * N.of_nat d)) 0xF)) (hex_of_word d x)
  end.

(** [str.encode()] on ASCII text: one byte per character. *)
Fixpoint encode (s : string) : list N :=
  match s with
  | EmptyString => []
  | String c s' => N_of_ascii c :: encode s'
  end.

(** [hashlib.sha256(b).hexdigest()] *)
Definition hexdigest (msg : list N) : string :=
  fold_right (fun w acc => String.append (hex_of_word 8 w) acc) EmptyString (digest msg).

End SHA256.

(** ** Thread identifiers ([PersistenceManager.generate_thread_id]) *)

(** [f"thread_{hashlib.sha256(f"{host}::{user}::{database}".encode()).hexdigest()[:32]}"] *)
Definition generate_thread_id (host user database : string) : string :=
  let raw := (host ++ "::" ++ user ++ "::" ++ database)%string in
  let hash_val := Re.prefix 32 (SHA256.hexdigest (SHA256.encode raw)) in
  ("thread_" ++ hash_val)%string.

(** ** The agent's world

    The state of the three external services and what they were asked: the
    MySQL engine and the language model, each a state of some type, the
    store's tables, and the trace of engine and model calls. *)

Record World (E O : Type) : Type := mkWorld {
  mysql : E;
  llm : O;
  pg : Store;
  (* for each coming call of the store, whether it will fail *)
  pg_faults : list bool;
  trace : list Event
}.
Arguments mkWorld {E O} mysql llm pg pg_faults trace.
Arguments mysql {E O} w.
Arguments llm {E O} w.
Arguments pg {E O} w.
Arguments pg_faults {E O} w.
Arguments trace {E O} w.

(** ** Scripted collaborators

    Concrete engines and models for running the agent on examples: they
    answer from a prepared list, in order. *)

Module Script.

Definition failed (err sql : string) : QueryResult.t :=
  QueryResult.mk false sql [] [] 0 None (Some err) 0 "UNKNOWN".

Definition succeeded (ms : Z) (sql : string) : QueryResult.t :=
  QueryResult.mk true sql [] [] 0 None None ms "SELECT".

(** The engine gives one prepared answer per call and fails once the list
    is used up. *)
Definition execute_query (e : list (string -> QueryResult.t)) (sql : string)
    : QueryResult.t * list (string -> QueryResult.t) :=
  match e with
  | answer :: e' => (answer sql, e')
  | [] => (failed "Lost connection to MySQL server" sql, [])
  end.

(** An engine that rejects every query. *)
Definition reject_all (e : unit) (sql : string) : QueryResult.t * unit :=
  (failed "You have an error in your SQL syntax" sql, tt).

(** The model gives one prepared answer per call ([None]: it raises) and
    raises once the list is used up. *)
Definition llm_invoke (o : list (option string)) (prompt : string)
    : option string * list (option string) :=
  match o with
  | answer :: o' => (answer, o')
  | [] => (None, [])
  end.

(** An answer of the model that carries [sql] in a tagged block. *)
Definition sql_block (sql : string) : string :=
  ("```sql" ++ nl ++ sql ++ nl ++ "```")%string.

(** Short stand-ins for the prompt templates. *)
Definition HEALER_PROMPT (database_name schema_context failed_sql error_message : string)
    : string :=
  ("Database: " ++ database_name ++ nl ++ schema_context ++ nl
   ++ "FAILED SQL: " ++ failed_sql ++ nl ++ "MYSQL ERROR: " ++ error_message)%string.

Definition OPTIMIZER_PROMPT (database_name schema_context original_sql : string) : string :=
  ("Database: " ++ database_name ++ nl ++ schema_context ++ nl
   ++ "ORIGINAL SQL: " ++ original_sql)%string.

Definition VALIDATOR_PROMPT (database_name schema_context sql_to_validate : string)
    : string :=
  ("Database: " ++ database_name ++ nl ++ schema_context ++ nl
   ++ "SQL TO VALIDATE: " ++ sql_to_validate)%string.

Definition SUMMARIZER_PROMPT (messages_text : string) : string :=
  ("CONVERSATION TO SUMMARIZE:" ++ nl ++ messages_text)%string.

Definition agent : Agent :=
  mkAgent (Some "thread_5e6892e28eb3b3578ae9ab95ad3746a3") (Some "orders_db") "orders(id, cust_id)".

Definition empty_store : Store := mkStore ∅ [] ∅.

(** Messages of one thread numbered [first], [first + 1], ... *)
Fixpoint numbered_messages (thread_id : string) (first : Z) (count : nat)
    : list ChatMessage.t :=
  match count with
  | O => []
  | S count' =>
      ChatMessage.mk "human" (Some "show orders") thread_id None None first
      :: numbered_messages thread_id (first + 1) count'
  end.

(** A world with a working, empty trace and the given services. *)
Definition world {E : Type} (e : E) (o : list (option string)) (s : Store)
    : World E (list (option string)) :=
  mkWorld e o s [] [].

Definition orders_thread : string := "thread_5e6892e28eb3b3578ae9ab95ad3746a3".

(** A thread with a summary up to message 10 and messages 1 to 51. *)
Definition summarized_store : Store :=
  mkStore ∅ (numbered_messages orders_thread 1 51)
    {[ orders_thread := Summary.mk "The user listed the orders of customer 7." 10 10 ]}.

Definition orders_query : string := "SELECT * FROM orders WHERE cust_id = 7".

(** The engine rejects the query and its first correction and accepts the
    second; the healer proposes the two corrections. *)
Definition heals_on_third_call
    : World (list (string -> QueryResult.t)) (list (option string)) :=
  world [failed "Unknown column 'cust_id' in 'where clause'";
         failed "Table 'orders_db.order' doesn't exist";
         succeeded 12]
        [Some ("The column is customer_id." ++ nl
               ++ sql_block "SELECT * FROM order WHERE customer_id = 7")%string;
         Some ("The table is orders." ++ nl
               ++ sql_block "SELECT * FROM orders WHERE customer_id = 7")%string]
        empty_store.

(** The engine rejects every query; the healer proposes three different
    corrections. *)
Definition never_heals : World unit (list (option string)) :=
  world tt
        [Some (sql_block "SELECT * FROM orders WHERE customer = 7");
         Some (sql_block "SELECT * FROM orders WHERE customer_id = 7");
         Some (sql_block "SELECT * FROM `orders` WHERE `customer_id` = 7")]
        empty_store.

(** The engine rejects every query; the healer's answer holds no SQL. *)
Definition healer_gives_up : World unit (list (option string)) :=
  world tt [Some "I cannot fix this query."] empty_store.

(** The engine rejects every query; the healer repeats the failing one. *)
Definition healer_repeats : World unit (list (option string)) :=
  world tt [Some (sql_block orders_query)] empty_store.

(** A thread with 85 messages and no summary yet. *)
Definition long_store : Store :=
  mkStore ∅ (numbered_messages orders_thread 1 85) ∅.

End Script.

(** ** The agent's monad *)

Section Orchestration.

(** The MySQL engine and the language model are external services: each is
    a state of an arbitrary type with a transition function.  The engine
    reports every failure in its result; the model may raise, which is the
    answer [None]. *)
Context {E O : Type}.
Variable execute_query : E -> string -> QueryResult.t * E.
Variable llm_invoke : O -> string -> option string * O.

(** The prompt templates, as the functions [TEMPLATE.format(...)]. *)
Variable HEALER_PROMPT : string -> string -> string -> string -> string.
Variable OPTIMIZER_PROMPT : string -> string -> string -> string.
Variable VALIDATOR_PROMPT : string -> string -> string -> string.
Variable SUMMARIZER_PROMPT : string -> string.

Definition M (A : Type) : Type := World E O -> outcome A * World E O.

Definition ret {A} (a : A) : M A := fun w => (Ok a, w).

Definition bind {A B} (c : M A) (k : A -> M B) : M B :=
  fun w => match c w with
           | (Ok a, w') => k a w'
           | (Raise e, w') => (Raise e, w')
           end.

Definition lift {A} (o : outcome A) : M A := fun w => (o, w).

(** [try: c except Exception: h] *)
Definition try_except {A} (c : M A) (h : M A) : M A :=
  fun w => match c w with
           | (Ok a, w') => (Ok a, w')
           | (Raise _, w') => h w'
           end.

Notation "'let*' x ':=' c 'in' k" := (bind c (fun x => k))
  (at level 10, x name, c at level 100, k at level 200).

(** [self.mysql.execute_query(sql)] *)
Definition mysql_execute_query (sql : string) : M QueryResult.t :=
  fun w =>
    let '(result, e') := execute_query (mysql w) sql in
    (Ok result,
     mkWorld e' (llm w) (pg w) (pg_faults w) (trace w ++ [EvExecute sql result])).

(** [self._llm.invoke(prompt)], an exception being the answer [None]. *)
Definition llm_call (prompt : string) : World E O -> option string * World E O :=
  fun w =>
    let '(response, o') := llm_invoke (llm w) prompt in
    (response,
     mkWorld (mysql w) o' (pg w) (pg_faults w) (trace w ++ [EvLLM prompt response])).

(** A call of the store: it fails when the fault schedule says so, and then
    leaves the tables as they are and yields the fallback of its
    [except] clause. *)
Definition pg_call {A} (fallback : A) (body : Store -> A * Store) : M A :=
  fun w =>
    match pg_faults w with
    | true :: faults =>
        (Ok fallback, mkWorld (mysql w) (llm w) (pg w) faults (trace w))
    | false :: faults =>
        let '(a, s') := body (pg w) in
        (Ok a, mkWorld (mysql w) (llm w) s' faults (trace w))
    | [] =>
        let '(a, s') := body (pg w) in
        (Ok a, mkWorld (mysql w) (llm w) s' [] (trace w))
    end.

(** *** Persistence methods *)

Definition load_conversation_summary (thread_id : string) : M (option Summary.t) :=
  pg_call None (fun s => (dbma_conversation_summary s !! thread_id, s)).

Definition get_messages_after_seq (thread_id : string) (after_seq : Z)
    : M (list ChatMessage.t) :=
  pg_call [] (fun s => (select_messages_after s thread_id after_seq, s)).

Definition get_recent_messages (thread_id : string) (n : nat)
    : M (list ChatMessage.t) :=
  pg_call [] (fun s => (select_recent_messages s thread_id n, s)).

Definition save_conversation_summary (thread_id summary_text : string)
    (summarized_up_to_seq message_count_summarized : Z) : M bool :=
  pg_call false (fun s =>
    (true,
     mkStore (dbma_sessions s) (dbma_messages s)
       (<[thread_id := Summary.mk summary_text summarized_up_to_seq
                         message_count_summarized]>
          (dbma_conversation_summary s)))).

(** *** Self-healing query retry loop *)

(** [_heal_sql]: ask the healer for a corrected query; [None] when the
    model raised or its answer holds no SQL. *)
Definition _heal_sql (agent : Agent) (failed_sql error_message : string)
    : M (option string) :=
  fun w =>
    let healer_prompt :=
      HEALER_PROMPT (PyStr.or_else (_current_database agent) "unknown")
                    (Re.prefix 2000 (_schema_context agent))
                    failed_sql error_message in
    let full_prompt :=
      ("[SYSTEM]" ++ nl ++ healer_prompt ++ nl ++ nl ++ "[ASSISTANT]" ++ nl
       ++ "/no_think" ++ nl)%string in
    match llm_call full_prompt w with
    | (Some healer_response, w') => (Ok (_extract_sql healer_response), w')
    | (None, w') => (Ok None, w')
    end.

(** [heal_log[-1].success = True; heal_log[-1].execution_ms = ...] *)
Definition mark_last_healed (heal_log : list HealAttempt.t) (ms : Z)
    : outcome (list HealAttempt.t) :=
  match last heal_log with
  | None => Raise IndexError
  | Some a =>
      Ok (removelast heal_log ++
          [HealAttempt.mk (HealAttempt.attempt_no a) (HealAttempt.original_sql a)
             (HealAttempt.error_message a) (HealAttempt.corrected_sql a) true ms])
  end.

(** The healer could not help: no text, or the failing query again. *)
Definition no_correction (corrected_sql : option string) (current_sql : string) : bool :=
  negb (PyStr.truthy_opt corrected_sql)
  || String.eqb (PyStr.strip (default "" corrected_sql)) (PyStr.strip current_sql).

(** The body of [for attempt in range(MAX_HEAL_ATTEMPTS + 1)], over the
    attempts still to come; [result] is the variable of that name, unbound
    before the first iteration. *)
Fixpoint heal_loop (agent : Agent) (attempts : list nat) (current_sql : string)
    (heal_log : list HealAttempt.t) (result : option QueryResult.t)
    : M (QueryResult.t * list HealAttempt.t) :=
  match attempts with
  | [] =>
      match result with
      | Some r => ret (r, heal_log)
      | None => lift (Raise UnboundLocalError)
      end
  | attempt :: rest =>
      let* result := mysql_execute_query current_sql in
      if QueryResult.success result then
        if 0 <? attempt then
          let* healed := lift (mark_last_healed heal_log (QueryResult.execution_ms result)) in
          ret (result, healed)
        else ret (result, heal_log)
      else
        let error_msg := PyStr.or_else (QueryResult.error result) "Unknown error" in
        if attempt =? MAX_HEAL_ATTEMPTS then ret (result, heal_log)
        else
          let* corrected_sql := _heal_sql agent current_sql error_msg in
          if no_correction corrected_sql current_sql then ret (result, heal_log)
          else
            heal_loop agent rest (default "" corrected_sql)
              (heal_log ++ [HealAttempt.mk (attempt + 1) current_sql error_msg
                              (default "" corrected_sql) false 0])
              (Some result)
  end.

(** [execute_with_healing(sql)].  The optional [on_attempt_callback] only
    reports progress to the user interface and is left out. *)
Definition execute_with_healing (agent : Agent) (sql : string)
    : M (QueryResult.t * list HealAttempt.t) :=
  if negb (PyStr.truthy_opt (_current_database agent)) then
    ret (QueryResult.mk false sql [] [] 0 None (Some "No database selected") 0 "UNKNOWN",
         [])
  else heal_loop agent (seq 0 (MAX_HEAL_ATTEMPTS + 1)) sql [] None.

(** *** Multi-agent optimizer pipeline *)

(** [_invoke_sub_agent]: the model's answer; its exception is raised
    again after logging. *)
Definition _invoke_sub_agent (agent_name prompt : string) : M string :=
  fun w =>
    let full_prompt :=
      ("[SYSTEM]" ++ nl ++ prompt ++ nl ++ nl ++ "[ASSISTANT]" ++ nl
       ++ "/no_think" ++ nl)%string in
    match llm_call full_prompt w with
    | (Some response, w') => (Ok response, w')
    | (None, w') => (Raise LLMException, w')
    end.

Definition _run_optimizer_pipeline (agent : Agent) (original_sql : string)
    : M OptimizerReport.t :=
  let db := PyStr.or_else (_current_database agent) "unknown" in
  let sch := Re.prefix 1500 (_schema_context agent) in
  (* Agent 2: optimizer *)
  let* optimizer_response :=
    _invoke_sub_agent "DBMA-Optimizer" (OPTIMIZER_PROMPT db sch original_sql) in
  let optimized_sql := PyStr.or_else (_extract_sql optimizer_response) original_sql in
  let optimizer_notes :=
    PyStr.or_else (_extract_tagged_line optimizer_response "OPTIMIZER_NOTES")
                  "No changes needed" in
  (* Agent 3: validator *)
  let* validator_response :=
    _invoke_sub_agent "DBMA-Validator" (VALIDATOR_PROMPT db sch optimized_sql) in
  let final_sql := PyStr.or_else (_extract_sql validator_response) optimized_sql in
  let validator_notes :=
    PyStr.or_else (_extract_tagged_line validator_response "VALIDATOR_NOTES")
                  "Validated — no issues found" in
  let* risk_level :=
    (if PyStr.truthy_opt (_extract_tagged_line validator_response "RISK_LEVEL")
     then ret (default "" (_extract_tagged_line validator_response "RISK_LEVEL"))
     else lift (_infer_risk_level final_sql)) in
  (* normalize the risk level *)
  let risk_level := PyStr.upper (PyStr.strip risk_level) in
  let* risk_level :=
    (if negb (PyStr.mem risk_level ["LOW"; "MEDIUM"; "HIGH"])
     then lift (_infer_risk_level final_sql)
     else ret risk_level) in
  ret (OptimizerReport.mk original_sql optimized_sql final_sql optimizer_notes
         validator_notes risk_level (sql_was_modified final_sql original_sql)).

(** *** The end of a chat turn *)

Definition _optimizer_intents : list AgentIntent :=
  [SELECT_QUERY; INSERT_DATA; UPDATE_DATA; DELETE_DATA; CREATE_TABLE].

Definition optimizer_summary (report : OptimizerReport.t) : string :=
  if OptimizerReport.was_modified report then
    (nl ++ nl ++ "🔧 **Optimizer Pipeline Report:**" ++ nl
     ++ "• Optimizer : " ++ OptimizerReport.optimizer_notes report ++ nl
     ++ "• Validator : " ++ OptimizerReport.validator_notes report ++ nl
     ++ "• Risk Level: " ++ OptimizerReport.risk_level report)%string
  else
    (nl ++ nl ++ "✅ **Optimizer:** Query verified — no changes needed. "
     ++ "Risk: " ++ OptimizerReport.risk_level report)%string.

(** Steps 6 and 7 of [_chat_inner]: from the model's answer to the
    [AgentResponse].  Saving the two turns afterwards does not change the
    response and is left out. *)
Definition _chat_inner_response (agent : Agent) (intent : AgentIntent)
    (llm_response_text : string) : M AgentResponse.t :=
  let raw_sql := _extract_sql llm_response_text in
  let natural_text := _clean_response_text llm_response_text in
  let* refined :=
    (if PyStr.truthy_opt raw_sql && OPTIMIZER_ENABLED
        && bool_decide (intent ∈ _optimizer_intents)
     then
       try_except
         (let* optimizer_report := _run_optimizer_pipeline agent (default "" raw_sql) in
          ret (Some optimizer_report,
               Some (OptimizerReport.final_sql optimizer_report),
               (natural_text ++ optimizer_summary optimizer_report)%string))
         (ret (None, raw_sql, natural_text))
     else ret (None, raw_sql, natural_text)) in
  let '(optimizer_report, final_sql, natural_text) := refined in
  let* requires_confirmation := lift (_is_destructive final_sql) in
  let auto_execute := bool_decide (intent ∈ [SHOW_DATABASES; SHOW_TABLES]) in
  ret (AgentResponse.mk natural_text final_sql intent auto_execute
         requires_confirmation None [] optimizer_report).

(** *** Rolling conversation memory *)

Fixpoint join (sep : string) (parts : list string) : string :=
  match parts with
  | [] => EmptyString
  | [p] => p
  | p :: rest => (p ++ sep ++ join sep rest)%string
  end.

(** [_invoke_llm(messages)]: one prompt from the role-tagged messages; the
    model's exception is raised again. *)
Definition prompt_part (msg : string * string) : list string :=
  let '(role, content) := msg in
  if String.eqb role "system" then [("[SYSTEM]" ++ nl ++ content ++ nl)%string]
  else if String.eqb role "user" || String.eqb role "human"
  then [("[USER]" ++ nl ++ content ++ nl)%string]
  else if String.eqb role "assistant" then [("[ASSISTANT]" ++ nl ++ content ++ nl)%string]
  else [].

Definition _invoke_llm (messages : list (string * string)) : M string :=
  fun w =>
    let prompt_parts := concat (map prompt_part messages) in
    let full_prompt :=
      (join nl prompt_parts ++ nl ++ "[ASSISTANT]" ++ nl ++ "/no_think" ++ nl)%string in
    match llm_call full_prompt w with
    | (Some response, w') => (Ok response, w')
    | (None, w') => (Raise LLMException, w')
    end.

(** One line of the transcript handed to the summarizer. *)
Definition transcript_line (msg : ChatMessage.t) : list string :=
  let role :=
    if PyStr.mem (ChatMessage.role msg) ["human"; "user"] then "User" else "DBMA" in
  let text := PyStr.strip (default "" (ChatMessage.content msg)) in
  let text :=
    if PyStr.truthy_opt (ChatMessage.sql_query msg)
    then (text ++ nl ++ "[SQL: " ++ PyStr.strip (default "" (ChatMessage.sql_query msg))
          ++ "]")%string
    else text in
  if PyStr.truthy text then [(role ++ ": " ++ text)%string] else [].

(** [re.sub(r"<think>.*?</think>", "", result, flags=re.DOTALL).strip()] *)
Definition strip_think_block (result : string) : string :=
  PyStr.strip
    (Re.sub (Re.Seq (Re.lit "<think>")
               (Re.Seq (Re.Star false (fun _ => true)) (Re.lit "</think>")))
            "" result).

(** [_summarize_messages]: the new summary, or the existing one when the
    model raised or answered nothing. *)
Definition _summarize_messages (existing_summary : string)
    (new_messages : list ChatMessage.t) : M string :=
  try_except
    (let lines :=
       (if PyStr.truthy existing_summary
        then ["=== EXISTING SUMMARY (keep all facts from here) ===";
              existing_summary;
              (nl ++ "=== NEW MESSAGES TO ADD TO SUMMARY ===")%string]
        else [])
       ++ concat (map transcript_line new_messages) in
     let messages_text := join nl lines in
     let prompt := SUMMARIZER_PROMPT messages_text in
     let* result :=
       _invoke_llm
         [("system",
           "You are a precise conversation summarizer. Output only the summary, no preamble.");
          ("user", prompt)] in
     let result := strip_think_block result in
     ret (if PyStr.truthy result then result else existing_summary))
    (ret existing_summary).

Record RollingContext : Type := mkRollingContext {
  summary : string;
  recent_formatted : list (string * string)
}.

(** [_build_rolling_context]: the stored summary and the recent turns, from
    the store alone. *)
Definition _build_rolling_context (thread_id : string) : M RollingContext :=
  try_except
    (let* existing := load_conversation_summary thread_id in
     let* loaded :=
       match existing with
       | Some e =>
           let* unsummarized :=
             get_messages_after_seq thread_id (Summary.summarized_up_to_seq e) in
           ret (Summary.summary_text e, unsummarized)
       | None =>
           let* unsummarized := get_recent_messages thread_id RECENT_MESSAGES_COUNT in
           ret (EmptyString, unsummarized)
       end in
     let '(summary_text, unsummarized) := loaded in
     (* always cap at RECENT_MESSAGES_COUNT *)
     let to_keep :=
       if RECENT_MESSAGES_COUNT <? length unsummarized
       then slice_last RECENT_MESSAGES_COUNT unsummarized
       else unsummarized in
     ret (mkRollingContext summary_text (format_history_for_llm to_keep)))
    (let* msgs := get_recent_messages thread_id RECENT_MESSAGES_COUNT in
     ret (mkRollingContext EmptyString (format_history_for_llm msgs))).

(** [update_summary_if_needed]: fold the unsummarized turns that fell out
    of the recent window into the summary. *)
Definition update_summary_if_needed (thread_id : string) : M unit :=
  try_except
    (let* existing := load_conversation_summary thread_id in
     let last_seq :=
       match existing with
       | Some e => Summary.summarized_up_to_seq e
       | None => 0%Z
       end in
     let* unsummarized := get_messages_after_seq thread_id last_seq in
     (* only summarize if enough new messages have piled up *)
     if length unsummarized <=? RECENT_MESSAGES_COUNT then ret tt
     else
       let to_fold := slice_but_last RECENT_MESSAGES_COUNT unsummarized in
       let* summary_text :=
         _summarize_messages
           (match existing with Some e => Summary.summary_text e | None => EmptyString end)
           to_fold in
       match last to_fold with
       | None => lift (Raise IndexError)
       | Some newest_folded =>
           let* saved :=
             save_conversation_summary thread_id summary_text
               (ChatMessage.sequence_no newest_folded)
               (match existing with
                | Some e => Summary.message_count_summarized e
                | None => 0%Z
                end + Z.of_nat (length to_fold))%Z in
           ret tt
       end)
    (ret tt).

(** *** Session registry *)

(** [get_or_create_session]: the thread of a database, registered in the
    store when the store can be reached. *)
Definition get_or_create_session (mysql_config : MySQLConfig.t)
    (database_name : string) (host user : option string) : M string :=
  let h := PyStr.or_else host (MySQLConfig.host mysql_config) in
  let u := PyStr.or_else user (MySQLConfig.user mysql_config) in
  let thread_id := generate_thread_id h u database_name in
  pg_call thread_id (fun s =>
    (thread_id,
     mkStore
       (match dbma_sessions s !! thread_id with
        | Some row =>
            <[thread_id := Session.mk (Session.mysql_db_name row) (Session.mysql_host row)
                             (Session.mysql_user row) (S (Session.touched row))]>
              (dbma_sessions s)
        | None => <[thread_id := Session.mk database_name h u 0]> (dbma_sessions s)
        end)
       (dbma_messages s) (dbma_conversation_summary s))).

(** *** Other methods of the store and the agent *)

(** SELECT * FROM dbma_messages WHERE thread_id = %s ORDER BY sequence_no ASC *)
Definition select_all_messages (s : Store) (thread_id : string) : list ChatMessage.t :=
  order_by_seq_asc (filter (fun m => in_thread thread_id m = true) (dbma_messages s)).

(** [load_chat_history(thread_id, limit)]: the newest [limit] messages when
    [limit] is truthy, every message when it is [None] or 0. *)
Definition load_chat_history (thread_id : string) (limit : option nat)
    : M (list ChatMessage.t) :=
  pg_call [] (fun s =>
    (match limit with
     | Some (S n) => select_recent_messages s thread_id (S n)
     | _ => select_all_messages s thread_id
     end, s)).

(** [get_message_count]: SELECT COUNT( * ) FROM dbma_messages WHERE thread_id = %s,
    and 0 when the store fails. *)
Definition get_message_count (thread_id : string) : M nat :=
  pg_call 0 (fun s =>
    (length (filter (fun m => in_thread thread_id m = true) (dbma_messages s)), s)).

(** [clear_thread]: three DELETE statements in one [try] on a connection
    in autocommit mode, so each is a call of the store of its own and the
    first that fails ends the method.  The second and third empty the
    checkpoint and schema-cache tables, which are not among the modelled
    ones. *)
Definition clear_thread (thread_id : string) : M bool :=
  let* messages_deleted :=
    pg_call false (fun s =>
      (true,
       mkStore (dbma_sessions s)
         (filter (fun m => in_thread thread_id m = false) (dbma_messages s))
         (dbma_conversation_summary s))) in
  if negb messages_deleted then ret false
  else
    let* checkpoints_deleted := pg_call false (fun s => (true, s)) in
    if negb checkpoints_deleted then ret false
    else pg_call false (fun s => (true, s)).

(** [AgentResponse.has_sql] *)
Definition has_sql (response : AgentResponse.t) : bool :=
  match AgentResponse.sql_query response with
  | Some sql => negb (String.eqb (PyStr.strip sql) EmptyString)
  | None => false
  end.

(** *** Intent classification ([classify_intent]) *)

(** Pieces of its patterns: [\s+], [\w+], [.*], [r?], and a sequence of
    pieces between two [\b]. *)
Definition spaces : Re.regex := Re.Seq (Re.Chr Re.space) (Re.Star true Re.space).
Definition word_chars : Re.regex := Re.Seq (Re.Chr Re.is_word) (Re.Star true Re.is_word).
Definition anything : Re.regex := Re.Star true Re.notnl.
Definition optional (r : Re.regex) : Re.regex := Re.Alt r Re.Eps.
Definition seqs (rs : list Re.regex) : Re.regex := fold_right Re.Seq Re.Eps rs.
Definition bounded (rs : list Re.regex) : Re.regex := seqs (Re.WordB :: rs ++ [Re.WordB]).

(** [re.search(r, s)] as a truth value. *)
Definition found (r : Re.regex) (s : string) : bool :=
  bool_decide (is_Some (Re.search_from r None s)).

Definition classify_intent (user_input : string) : AgentIntent :=
  let inp := PyStr.strip (PyStr.lower user_input) in
  if found (Re.alts
       [bounded [Re.lit "show"; spaces; optional (Re.Group (seqs [Re.lit "all"; spaces]));
                 Re.lit "database"; optional (Re.lit "s")];
        bounded [Re.lit "list"; spaces; Re.lit "database"; optional (Re.lit "s")];
        bounded [Re.lit "what"; spaces; Re.lit "database"; optional (Re.lit "s")]]) inp
  then SHOW_DATABASES
  else if found (Re.alts
       [bounded [Re.lit "show"; spaces; optional (Re.Group (seqs [Re.lit "all"; spaces]));
                 Re.lit "table"; optional (Re.lit "s")];
        bounded [Re.lit "list"; spaces; Re.lit "table"; optional (Re.lit "s")]]) inp
  then SHOW_TABLES
  else if found (Re.alts
       [bounded [Re.lit "use"; spaces; word_chars];
        bounded [Re.lit "switch"; spaces; Re.lit "to"];
        bounded [Re.lit "go"; spaces; Re.lit "to"; spaces; Re.lit "database"];
        bounded [Re.lit "change"; spaces;
                 optional (Re.Group (seqs [Re.lit "database"; spaces])); Re.lit "to"]]) inp
  then SWITCH_DATABASE
  else if found (Re.alts
       [bounded [Re.lit "describe"];
        bounded [Re.lit "desc"];
        bounded [Re.lit "show"; spaces; Re.lit "column"; optional (Re.lit "s")];
        bounded [Re.lit "structure"; spaces; Re.lit "of"]]) inp
  then DESCRIBE_TABLE
  else if found (Re.alts
       [bounded [Re.lit "run"; spaces; Re.lit "this"];
        bounded [Re.lit "execute"; spaces; Re.lit "this"];
        bounded [Re.lit "yes"; anything; Re.lit "run"];
        bounded [Re.lit "confirm"]]) inp
  then EXECUTE_QUERY
  else if found (Re.alts
       [bounded [Re.lit "help"];
        bounded [Re.lit "what"; spaces; Re.lit "can"; spaces; Re.lit "you"];
        bounded [Re.lit "command"; optional (Re.lit "s")]]) inp
  then HELP
  else if found (Re.alts
       [bounded [Re.lit "select"];
        bounded [Re.lit "get"];
        bounded [Re.lit "fetch"];
        bounded [Re.lit "show"; spaces; Re.lit "me"];
        bounded [Re.lit "find"];
        bounded [Re.lit "list"]]) inp
  then SELECT_QUERY
  else if found (Re.alts
       [bounded [Re.lit "insert"];
        bounded [Re.lit "add"];
        bounded [Re.lit "create"; spaces; Re.lit "record"];
        bounded [Re.lit "new"; spaces; Re.lit "row"]]) inp
  then INSERT_DATA
  else if found (Re.alts
       [bounded [Re.lit "update"];
        bounded [Re.lit "modify"];
        bounded [Re.lit "change"];
        bounded [Re.lit "edit"]]) inp
  then UPDATE_DATA
  else if found (Re.alts
       [bounded [Re.lit "delete"];
        bounded [Re.lit "remove"];
        bounded [Re.lit "drop"; spaces; Re.lit "row"]]) inp
  then DELETE_DATA
  else if found (Re.alts
       [bounded [Re.lit "create"; spaces; Re.lit "table"];
        bounded [Re.lit "new"; spaces; Re.lit "table"]]) inp
  then CREATE_TABLE
  else if found (Re.alts
       [bounded [Re.lit "drop"; spaces; Re.lit "table"];
        bounded [Re.lit "delete"; spaces; Re.lit "table"]]) inp
  then DROP_TABLE
  else if found (Re.alts
       [bounded [Re.lit "explain"];
        bounded [Re.lit "what"; spaces; Re.lit "is"];
        bounded [Re.lit "how"; spaces; Re.lit "does"];
        bounded [Re.lit "what"; anything; Re.lit "schema"]]) inp
  then EXPLAIN_SCHEMA
  else GENERAL_QUESTION.

(** *** Query types of the engine and of the command line
    ([MySQLManager._detect_query_type], [utils/helpers.py]) *)

(** [sql.strip().split()[0].upper() if sql.strip() else ""] *)
Definition first_word_or_empty (sql : string) : outcome string :=
  if PyStr.truthy (PyStr.strip sql) then first_word_upper sql else Ok EmptyString.

Definition type_map : list (string * string) :=
  [("SELECT", "SELECT"); ("SHOW", "SHOW"); ("DESCRIBE", "DESCRIBE"); ("DESC", "DESCRIBE");
   ("EXPLAIN", "EXPLAIN"); ("INSERT", "INSERT"); ("UPDATE", "UPDATE"); ("DELETE", "DELETE");
   ("CREATE", "CREATE"); ("DROP", "DROP"); ("ALTER", "ALTER"); ("TRUNCATE", "TRUNCATE");
   ("USE", "USE"); ("SET", "SET"); ("BEGIN", "TRANSACTION"); ("COMMIT", "TRANSACTION");
   ("ROLLBACK", "TRANSACTION"); ("CALL", "PROCEDURE"); ("GRANT", "PRIVILEGE");
   ("REVOKE", "PRIVILEGE")].

(** [d.get(k, default)] *)
Fixpoint dict_get (d : list (string * string)) (k default : string) : string :=
  match d with
  | [] => default
  | (k', v) :: d' => if String.eqb k k' then v else dict_get d' k default
  end.

Definition _detect_query_type (query : string) : outcome string :=
  match first_word_or_empty query with
  | Ok first_word => Ok (dict_get type_map first_word "UNKNOWN")
  | Raise e => Raise e
  end.

Definition is_safe_query (sql : string) : outcome bool :=
  match first_word_or_empty sql with
  | Ok first_word =>
      Ok (PyStr.mem first_word ["SELECT"; "SHOW"; "DESCRIBE"; "DESC"; "EXPLAIN"])
  | Raise e => Raise e
  end.

(** ** Notions of the specification *)

(** The characters of [s] up to the first whitespace. *)
Fixpoint leading_word (s : string) : string :=
  match s with
  | EmptyString => EmptyString
  | String c s' => if PyStr.isspace c then EmptyString else String c (leading_word s')
  end.

(** The first whitespace-separated token of [s], if it has one. *)
Definition first_token (s : string) : option string :=
  match PyStr.lstrip s with
  | EmptyString => None
  | t => Some (leading_word t)
  end.

(** The validator's answer states one of the three recognized risk
    levels. *)
Definition states_risk_level (validator_response : string) : bool :=
  match _extract_tagged_line validator_response "RISK_LEVEL" with
  | Some stated => PyStr.mem (PyStr.upper (PyStr.strip stated)) ["LOW"; "MEDIUM"; "HIGH"]
  | None => false
  end.

(** Two texts that differ at most in the case of their letters. *)
Inductive eq_ignoring_case : string -> string -> Prop :=
| eq_ignoring_case_nil : eq_ignoring_case EmptyString EmptyString
| eq_ignoring_case_cons (a b : ascii) (s t : string) :
    PyStr.lower_char a = PyStr.lower_char b ->
    eq_ignoring_case s t ->
    eq_ignoring_case (String a s) (String b t).

(** A text made of whitespace only. *)
Fixpoint blank (s : string) : bool :=
  match s with
  | EmptyString => true
  | String c s' => PyStr.isspace c && blank s'
  end.

(** Whitespace normalization: the words of a text, one space apart. *)
Definition normalize_whitespace (s : string) : string := join " " (PyStr.split s).

(** The comparison the specification describes for [was_modified]:
    case-insensitive and whitespace-normalized. *)
Definition same_normalized_text (a b : string) : Prop :=
  eq_ignoring_case (normalize_whitespace a) (normalize_whitespace b).

(** A correction that cannot help: no text, or the failing query again
    once both are trimmed. *)
Definition unhelpful (corrected_sql : option string) (failing_sql : string) : Prop :=
  corrected_sql = None
  \/ corrected_sql = Some EmptyString
  \/ exists c, corrected_sql = Some c /\ PyStr.strip c = PyStr.strip failing_sql.

(** The error text handed to the healer for a failed result. *)
Definition error_text (result : QueryResult.t) : string :=
  PyStr.or_else (QueryResult.error result) "Unknown error".

(** The states in which [execute_with_healing agent sql], started in
    world [w0], stands at the head of its loop: the attempts still to come,
    the query about to run, the heal log and last result so far, and the
    world. *)
Inductive loop_head (agent : Agent) (sql : string) (w0 : World E O)
    : list nat -> string -> list HealAttempt.t -> option QueryResult.t -> World E O -> Prop :=
| loop_head_first :
    PyStr.truthy_opt (_current_database agent) = true ->
    loop_head agent sql w0 (seq 0 (MAX_HEAL_ATTEMPTS + 1)) sql [] None w0
| loop_head_next attempt rest current_sql heal_log last w result w1 corrected_sql w2 :
    loop_head agent sql w0 (attempt :: rest) current_sql heal_log last w ->
    mysql_execute_query current_sql w = (Ok result, w1) ->
    QueryResult.success result = false ->
    attempt <> MAX_HEAL_ATTEMPTS ->
    _heal_sql agent current_sql (error_text result) w1 = (Ok corrected_sql, w2) ->
    no_correction corrected_sql current_sql = false ->
    loop_head agent sql w0 rest (default EmptyString corrected_sql)
      (heal_log ++ [HealAttempt.mk (attempt + 1) current_sql (error_text result)
                      (default EmptyString corrected_sql) false 0])
      (Some result) w2.

(** The corrected query the healer draws from the model's answer. *)
Definition healer_answer (response : option string) : option string :=
  match response with
  | Some healer_response => _extract_sql healer_response
  | None => None
  end.

Definition unsuccessful (a : HealAttempt.t) : Prop := HealAttempt.success a = false.

(** The sequence number up to which a thread is summarized: that of its
    stored summary, and 0 when it has none. *)
Definition stored_up_to (s : Store) (thread_id : string) : Z :=
  match dbma_conversation_summary s !! thread_id with
  | Some e => Summary.summarized_up_to_seq e
  | None => 0%Z
  end.

(** The number of messages of a thread beyond what its summary covers. *)
Definition unsummarized_count (s : Store) (thread_id : string) : nat :=
  length (filter (fun m => in_thread thread_id m = true
                           /\ (stored_up_to s thread_id < ChatMessage.sequence_no m)%Z)
                 (dbma_messages s)).

(** The data model's invariant on turns: within a thread no two messages
    share a sequence number. *)
Definition distinct_sequence_numbers (s : Store) (thread_id : string) : Prop :=
  NoDup (ChatMessage.sequence_no <$>
           filter (fun m => in_thread thread_id m = true) (dbma_messages s)).

(** ** Notions for the further properties *)

(** The queries sent to the engine, in order. *)
Fixpoint executed_queries (t : list Event) : list string :=
  match t with
  | [] => []
  | EvExecute sql _ :: t' => sql :: executed_queries t'
  | EvLLM _ _ :: t' => executed_queries t'
  end.

(** Number of calls of the model in a trace. *)
Fixpoint llm_calls (t : list Event) : nat :=
  match t with
  | [] => 0
  | EvExecute _ _ :: t' => llm_calls t'
  | EvLLM _ _ :: t' => S (llm_calls t')
  end.

(** A lowercase hexadecimal digit. *)
Definition is_hex_digit (c : ascii) : bool :=
  let n := nat_of_ascii c in
  ((48 <=? n) && (n <=? 57)) || ((97 <=? n) && (n <=? 102)).

(** A logged correction that is a real one: not empty, and not the failing
    query again once both are trimmed. *)
Definition is_correction (a : HealAttempt.t) : Prop :=
  HealAttempt.corrected_sql a <> EmptyString
  /\ PyStr.strip (HealAttempt.corrected_sql a) <> PyStr.strip (HealAttempt.original_sql a).

(** A text made of lowercase hexadecimal digits only. *)
Fixpoint all_hex (s : string) : bool :=
  match s with
  | EmptyString => true
  | String c s' => is_hex_digit c && all_hex s'
  end.

(** * Properties *)

(** ** Checks of the primitives on examples *)

Example strip_ex : PyStr.strip "  SELECT  1 ;  " = "SELECT  1 ;".
Proof. reflexivity. Qed.

Example split_ex :
  PyStr.split "  drop   table `t`  " = ["drop"; "table"; "`t`"].
Proof. reflexivity. Qed.

Example split_blank_ex : PyStr.split "   " = [].
Proof. reflexivity. Qed.

Example upper_ex : PyStr.upper "Delete from t1" = "DELETE FROM T1".
Proof. reflexivity. Qed.

Example splitlines_ex :
  PyStrMore.splitlines
    (String "a" (String "013" (String "010" (String "b" (String "010" EmptyString)))))
  = ["a"; "b"].
Proof. reflexivity. Qed.

Example extract_sql_tagged :
  _extract_sql ("Fixed the column name." ++ nl ++ "```sql" ++ nl
                ++ "SELECT `id` FROM `orders`;" ++ nl ++ "```" ++ nl)
  = Some "SELECT `id` FROM `orders`;".
Proof. vm_compute. reflexivity. Qed.

Example extract_sql_think :
  _extract_sql ("<think>maybe DROP TABLE t</think>" ++ "```SQL  select 1 ```")
  = Some "select 1".
Proof. vm_compute. reflexivity. Qed.

Example extract_sql_plain_block :
  _extract_sql ("```" ++ nl ++ "show tables" ++ nl ++ "```") = Some "show tables".
Proof. vm_compute. reflexivity. Qed.

Example extract_sql_paragraph :
  _extract_sql ("Try this:" ++ nl ++ "SELECT 1" ++ nl ++ "  FROM dual" ++ nl ++ nl ++ "Bye")
  = Some ("SELECT 1" ++ nl ++ "  FROM dual;")%string.
Proof. vm_compute. reflexivity. Qed.

Example extract_sql_none : _extract_sql "I cannot fix this query." = None.
Proof. vm_compute. reflexivity. Qed.

Example extract_sql_empty : _extract_sql "" = None.
Proof. vm_compute. reflexivity. Qed.

Example extract_tagged_ex :
  _extract_tagged_line ("```sql" ++ nl ++ "DROP TABLE t" ++ nl ++ "```" ++ nl
                        ++ "VALIDATOR_NOTES: ok" ++ nl ++ "risk_level :  High  ")
                       "RISK_LEVEL"
  = Some "High".
Proof. vm_compute. reflexivity. Qed.

Example extract_tagged_none :
  _extract_tagged_line "VALIDATOR_NOTES: ok" "RISK_LEVEL" = None.
Proof. vm_compute. reflexivity. Qed.

Example clean_response_ex :
  _clean_response_text ("Here you go." ++ nl ++ nl ++ "```sql" ++ nl ++ "SELECT 1" ++ nl
                        ++ "```" ++ nl ++ nl ++ nl ++ "Done.")
  = ("Here you go." ++ nl ++ nl ++ "Done.")%string.
Proof. vm_compute. reflexivity. Qed.

Example extract_tagged_blank :
  _extract_tagged_line ("RISK_LEVEL:  " ++ nl) "RISK_LEVEL" = Some "".
Proof. vm_compute. reflexivity. Qed.

Example infer_risk_ex1 : _infer_risk_level "  drop table t" = Ok "HIGH".
Proof. reflexivity. Qed.

Example infer_risk_ex3 : _infer_risk_level "SELECT 1" = Ok "LOW".
Proof. reflexivity. Qed.

Example is_destructive_ex1 : _is_destructive (Some "update t set a = 1") = Ok true.
Proof. reflexivity. Qed.

Example slice_last_ex : slice_last 2 [1; 2; 3] = [2; 3] /\ slice_last 5 [1; 2; 3] = [1; 2; 3].
Proof. split; reflexivity. Qed.

Example sha256_constants :
  nth 0 SHA256.K 0%N = 0x428a2f98%N /\ nth 63 SHA256.K 0%N = 0xc67178f2%N
  /\ nth 0 SHA256.H0 0%N = 0x6a09e667%N /\ nth 7 SHA256.H0 0%N = 0x5be0cd19%N
  /\ length SHA256.K = 64 /\ length SHA256.H0 = 8.
Proof. repeat split. Qed.

Example sha256_abc :
  SHA256.hexdigest (SHA256.encode "abc")
  = "ba7816bf8f01cfea414140de5dae2223b00361a396177a9cb410ff61f20015ad".
Proof. vm_compute. reflexivity. Qed.

Example sha256_empty :
  SHA256.hexdigest (SHA256.encode "")
  = "e3b0c44298fc1c149afbf4c8996fb92427ae41e4649b934ca495991b7852b855".
Proof. vm_compute. reflexivity. Qed.

Example sha256_two_blocks :
  SHA256.hexdigest (SHA256.encode "abcdbcdecdefdefgefghfghighijhijkijkljklmklmnlmnomnopnopq")
  = "248d6a61d20638b8e5c026930c3e6039a33ce45964ff2167f6ecedd419db06c1".
Proof. vm_compute. reflexivity. Qed.

Example generate_thread_id_ex :
  generate_thread_id "db.internal" "svc" "orders_db"
  = "thread_5e6892e28eb3b3578ae9ab95ad3746a3".
Proof. vm_compute. reflexivity. Qed.

(** ** The leading verb *)

Lemma split_lstrip (s : string) : PyStr.split (PyStr.lstrip s) = PyStr.split s.
Proof.
  induction s as [|c s IH]; [reflexivity|].
  cbn [PyStr.lstrip PyStr.split].
  destruct (PyStr.isspace c) eqn:Hc; [exact IH|].
  cbn [PyStr.split]. rewrite Hc. reflexivity.
Qed.

Lemma rstrip_cons_head (c x : ascii) (s r : string) :
  PyStr.rstrip (String c s) = String x r -> x = c.
Proof.
  cbn [PyStr.rstrip].
  destruct (PyStr.isspace c && String.eqb (PyStr.rstrip s) EmptyString);
    [discriminate | congruence].
Qed.

Lemma split_cons_nonspace (c : ascii) (u : string) :
  PyStr.isspace c = false ->
  PyStr.split (String c u) =
  match u with
  | EmptyString => [String c EmptyString]
  | String c' _ =>
      if PyStr.isspace c' then String c EmptyString :: PyStr.split u
      else match PyStr.split u with
           | w :: ws => String c w :: ws
           | [] => [String c EmptyString]
           end
  end.
Proof. intros Hc. cbn [PyStr.split]. rewrite Hc. destruct u; reflexivity. Qed.

Lemma split_rstrip (s : string) : PyStr.split (PyStr.rstrip s) = PyStr.split s.
Proof.
  induction s as [|c s IH]; [reflexivity|].
  cbn [PyStr.rstrip].
  destruct (PyStr.isspace c) eqn:Hc; cbn [andb].
  - destruct (String.eqb (PyStr.rstrip s) EmptyString) eqn:Hr.
    + apply String.eqb_eq in Hr. rewrite Hr in IH.
      cbn [PyStr.split]. rewrite Hc. exact IH.
    + cbn [PyStr.split]. rewrite Hc. exact IH.
  - rewrite !split_cons_nonspace by exact Hc.
    destruct s as [|c' s']; [reflexivity|].
    destruct (PyStr.rstrip (String c' s')) as [|x r] eqn:Er.
    + rewrite <- IH. cbn [PyStr.split]. destruct (PyStr.isspace c'); reflexivity.
    + apply rstrip_cons_head in Er as Hx. subst x. rewrite IH. reflexivity.
Qed.

Lemma split_strip (s : string) : PyStr.split (PyStr.strip s) = PyStr.split s.
Proof. unfold PyStr.strip. rewrite split_rstrip. apply split_lstrip. Qed.

Lemma head_split (s : string) : head (PyStr.split s) = first_token s.
Proof.
  unfold first_token.
  induction s as [|c s IH]; [reflexivity|].
  cbn [PyStr.split PyStr.lstrip].
  destruct (PyStr.isspace c) eqn:Hc; [exact IH|].
  cbn [leading_word]. rewrite Hc.
  destruct s as [|c' s']; [reflexivity|].
  destruct (PyStr.isspace c') eqn:Hc'.
  - cbn [leading_word]. rewrite Hc'. reflexivity.
  - cbn [PyStr.lstrip] in IH. rewrite Hc' in IH.
    destruct (PyStr.split (String c' s')) as [|w ws]; [discriminate|].
    cbn [head] in IH. injection IH as ->. reflexivity.
Qed.

(** The word the two classifiers look at is the first token, uppercased. *)
Lemma first_word_upper_spec (sql : string) :
  first_word_upper sql =
  match first_token sql with
  | Some tok => Ok (PyStr.upper tok)
  | None => Raise IndexError
  end.
Proof.
  unfold first_word_upper. rewrite split_strip, <- head_split.
  destruct (PyStr.split sql); reflexivity.
Qed.

Lemma mem_In (x : string) (ks : list string) : PyStr.mem x ks = true <-> In x ks.
Proof.
  unfold PyStr.mem. rewrite existsb_exists. split.
  - intros (k & Hk & Heq). apply String.eqb_eq in Heq. subst. exact Hk.
  - intros Hin. exists x. split; [exact Hin | apply String.eqb_refl].
Qed.

Lemma first_token_nonempty (s tok : string) : first_token s = Some tok -> s <> EmptyString.
Proof. intros H ->. discriminate H. Qed.

Lemma truthy_true (s : string) : PyStr.truthy s = true <-> s <> EmptyString.
Proof.
  unfold PyStr.truthy. rewrite negb_true_iff. split.
  - intros H ->. discriminate H.
  - intros H. apply String.eqb_neq. exact H.
Qed.

(** ** Destructive queries and confirmation *)

Lemma is_destructive_spec (s : string) :
  _is_destructive (Some s) =
  match first_token s with
  | Some tok => Ok (PyStr.mem (PyStr.upper tok) ["DELETE"; "DROP"; "TRUNCATE"; "UPDATE"])
  | None => if PyStr.truthy s then Raise IndexError else Ok false
  end.
Proof.
  unfold _is_destructive. change (default EmptyString (Some s)) with s.
  cbn [PyStr.truthy_opt]. rewrite first_word_upper_spec.
  destruct (first_token s) as [tok|] eqn:Htok.
  - apply first_token_nonempty, truthy_true in Htok. rewrite Htok. reflexivity.
  - destruct (PyStr.truthy s); reflexivity.
Qed.

Lemma infer_risk_level_spec (s tok : string) :
  first_token s = Some tok ->
  _infer_risk_level s =
  Ok (if PyStr.mem (PyStr.upper tok) ["DELETE"; "DROP"; "TRUNCATE"] then "HIGH"
      else if PyStr.mem (PyStr.upper tok) ["UPDATE"; "INSERT"; "ALTER"; "CREATE"]
           then "MEDIUM" else "LOW").
Proof.
  intros Htok. unfold _infer_risk_level. rewrite first_word_upper_spec, Htok.
  apply first_token_nonempty, truthy_true in Htok. rewrite Htok. cbn [negb].
  destruct (PyStr.mem (PyStr.upper tok) ["DELETE"; "DROP"; "TRUNCATE"]); [reflexivity|].
  destruct (PyStr.mem (PyStr.upper tok) ["UPDATE"; "INSERT"; "ALTER"; "CREATE"]);
    reflexivity.
Qed.

(** The response of a chat turn carries the verdict of [_is_destructive] on
    the query it carries. *)
Lemma chat_inner_response_confirmation agent intent llm_response_text w response w' :
  _chat_inner_response agent intent llm_response_text w = (Ok response, w') ->
  _is_destructive (AgentResponse.sql_query response)
  = Ok (AgentResponse.requires_confirmation response).
Proof.
  unfold _chat_inner_response.
  unfold OPTIMIZER_ENABLED. rewrite andb_false_r. cbn [andb].
  unfold bind, ret, lift.
  destruct (_is_destructive (_extract_sql llm_response_text)) as [b|e] eqn:Hd;
    intros H; inversion H; subst; cbn; exact Hd.
Qed.

(** C10. [_is_destructive] answers true exactly for a non-empty query whose
    first whitespace-separated token, uppercased, is DELETE, DROP, TRUNCATE
    or UPDATE; hence a chat response whose query has the leading verb
    UPDATE requires confirmation, while the risk fallback rates that query
    MEDIUM. *)
Theorem is_destructive_iff_leading_verb :
  (forall sql : option string,
     _is_destructive sql = Ok true <->
     exists s tok,
       sql = Some s /\ s <> EmptyString /\ first_token s = Some tok /\
       In (PyStr.upper tok) ["DELETE"; "DROP"; "TRUNCATE"; "UPDATE"])
  /\
  (forall agent intent llm_response_text w response w' s tok,
     _chat_inner_response agent intent llm_response_text w = (Ok response, w') ->
     AgentResponse.sql_query response = Some s ->
     first_token s = Some tok ->
     PyStr.upper tok = "UPDATE" ->
     AgentResponse.requires_confirmation response = true
     /\ _infer_risk_level s = Ok "MEDIUM").
Proof.
  split.
  - intros [s|].
    + rewrite is_destructive_spec. split.
      * destruct (first_token s) as [tok|] eqn:Htok.
        -- intros [= Hmem]. exists s, tok.
           repeat split; [eapply first_token_nonempty; eassumption | | apply mem_In, Hmem].
           exact Htok.
        -- destruct (PyStr.truthy s); discriminate.
      * intros (s0 & tok & [= <-] & _ & Htok & Hin).
        rewrite Htok. f_equal. apply mem_In, Hin.
    + split; [discriminate | intros (s0 & tok & Hs & _); discriminate].
  - intros agent intent text w response w' s tok Hrun Hsql Htok Hup.
    apply chat_inner_response_confirmation in Hrun.
    rewrite Hsql, is_destructive_spec, Htok, Hup in Hrun.
    split.
    + injection Hrun as <-. reflexivity.
    + rewrite (infer_risk_level_spec _ _ Htok), Hup. reflexivity.
Qed.

(** ** The optimizer pipeline *)

Lemma infer_risk_level_range (s level : string) :
  _infer_risk_level s = Ok level ->
  PyStr.upper (PyStr.strip level) = level
  /\ PyStr.mem level ["LOW"; "MEDIUM"; "HIGH"] = true.
Proof.
  unfold _infer_risk_level.
  destruct (negb (PyStr.truthy s)); [intros [= <-]; split; reflexivity|].
  destruct (first_word_upper s) as [first|]; [|discriminate].
  destruct (PyStr.mem first ["DELETE"; "DROP"; "TRUNCATE"]);
    [intros [= <-]; split; reflexivity|].
  destruct (PyStr.mem first ["UPDATE"; "INSERT"; "ALTER"; "CREATE"]);
    intros [= <-]; split; reflexivity.
Qed.

(** What a completed run of the pipeline did and reported. *)
Lemma run_optimizer_pipeline_inv agent original_sql w report w' :
  _run_optimizer_pipeline agent original_sql w = (Ok report, w') ->
  exists p1 r1 p2 r2,
    trace w' = trace w ++ [EvLLM p1 (Some r1); EvLLM p2 (Some r2)]
    /\ OptimizerReport.original_sql report = original_sql
    /\ OptimizerReport.final_sql report
       = PyStr.or_else (_extract_sql r2) (PyStr.or_else (_extract_sql r1) original_sql)
    /\ OptimizerReport.was_modified report
       = sql_was_modified (OptimizerReport.final_sql report) original_sql
    /\ (states_risk_level r2 = false ->
        _infer_risk_level (OptimizerReport.final_sql report)
        = Ok (OptimizerReport.risk_level report)).
Proof.
  unfold _run_optimizer_pipeline, bind, _invoke_sub_agent, llm_call, lift, ret.
  set (sch := Re.prefix 1500 _).
  destruct (llm_invoke (llm w) _) as [[r1|] o1] eqn:H1; [|discriminate].
  cbn [mysql llm pg pg_faults trace].
  destruct (llm_invoke o1 _) as [[r2|] o2] eqn:H2; [|discriminate].
  cbn [mysql llm pg pg_faults trace].
  set (final := PyStr.or_else (_extract_sql r2) (PyStr.or_else (_extract_sql r1) original_sql)).
  assert (Hdone : forall level,
    (states_risk_level r2 = false -> _infer_risk_level final = Ok level) ->
    forall on vn o' tr q1 q2,
      tr = (trace w ++ [EvLLM q1 (Some r1)]) ++ [EvLLM q2 (Some r2)] ->
      (Ok (OptimizerReport.mk original_sql (PyStr.or_else (_extract_sql r1) original_sql)
             final on vn level (sql_was_modified final original_sql)),
       mkWorld (mysql w) o' (pg w) (pg_faults w) tr) = (Ok report, w') ->
      exists p1 r1' p2 r2',
        trace w' = trace w ++ [EvLLM p1 (Some r1'); EvLLM p2 (Some r2')]
        /\ OptimizerReport.original_sql report = original_sql
        /\ OptimizerReport.final_sql report
           = PyStr.or_else (_extract_sql r2') (PyStr.or_else (_extract_sql r1') original_sql)
        /\ OptimizerReport.was_modified report
           = sql_was_modified (OptimizerReport.final_sql report) original_sql
        /\ (states_risk_level r2' = false ->
            _infer_risk_level (OptimizerReport.final_sql report)
            = Ok (OptimizerReport.risk_level report))).
  { intros level Hlevel on vn o' tr q1 q2 -> [= <- <-].
    do 4 eexists.
    cbn [trace OptimizerReport.original_sql OptimizerReport.final_sql
         OptimizerReport.was_modified OptimizerReport.risk_level].
    rewrite <- app_assoc. repeat split. exact Hlevel. }
  unfold states_risk_level in Hdone.
  destruct (_extract_tagged_line r2 "RISK_LEVEL") as [stated|] eqn:Hstated.
  - cbn [PyStr.truthy_opt].
    destruct (PyStr.truthy stated) eqn:Htruthy.
    + change (default EmptyString (Some stated)) with stated.
      destruct (PyStr.mem (PyStr.upper (PyStr.strip stated)) ["LOW"; "MEDIUM"; "HIGH"])
        eqn:Hmem; cbn [negb].
      * eapply Hdone; [discriminate | reflexivity].
      * destruct (_infer_risk_level final) as [level|] eqn:Hinfer; [|discriminate].
        eapply Hdone; [intros _; reflexivity | reflexivity].
    + destruct (_infer_risk_level final) as [level|] eqn:Hinfer; [|discriminate].
      destruct (infer_risk_level_range _ _ Hinfer) as [-> ->]. cbn [negb].
      eapply Hdone; [intros _; reflexivity | reflexivity].
  - cbn [PyStr.truthy_opt].
    destruct (_infer_risk_level final) as [level|] eqn:Hinfer; [|discriminate].
    destruct (infer_risk_level_range _ _ Hinfer) as [-> ->]. cbn [negb].
    eapply Hdone; [intros _; reflexivity | reflexivity].
Qed.

(** C8. When the validator's answer states no risk level, or none of the
    three recognized ones, the report's risk level is inferred from the
    leading verb of the final query, in any letter case: HIGH for delete,
    drop and truncate, MEDIUM for insert, update, alter and create, LOW for
    every other verb, the read-only ones among them. *)
Theorem risk_level_falls_back_to_leading_verb
    agent original_sql w report w' tr p validator_response tok :
  _run_optimizer_pipeline agent original_sql w = (Ok report, w') ->
  trace w' = tr ++ [EvLLM p (Some validator_response)] ->
  states_risk_level validator_response = false ->
  first_token (OptimizerReport.final_sql report) = Some tok ->
  (In (PyStr.upper tok) ["DELETE"; "DROP"; "TRUNCATE"] ->
   OptimizerReport.risk_level report = "HIGH")
  /\ (In (PyStr.upper tok) ["INSERT"; "UPDATE"; "ALTER"; "CREATE"] ->
      OptimizerReport.risk_level report = "MEDIUM")
  /\ (~ In (PyStr.upper tok)
          ["DELETE"; "DROP"; "TRUNCATE"; "INSERT"; "UPDATE"; "ALTER"; "CREATE"] ->
      OptimizerReport.risk_level report = "LOW").
Proof.
  intros Hrun Htrace Hstated Htok.
  destruct (run_optimizer_pipeline_inv _ _ _ _ _ Hrun)
    as (p1 & r1 & p2 & r2 & Htr & _ & _ & _ & Hrisk).
  rewrite Htr in Htrace.
  change [EvLLM p1 (Some r1); EvLLM p2 (Some r2)]
    with ([EvLLM p1 (Some r1)] ++ [EvLLM p2 (Some r2)]) in Htrace.
  rewrite app_assoc in Htrace.
  apply app_inj_tail in Htrace as [_ [= _ <-]].
  specialize (Hrisk Hstated).
  rewrite (infer_risk_level_spec _ _ Htok) in Hrisk.
  apply (f_equal (fun o => match o with Ok x => x | Raise _ => EmptyString end)) in Hrisk.
  cbv beta iota in Hrisk. rewrite <- Hrisk.
  generalize (PyStr.upper tok). intros verb.
  repeat split.
  - intros Hin. apply mem_In in Hin. rewrite Hin. reflexivity.
  - intros Hin. cbn [In] in Hin.
    destruct Hin as [<-|[<-|[<-|[<-|[]]]]]; reflexivity.
  - intros Hnot.
    destruct (PyStr.mem verb ["DELETE"; "DROP"; "TRUNCATE"]) eqn:Hhigh.
    + apply mem_In in Hhigh. exfalso. apply Hnot. cbn [In] in Hhigh.
      destruct Hhigh as [<-|[<-|[<-|[]]]]; cbn [In]; auto 10.
    + destruct (PyStr.mem verb ["UPDATE"; "INSERT"; "ALTER"; "CREATE"])
        eqn:Hmed; [|reflexivity].
      apply mem_In in Hmed. exfalso. apply Hnot. cbn [In] in Hmed.
      destruct Hmed as [<-|[<-|[<-|[<-|[]]]]]; cbn [In]; auto 10.
Qed.

(** ** Comparison of texts up to case and outer whitespace *)

Lemma isspace_lower_char (c : ascii) :
  PyStr.isspace (PyStr.lower_char c) = PyStr.isspace c.
Proof. destruct c as [[] [] [] [] [] [] [] []]; reflexivity. Qed.

Lemma eq_ignoring_case_isspace (a b : ascii) :
  PyStr.lower_char a = PyStr.lower_char b -> PyStr.isspace a = PyStr.isspace b.
Proof.
  intros H. rewrite <- (isspace_lower_char a), <- (isspace_lower_char b), H.
  reflexivity.
Qed.

Lemma lower_eq_iff (s t : string) :
  PyStr.lower s = PyStr.lower t <-> eq_ignoring_case s t.
Proof.
  split.
  - revert t. induction s as [|a s IH]; intros [|b t] H; try discriminate H.
    + constructor.
    + cbn [PyStr.lower] in H. injection H as Hc Hs.
      constructor; [exact Hc | apply IH, Hs].
  - induction 1 as [|a b s t Hc _ IH]; [reflexivity|].
    cbn [PyStr.lower]. rewrite Hc, IH. reflexivity.
Qed.

Lemma eq_ignoring_case_refl (s : string) : eq_ignoring_case s s.
Proof. apply lower_eq_iff. reflexivity. Qed.

Lemma eq_ignoring_case_empty (s t : string) :
  eq_ignoring_case s t -> String.eqb s EmptyString = String.eqb t EmptyString.
Proof. destruct 1; reflexivity. Qed.

Lemma eq_ignoring_case_lstrip (s t : string) :
  eq_ignoring_case s t -> eq_ignoring_case (PyStr.lstrip s) (PyStr.lstrip t).
Proof.
  induction 1 as [|a b s t Hc Hst IH]; [constructor|].
  cbn [PyStr.lstrip]. rewrite (eq_ignoring_case_isspace _ _ Hc).
  destruct (PyStr.isspace b); [exact IH | constructor; assumption].
Qed.

Lemma eq_ignoring_case_rstrip (s t : string) :
  eq_ignoring_case s t -> eq_ignoring_case (PyStr.rstrip s) (PyStr.rstrip t).
Proof.
  induction 1 as [|a b s t Hc Hst IH]; [constructor|].
  cbn [PyStr.rstrip].
  rewrite (eq_ignoring_case_isspace _ _ Hc), (eq_ignoring_case_empty _ _ IH).
  destruct (PyStr.isspace b && String.eqb (PyStr.rstrip t) EmptyString);
    constructor; assumption.
Qed.

Lemma eq_ignoring_case_strip (s t : string) :
  eq_ignoring_case s t -> eq_ignoring_case (PyStr.strip s) (PyStr.strip t).
Proof. intros H. apply eq_ignoring_case_rstrip, eq_ignoring_case_lstrip, H. Qed.

Lemma lstrip_blank (l : string) : blank l = true -> PyStr.lstrip l = EmptyString.
Proof.
  induction l as [|c l IH]; [reflexivity|].
  cbn [blank PyStr.lstrip]. intros [Hc Hl]%andb_prop. rewrite Hc. apply IH, Hl.
Qed.

Lemma rstrip_blank (r : string) : blank r = true -> PyStr.rstrip r = EmptyString.
Proof.
  induction r as [|c r IH]; [reflexivity|].
  cbn [blank PyStr.rstrip]. intros [Hc Hr]%andb_prop. rewrite Hc, (IH Hr). reflexivity.
Qed.

Lemma append_cons (c : ascii) (s t : string) :
  (String c s ++ t)%string = String c (s ++ t)%string.
Proof. reflexivity. Qed.

Lemma append_nil (t : string) : (EmptyString ++ t)%string = t.
Proof. reflexivity. Qed.

Lemma lstrip_blank_app (l s : string) :
  blank l = true -> PyStr.lstrip (l ++ s) = PyStr.lstrip s.
Proof.
  induction l as [|c l IH]; [reflexivity|].
  cbn [blank]. intros [Hc Hl]%andb_prop.
  rewrite append_cons. cbn [PyStr.lstrip]. rewrite Hc. apply IH, Hl.
Qed.

Lemma rstrip_app_blank (s r : string) :
  blank r = true -> PyStr.rstrip (s ++ r) = PyStr.rstrip s.
Proof.
  intros Hr. induction s as [|c s IH]; [apply rstrip_blank, Hr|].
  rewrite append_cons. cbn [PyStr.rstrip]. rewrite IH. reflexivity.
Qed.

Lemma strip_app_blank (s r : string) :
  blank r = true -> PyStr.strip (s ++ r) = PyStr.strip s.
Proof.
  intros Hr. unfold PyStr.strip.
  induction s as [|c s IH].
  - rewrite append_nil, (lstrip_blank _ Hr). reflexivity.
  - rewrite append_cons. cbn [PyStr.lstrip].
    destruct (PyStr.isspace c); [exact IH|].
    rewrite <- append_cons. apply rstrip_app_blank, Hr.
Qed.

(** Whitespace around a text does not survive [strip]. *)
Lemma strip_padded (l s r : string) :
  blank l = true -> blank r = true -> PyStr.strip (l ++ s ++ r) = PyStr.strip s.
Proof.
  intros Hl Hr. unfold PyStr.strip at 1. rewrite (lstrip_blank_app _ _ Hl).
  apply strip_app_blank, Hr.
Qed.

Lemma sql_was_modified_false (final_sql original_sql : string) :
  sql_was_modified final_sql original_sql = false
  <-> eq_ignoring_case (PyStr.strip final_sql) (PyStr.strip original_sql).
Proof.
  unfold sql_was_modified. rewrite negb_false_iff, String.eqb_eq. apply lower_eq_iff.
Qed.

(** C9, amended. [was_modified] is true exactly when the final and the
    original query differ after their leading and trailing whitespace is
    removed and the case of letters is ignored; so two queries that differ
    only in letter case, or only in the whitespace around them, are
    reported as not modified. *)
Theorem was_modified_compares_trimmed_texts agent original_sql w report w' :
  _run_optimizer_pipeline agent original_sql w = (Ok report, w') ->
  (OptimizerReport.was_modified report = true <->
   ~ eq_ignoring_case (PyStr.strip (OptimizerReport.final_sql report))
                      (PyStr.strip original_sql))
  /\ (eq_ignoring_case (OptimizerReport.final_sql report) original_sql ->
      OptimizerReport.was_modified report = false)
  /\ (forall l r l' r' core,
        blank l = true -> blank r = true -> blank l' = true -> blank r' = true ->
        OptimizerReport.final_sql report = (l ++ core ++ r)%string ->
        original_sql = (l' ++ core ++ r')%string ->
        OptimizerReport.was_modified report = false).
Proof.
  intros Hrun.
  destruct (run_optimizer_pipeline_inv _ _ _ _ _ Hrun)
    as (p1 & r1 & p2 & r2 & _ & _ & _ & Hmod & _).
  rewrite Hmod. repeat split.
  - intros Htrue Heq. apply sql_was_modified_false in Heq. congruence.
  - intros Hneq. destruct (sql_was_modified _ _) eqn:Hm; [reflexivity|].
    exfalso. apply Hneq, sql_was_modified_false, Hm.
  - intros Heq. apply sql_was_modified_false, eq_ignoring_case_strip, Heq.
  - intros l r l' r' core Hl Hr Hl' Hr' -> ->.
    apply sql_was_modified_false.
    rewrite !strip_padded by assumption. apply eq_ignoring_case_refl.
Qed.

(** ** The self-healing loop *)

Lemma no_correction_unhelpful (corrected_sql : option string) (failing_sql : string) :
  no_correction corrected_sql failing_sql = true <-> unhelpful corrected_sql failing_sql.
Proof.
  unfold no_correction, unhelpful. rewrite orb_true_iff, negb_true_iff.
  destruct corrected_sql as [c|]; cbn [PyStr.truthy_opt].
  - change (default EmptyString (Some c)) with c.
    unfold PyStr.truthy. rewrite negb_false_iff, !String.eqb_eq. split.
    + intros [->|Heq]; [right; left; reflexivity|].
      right; right. exists c. split; [reflexivity | exact Heq].
    + intros [H|[[= ->]|(c' & [= <-] & Heq)]];
        [discriminate | left; reflexivity | right; exact Heq].
  - split; [left; reflexivity | left; reflexivity].
Qed.

Lemma engine_calls_execute (t : list Event) sql result :
  engine_calls (t ++ [EvExecute sql result]) = S (engine_calls t).
Proof. induction t as [|[] t IH]; cbn [app engine_calls]; congruence. Qed.

Lemma engine_calls_llm (t : list Event) prompt response :
  engine_calls (t ++ [EvLLM prompt response]) = engine_calls t.
Proof. induction t as [|[] t IH]; cbn [app engine_calls]; congruence. Qed.

(** An engine call always returns, and adds itself to the trace. *)
Lemma mysql_execute_query_spec (sql : string) (w : World E O) :
  exists result w1,
    mysql_execute_query sql w = (Ok result, w1)
    /\ result = (execute_query (mysql w) sql).1
    /\ trace w1 = trace w ++ [EvExecute sql result].
Proof.
  unfold mysql_execute_query.
  destruct (execute_query (mysql w) sql) as [result e'].
  exists result, (mkWorld e' (llm w) (pg w) (pg_faults w) (trace w ++ [EvExecute sql result])).
  repeat split.
Qed.

(** A healer call always returns, and makes one call of the model. *)
Lemma heal_sql_spec agent (failed_sql error_message : string) (w : World E O) :
  exists w2 prompt response,
    _heal_sql agent failed_sql error_message w = (Ok (healer_answer response), w2)
    /\ trace w2 = trace w ++ [EvLLM prompt response].
Proof.
  unfold _heal_sql, llm_call.
  destruct (llm_invoke (llm w) _) as [[response|] o'] eqn:Hllm.
  - do 2 eexists. exists (Some response). split; reflexivity.
  - do 2 eexists. exists None. split; reflexivity.
Qed.

Lemma seq_cons (a k : nat) : seq a (S k) = a :: seq (S a) k.
Proof. reflexivity. Qed.

(** One iteration of the retry loop. *)
Lemma heal_loop_cons agent attempt rest current_sql heal_log last w :
  heal_loop agent (attempt :: rest) current_sql heal_log last w =
  match mysql_execute_query current_sql w with
  | (Ok result, w1) =>
      if QueryResult.success result then
        if 0 <? attempt then
          match mark_last_healed heal_log (QueryResult.execution_ms result) with
          | Ok healed => (Ok (result, healed), w1)
          | Raise e => (Raise e, w1)
          end
        else (Ok (result, heal_log), w1)
      else if attempt =? MAX_HEAL_ATTEMPTS then (Ok (result, heal_log), w1)
      else
        match _heal_sql agent current_sql (error_text result) w1 with
        | (Ok corrected_sql, w2) =>
            if no_correction corrected_sql current_sql then (Ok (result, heal_log), w2)
            else
              heal_loop agent rest (default EmptyString corrected_sql)
                (heal_log ++ [HealAttempt.mk (attempt + 1) current_sql (error_text result)
                                (default EmptyString corrected_sql) false 0])
                (Some result) w2
        | (Raise e, w2) => (Raise e, w2)
        end
  | (Raise e, w1) => (Raise e, w1)
  end.
Proof.
  cbn [heal_loop]. unfold bind at 1.
  destruct (mysql_execute_query current_sql w) as [[result|e] w1]; [|reflexivity].
  destruct (QueryResult.success result).
  - destruct (0 <? attempt); [|reflexivity].
    unfold bind, lift, ret.
    destruct (mark_last_healed heal_log _); reflexivity.
  - destruct (attempt =? MAX_HEAL_ATTEMPTS); [reflexivity|].
    unfold bind at 1, error_text.
    destruct (_heal_sql agent current_sql _ w1) as [[corrected_sql|e] w2]; [|reflexivity].
    destruct (no_correction corrected_sql current_sql); reflexivity.
Qed.

(** With an engine that rejects every query the loop returns a failure
    after one engine call more than it logged corrections, and it logged
    fewer than [MAX_HEAL_ATTEMPTS] only if the healer's last correction was
    unhelpful. *)
Lemma heal_loop_engine_rejects agent :
  (forall e q, QueryResult.success (execute_query e q).1 = false) ->
  forall k a current_sql heal_log last w,
    a + k = MAX_HEAL_ATTEMPTS + 1 -> 1 <= k ->
    length heal_log = a -> Forall unsuccessful heal_log ->
    exists result heal_log' w',
      heal_loop agent (seq a k) current_sql heal_log last w = (Ok (result, heal_log'), w')
      /\ QueryResult.success result = false
      /\ length heal_log' <= MAX_HEAL_ATTEMPTS
      /\ engine_calls (trace w') + length heal_log
         = engine_calls (trace w) + S (length heal_log')
      /\ Forall unsuccessful heal_log'
      /\ (exists tr q after,
            trace w' = tr ++ EvExecute q result :: after /\ engine_calls after = 0)
      /\ (length heal_log' < MAX_HEAL_ATTEMPTS ->
          exists tr q r p response,
            trace w' = tr ++ [EvExecute q r; EvLLM p response]
            /\ unhelpful (healer_answer response) q).
Proof.
  intros Hrej k. induction k as [|k IH]; intros a current_sql heal_log last w Hak Hk Hlen Hall;
    [lia|].
  rewrite seq_cons, heal_loop_cons.
  destruct (mysql_execute_query_spec current_sql w) as (result & w1 & -> & Hres & Htr1).
  assert (Hfail : QueryResult.success result = false) by (rewrite Hres; apply Hrej).
  rewrite Hfail.
  destruct (Nat.eqb_spec a MAX_HEAL_ATTEMPTS) as [Ha|Ha].
  - (* the retry limit is hit *)
    exists result, heal_log, w1. rewrite Htr1, engine_calls_execute.
    repeat split; [exact Hfail | lia | lia | exact Hall | | lia].
    exists (trace w), current_sql, []. split; reflexivity.
  - destruct (heal_sql_spec agent current_sql (error_text result) w1)
      as (w2 & p & response & -> & Htr2).
    destruct (no_correction (healer_answer response) current_sql) eqn:Hno.
    + (* the healer could not help *)
      exists result, heal_log, w2.
      rewrite Htr2, Htr1, engine_calls_llm, engine_calls_execute.
      repeat split; [exact Hfail | lia | lia | exact Hall | |].
      * exists (trace w), current_sql, [EvLLM p response].
        split; [rewrite <- app_assoc; reflexivity | reflexivity].
      * intros _. exists (trace w), current_sql, result, p, response.
        split; [rewrite <- app_assoc; reflexivity | apply no_correction_unhelpful, Hno].
    + (* a correction is logged and tried *)
      edestruct (IH (S a) (default EmptyString (healer_answer response))
                    (heal_log ++ [HealAttempt.mk (a + 1) current_sql (error_text result)
                                    (default EmptyString (healer_answer response)) false 0])
                    (Some result) w2)
        as (result' & heal_log' & w' & Hrun & Hfail' & Hmax & Hcalls & Hall' & Hlast & Hshort).
      * lia.
      * unfold MAX_HEAL_ATTEMPTS in Hak, Ha. lia.
      * rewrite length_app. cbn [length]. lia.
      * apply Forall_app. split; [exact Hall | repeat constructor].
      * exists result', heal_log', w'. rewrite Hrun.
        rewrite length_app in Hcalls. cbn [length] in Hcalls.
        rewrite Htr2, Htr1, engine_calls_llm, engine_calls_execute in Hcalls.
        repeat split;
          [exact Hfail' | exact Hmax | lia | exact Hall' | exact Hlast | exact Hshort].
Qed.

(** C1, amended. With a database selected and an engine that fails every
    execution, [execute_with_healing] returns the last failing result after
    one engine call more than the heal log has entries, so after at most
    [MAX_HEAL_ATTEMPTS + 1] calls; the log has at most [MAX_HEAL_ATTEMPTS]
    entries, all unsuccessful, and it has fewer than [MAX_HEAL_ATTEMPTS]
    only when the run ended on a correction that was empty or equal, after
    trimming, to the query that had just failed. *)
Theorem healing_bounded_when_engine_rejects agent sql w :
  PyStr.truthy_opt (_current_database agent) = true ->
  (forall e q, QueryResult.success (execute_query e q).1 = false) ->
  exists result heal_log w',
    execute_with_healing agent sql w = (Ok (result, heal_log), w')
    /\ QueryResult.success result = false
    /\ length heal_log <= MAX_HEAL_ATTEMPTS
    /\ engine_calls (trace w') = engine_calls (trace w) + S (length heal_log)
    /\ Forall unsuccessful heal_log
    /\ (exists tr q after,
          trace w' = tr ++ EvExecute q result :: after /\ engine_calls after = 0)
    /\ (length heal_log < MAX_HEAL_ATTEMPTS ->
        exists tr q r p response,
          trace w' = tr ++ [EvExecute q r; EvLLM p response]
          /\ unhelpful (healer_answer response) q).
Proof.
  intros Hdb Hrej. unfold execute_with_healing. rewrite Hdb. cbn [negb].
  destruct (heal_loop_engine_rejects agent Hrej (MAX_HEAL_ATTEMPTS + 1) 0 sql [] None w)
    as (result & heal_log & w' & Hrun & Hfail & Hmax & Hcalls & Hall & Hlast & Hshort);
    [reflexivity | unfold MAX_HEAL_ATTEMPTS; lia | reflexivity | constructor |].
  exists result, heal_log, w'. cbn [length] in Hcalls.
  repeat split; [exact Hrun | exact Hfail | exact Hmax | lia | exact Hall
                 | exact Hlast | exact Hshort].
Qed.

(** At every loop head the run is the rest of the loop. *)
Lemma loop_head_run agent sql w0 attempts current_sql heal_log last w :
  loop_head agent sql w0 attempts current_sql heal_log last w ->
  execute_with_healing agent sql w0 = heal_loop agent attempts current_sql heal_log last w.
Proof.
  induction 1 as [Hdb | attempt rest current_sql heal_log last w result w1 corrected_sql w2
                          _ IH Hexec Hfail Hattempt Hheal Hno].
  - unfold execute_with_healing. rewrite Hdb. reflexivity.
  - rewrite IH, heal_loop_cons, Hexec, Hfail.
    apply Nat.eqb_neq in Hattempt. rewrite Hattempt, Hheal, Hno. reflexivity.
Qed.

(** C4. Whenever, in a run of [execute_with_healing], the healer answers a
    failed attempt with no text or with the failing query again (after
    trimming), the run ends there: it returns that failing result and the
    heal log as it stood before the healer was asked, and the engine is not
    called again. *)
Theorem healing_stops_on_unhelpful_correction
    agent sql w0 attempt rest current_sql heal_log last w result w1 corrected_sql w2 :
  loop_head agent sql w0 (attempt :: rest) current_sql heal_log last w ->
  mysql_execute_query current_sql w = (Ok result, w1) ->
  QueryResult.success result = false ->
  attempt <> MAX_HEAL_ATTEMPTS ->
  _heal_sql agent current_sql (error_text result) w1 = (Ok corrected_sql, w2) ->
  unhelpful corrected_sql current_sql ->
  execute_with_healing agent sql w0 = (Ok (result, heal_log), w2)
  /\ engine_calls (trace w2) = engine_calls (trace w1).
Proof.
  intros Hhead Hexec Hfail Hattempt Hheal Hno.
  apply no_correction_unhelpful in Hno.
  rewrite (loop_head_run _ _ _ _ _ _ _ _ Hhead), heal_loop_cons, Hexec, Hfail.
  apply Nat.eqb_neq in Hattempt. rewrite Hattempt, Hheal, Hno.
  split; [reflexivity|].
  destruct (heal_sql_spec agent current_sql (error_text result) w1)
    as (w2' & p & response & Hheal' & Htr).
  rewrite Hheal in Hheal'. injection Hheal' as _ <-.
  rewrite Htr. apply engine_calls_llm.
Qed.

(** C5, amended. When the initial query fails, the healer gives two
    successive usable corrections, the first corrected query fails too and
    the second succeeds, [execute_with_healing] returns that successful
    result with a heal log of two entries, of which only the second, the
    correction that was run last, is marked successful. *)
Theorem healing_marks_last_correction
    agent sql w r0 w1 c1 w2 r1 w3 c2 w4 r2 w5 :
  PyStr.truthy_opt (_current_database agent) = true ->
  mysql_execute_query sql w = (Ok r0, w1) -> QueryResult.success r0 = false ->
  _heal_sql agent sql (error_text r0) w1 = (Ok (Some c1), w2) ->
  ~ unhelpful (Some c1) sql ->
  mysql_execute_query c1 w2 = (Ok r1, w3) -> QueryResult.success r1 = false ->
  _heal_sql agent c1 (error_text r1) w3 = (Ok (Some c2), w4) ->
  ~ unhelpful (Some c2) c1 ->
  mysql_execute_query c2 w4 = (Ok r2, w5) -> QueryResult.success r2 = true ->
  execute_with_healing agent sql w
  = (Ok (r2, [HealAttempt.mk 1 sql (error_text r0) c1 false 0;
              HealAttempt.mk 2 c1 (error_text r1) c2 true (QueryResult.execution_ms r2)]),
     w5).
Proof.
  intros Hdb He0 Hf0 Hh1 Hu1 He1 Hf1 Hh2 Hu2 He2 Hs2.
  assert (Hn1 : no_correction (Some c1) sql = false).
  { destruct (no_correction (Some c1) sql) eqn:Hn; [|reflexivity].
    exfalso. apply Hu1, no_correction_unhelpful, Hn. }
  assert (Hn2 : no_correction (Some c2) c1 = false).
  { destruct (no_correction (Some c2) c1) eqn:Hn; [|reflexivity].
    exfalso. apply Hu2, no_correction_unhelpful, Hn. }
  unfold execute_with_healing. rewrite Hdb. cbn [negb].
  change (seq 0 (MAX_HEAL_ATTEMPTS + 1)) with [0; 1; 2; 3].
  rewrite heal_loop_cons, He0, Hf0. cbn [Nat.eqb MAX_HEAL_ATTEMPTS]. rewrite Hh1, Hn1.
  change (default EmptyString (Some c1)) with c1.
  rewrite heal_loop_cons, He1, Hf1. cbn [Nat.eqb MAX_HEAL_ATTEMPTS]. rewrite Hh2, Hn2.
  change (default EmptyString (Some c2)) with c2.
  rewrite heal_loop_cons, He2, Hs2. reflexivity.
Qed.

(** ** The store *)

(** A call of the store never raises: it yields the fallback or the body's
    answer. *)
Lemma pg_call_ok {A} (fallback : A) (body : Store -> A * Store) (w : World E O) :
  exists a w',
    pg_call fallback body w = (Ok a, w') /\ (a = fallback \/ a = (body (pg w)).1).
Proof.
  unfold pg_call. destruct (pg_faults w) as [|[] faults].
  - destruct (body (pg w)) as [a s'] eqn:Hb. do 2 eexists. split; [reflexivity|]. right.
    reflexivity.
  - do 2 eexists. split; [reflexivity|]. left. reflexivity.
  - destruct (body (pg w)) as [a s'] eqn:Hb. do 2 eexists. split; [reflexivity|]. right.
    reflexivity.
Qed.

(** Without faults a read of the store answers from the tables and leaves
    the world as it is. *)
Lemma pg_read_no_fault {A} (fallback : A) (read : Store -> A) (w : World E O) :
  pg_faults w = [] ->
  pg_call fallback (fun s => (read s, s)) w = (Ok (read (pg w)), w).
Proof. intros Hf. unfold pg_call. rewrite Hf. destruct w. cbn in Hf. rewrite Hf. reflexivity. Qed.

Lemma length_order_by_seq_asc (l : list ChatMessage.t) :
  length (order_by_seq_asc l) = length l.
Proof. unfold order_by_seq_asc. apply Permutation_length, merge_sort_Permutation. Qed.

Lemma length_select_recent_messages (s : Store) (thread_id : string) (n : nat) :
  length (select_recent_messages s thread_id n) <= n.
Proof.
  unfold select_recent_messages. rewrite length_order_by_seq_asc, length_take. lia.
Qed.

Lemma length_format_history_for_llm (messages : list ChatMessage.t) :
  length (format_history_for_llm messages) <= length messages.
Proof.
  induction messages as [|msg rest IH]; [reflexivity|].
  cbn [format_history_for_llm length].
  destruct (PyStr.truthy _); cbn [length]; lia.
Qed.

Lemma length_slice_last {A} (n : nat) (l : list A) : length (slice_last n l) <= n.
Proof. unfold slice_last. rewrite length_drop. lia. Qed.

Lemma get_recent_messages_ok (thread_id : string) (n : nat) (w : World E O) :
  exists l w', get_recent_messages thread_id n w = (Ok l, w') /\ length l <= n.
Proof.
  unfold get_recent_messages.
  destruct (pg_call_ok [] (fun s => (select_recent_messages s thread_id n, s)) w)
    as (l & w' & Hcall & Hl).
  exists l, w'. split; [exact Hcall|]. destruct Hl as [->| ->].
  - cbn [length]. lia.
  - apply length_select_recent_messages.
Qed.

(** ** The rolling context *)

(** C7. Whatever the partition holds, with or without a summary and
    whether or not the store answers, [_build_rolling_context] returns a
    context with at most [RECENT_MESSAGES_COUNT] recent turns. *)
Theorem rolling_context_window_capped (thread_id : string) (w : World E O) :
  exists context w',
    _build_rolling_context thread_id w = (Ok context, w')
    /\ length (recent_formatted context) <= RECENT_MESSAGES_COUNT.
Proof.
  unfold _build_rolling_context, try_except, bind, ret, load_conversation_summary,
    get_messages_after_seq.
  destruct (pg_call_ok None (fun s => (dbma_conversation_summary s !! thread_id, s)) w)
    as (existing & w1 & -> & _).
  destruct existing as [e|].
  - destruct (pg_call_ok []
                (fun s => (select_messages_after s thread_id (Summary.summarized_up_to_seq e), s))
                w1) as (unsummarized & w2 & -> & _).
    do 2 eexists. split; [reflexivity|]. cbn [recent_formatted].
    etransitivity; [apply length_format_history_for_llm|].
    destruct (Nat.ltb_spec RECENT_MESSAGES_COUNT (length unsummarized)).
    + apply length_slice_last.
    + assumption.
  - destruct (get_recent_messages_ok thread_id RECENT_MESSAGES_COUNT w1)
      as (unsummarized & w2 & -> & Hlen).
    do 2 eexists. split; [reflexivity|]. cbn [recent_formatted].
    etransitivity; [apply length_format_history_for_llm|].
    destruct (Nat.ltb_spec RECENT_MESSAGES_COUNT (length unsummarized)); [lia | assumption].
Qed.

(** ** Folding old turns into the summary *)

Lemma sorted_around (pre post : list ChatMessage.t) (x : ChatMessage.t) :
  StronglySorted seq_le (pre ++ x :: post) ->
  Forall (fun m => seq_le m x) pre /\ Forall (fun m => seq_le x m) post.
Proof.
  induction pre as [|a pre IH]; cbn [app]; intros Hs.
  - apply StronglySorted_inv in Hs as [_ Hx]. split; [constructor | exact Hx].
  - apply StronglySorted_inv in Hs as [Hs Ha].
    destruct (IH Hs) as [Hpre Hpost]. split; [|exact Hpost].
    constructor; [|exact Hpre].
    rewrite Forall_app, Forall_cons in Ha. destruct Ha as [_ [Hax _]]. exact Hax.
Qed.

(** In a list sorted by distinct sequence numbers, the messages after a
    given one are exactly those with a greater sequence number. *)
Lemma filter_after_sorted (pre post : list ChatMessage.t) (x : ChatMessage.t) :
  StronglySorted seq_le (pre ++ x :: post) ->
  NoDup (ChatMessage.sequence_no <$> (pre ++ x :: post)) ->
  filter (fun m => (ChatMessage.sequence_no x < ChatMessage.sequence_no m)%Z)
         (pre ++ x :: post) = post.
Proof.
  intros Hs Hnd. destruct (sorted_around _ _ _ Hs) as [Hpre Hpost].
  rewrite fmap_app, fmap_cons in Hnd.
  apply NoDup_app in Hnd as (_ & _ & Hnd). apply NoDup_cons in Hnd as [Hx _].
  rewrite filter_app, filter_cons_False by lia.
  assert (Hpre' : filter (fun m => (ChatMessage.sequence_no x < ChatMessage.sequence_no m)%Z)
                         pre = []).
  { clear -Hpre. induction Hpre as [|a pre Ha _ IH]; [reflexivity|].
    unfold seq_le in Ha. rewrite filter_cons_False by lia. exact IH. }
  rewrite Hpre'. cbn [app].
  clear -Hpost Hx. induction Hpost as [|a post Ha _ IH]; [reflexivity|].
  rewrite fmap_cons, not_elem_of_cons in Hx. destruct Hx as [Hne Hx].
  unfold seq_le in Ha. rewrite filter_cons_True by lia. rewrite (IH Hx). reflexivity.
Qed.

Global Instance seq_le_total : Total seq_le.
Proof. intros a b. unfold seq_le. lia. Qed.

Global Instance seq_le_trans : Transitive seq_le.
Proof. intros a b c. unfold seq_le. lia. Qed.

Lemma select_messages_after_perm (s : Store) (thread_id : string) (after_seq : Z) :
  select_messages_after s thread_id after_seq
  ≡ₚ filter (fun m => in_thread thread_id m = true
                      /\ (after_seq < ChatMessage.sequence_no m)%Z) (dbma_messages s).
Proof. apply merge_sort_Permutation. Qed.

Lemma select_messages_after_sorted (s : Store) (thread_id : string) (after_seq : Z) :
  StronglySorted seq_le (select_messages_after s thread_id after_seq).
Proof. apply StronglySorted_merge_sort; apply _. Qed.

Lemma select_messages_after_distinct (s : Store) (thread_id : string) (after_seq : Z) :
  distinct_sequence_numbers s thread_id ->
  NoDup (ChatMessage.sequence_no <$> select_messages_after s thread_id after_seq).
Proof.
  unfold distinct_sequence_numbers. intros Hnd.
  rewrite select_messages_after_perm.
  eapply sublist_NoDup; [exact Hnd|]. apply fmap_sublist.
  rewrite <- (list_filter_filter_l
                (fun m => in_thread thread_id m = true
                          /\ (after_seq < ChatMessage.sequence_no m)%Z)
                (fun m => in_thread thread_id m = true)) by (intros m [? ?]; assumption).
  apply sublist_filter.
Qed.

Lemma length_select_messages_after (s : Store) (thread_id : string) :
  length (select_messages_after s thread_id (stored_up_to s thread_id))
  = unsummarized_count s thread_id.
Proof. unfold unsummarized_count. apply Permutation_length, select_messages_after_perm. Qed.

(** The summarizer never raises and does not touch the store. *)
Lemma summarize_messages_ok existing_summary new_messages (w : World E O) :
  exists text w',
    _summarize_messages existing_summary new_messages w = (Ok text, w')
    /\ pg w' = pg w /\ pg_faults w' = pg_faults w.
Proof.
  unfold _summarize_messages, try_except, bind, _invoke_llm, llm_call, ret.
  destruct (llm_invoke (llm w) _) as [[response|] o']; do 2 eexists; repeat split.
Qed.

(** C2. In a partition whose messages have distinct sequence numbers and
    whose store answers, [update_summary_if_needed] does nothing when at
    most [RECENT_MESSAGES_COUNT] messages lie beyond the stored
    [summarized_up_to_seq]; when more do, exactly [RECENT_MESSAGES_COUNT]
    messages lie beyond the new [summarized_up_to_seq] afterwards.  In both
    cases [summarized_up_to_seq] does not decrease, so it is non-decreasing
    across repeated folds. *)
Theorem fold_keeps_recent_window (thread_id : string) (w : World E O) :
  pg_faults w = [] ->
  distinct_sequence_numbers (pg w) thread_id ->
  exists w',
    update_summary_if_needed thread_id w = (Ok tt, w')
    /\ dbma_messages (pg w') = dbma_messages (pg w)
    /\ (stored_up_to (pg w) thread_id <= stored_up_to (pg w') thread_id)%Z
    /\ (unsummarized_count (pg w) thread_id <= RECENT_MESSAGES_COUNT -> w' = w)
    /\ (RECENT_MESSAGES_COUNT < unsummarized_count (pg w) thread_id ->
        unsummarized_count (pg w') thread_id = RECENT_MESSAGES_COUNT).
Proof.
  intros Hf Hnd.
  unfold update_summary_if_needed, try_except.
  unfold bind at 1, load_conversation_summary. rewrite pg_read_no_fault by exact Hf.
  unfold bind at 1, get_messages_after_seq. rewrite pg_read_no_fault by exact Hf.
  change (match dbma_conversation_summary (pg w) !! thread_id with
          | Some e => Summary.summarized_up_to_seq e
          | None => 0%Z
          end) with (stored_up_to (pg w) thread_id).
  pose proof (length_select_messages_after (pg w) thread_id) as Hcount.
  pose proof (select_messages_after_sorted (pg w) thread_id (stored_up_to (pg w) thread_id))
    as Hsorted.
  pose proof (select_messages_after_distinct (pg w) thread_id
                (stored_up_to (pg w) thread_id) Hnd) as Hdistinct.
  pose proof (select_messages_after_perm (pg w) thread_id (stored_up_to (pg w) thread_id))
    as Hperm.
  set (unsummarized := select_messages_after (pg w) thread_id (stored_up_to (pg w) thread_id))
    in Hcount, Hsorted, Hdistinct, Hperm |- *.
  destruct (Nat.leb_spec (length unsummarized) RECENT_MESSAGES_COUNT) as [Hle|Hgt].
  - (* nothing to fold *)
    exists w. unfold ret. repeat split; [lia | lia].
  - set (to_fold := slice_but_last RECENT_MESSAGES_COUNT unsummarized).
    destruct (summarize_messages_ok
                (match dbma_conversation_summary (pg w) !! thread_id with
                 | Some e => Summary.summary_text e
                 | None => EmptyString
                 end) to_fold w) as (text & w1 & Hsum & Hpg & Hfaults).
    unfold bind at 1. rewrite Hsum.
    (* the newest folded message sits just before the kept window *)
    assert (Hk : unsummarized !! (length unsummarized - RECENT_MESSAGES_COUNT - 1)
                 = last to_fold).
    { unfold to_fold, slice_but_last. rewrite last_lookup, length_take_le by lia.
      rewrite lookup_take_lt by lia. f_equal. lia. }
    destruct (lookup_lt_is_Some_2 unsummarized
                (length unsummarized - RECENT_MESSAGES_COUNT - 1)) as [newest Hnewest];
      [lia|].
    rewrite <- Hk, Hnewest.
    unfold bind, save_conversation_summary, pg_call, ret. rewrite Hfaults, Hf.
    eexists. split; [reflexivity|].
    cbn [pg dbma_messages]. rewrite Hpg.
    assert (Hnew : forall msgs sessions summaries count,
              stored_up_to
                (mkStore sessions msgs
                   (<[thread_id := Summary.mk text (ChatMessage.sequence_no newest) count]>
                      summaries)) thread_id
              = ChatMessage.sequence_no newest).
    { intros. unfold stored_up_to. cbn [dbma_conversation_summary].
      rewrite lookup_insert_eq. reflexivity. }
    assert (Hafter : (stored_up_to (pg w) thread_id < ChatMessage.sequence_no newest)%Z).
    { assert (Hin : newest ∈ unsummarized) by (eapply list_elem_of_lookup_2, Hnewest).
      rewrite Hperm in Hin. apply list_elem_of_filter in Hin.
      destruct Hin as [[_ Hlt] _]. exact Hlt. }
    repeat split.
    + rewrite Hnew. lia.
    + intros Hsmall. rewrite <- Hcount in Hsmall. lia.
    + intros _. unfold unsummarized_count. rewrite Hnew. cbn [dbma_messages].
      rewrite (list_filter_iff _
                 (fun m => (ChatMessage.sequence_no newest < ChatMessage.sequence_no m)%Z
                           /\ (in_thread thread_id m = true
                               /\ (stored_up_to (pg w) thread_id
                                   < ChatMessage.sequence_no m)%Z)))
        by (intros m; split; [intros [? ?] | intros [? [? ?]]]; repeat split;
            solve [assumption | lia]).
      rewrite <- list_filter_filter, <- Hperm.
      apply take_drop_middle in Hnewest.
      rewrite <- Hnewest in Hsorted, Hdistinct |- * at 1.
      rewrite (filter_after_sorted _ _ _ Hsorted Hdistinct), length_drop. lia.
Qed.

(** ** The session registry *)

(** C6. The thread identifier is a function of the host, the user and the
    database alone: ["thread_"] followed by the first 32 hexadecimal digits
    of the SHA-256 of ["host::user::database"].  [get_or_create_session]
    returns this identifier, for the host and user it is given or else the
    configured ones, in every world; in particular when the upsert fails,
    in which case the store is left as it was. *)
Theorem session_thread_id_survives_store_outage
    (mysql_config : MySQLConfig.t) (database_name : string) (host user : option string) :
  generate_thread_id (PyStr.or_else host (MySQLConfig.host mysql_config))
                     (PyStr.or_else user (MySQLConfig.user mysql_config)) database_name
  = ("thread_" ++
     Re.prefix 32
       (SHA256.hexdigest
          (SHA256.encode
             (PyStr.or_else host (MySQLConfig.host mysql_config) ++ "::"
              ++ PyStr.or_else user (MySQLConfig.user mysql_config) ++ "::"
              ++ database_name))))%string
  /\ (forall w : World E O, exists w',
        get_or_create_session mysql_config database_name host user w
        = (Ok (generate_thread_id (PyStr.or_else host (MySQLConfig.host mysql_config))
                                  (PyStr.or_else user (MySQLConfig.user mysql_config))
                                  database_name), w'))
  /\ (forall e o s faults tr,
        get_or_create_session mysql_config database_name host user
          (mkWorld e o s (true :: faults) tr)
        = (Ok (generate_thread_id (PyStr.or_else host (MySQLConfig.host mysql_config))
                                  (PyStr.or_else user (MySQLConfig.user mysql_config))
                                  database_name),
           mkWorld e o s faults tr)).
Proof.
  split; [reflexivity|]. split.
  - intros w. unfold get_or_create_session, pg_call.
    destruct (pg_faults w) as [|[] faults]; eexists; reflexivity.
  - intros e o s faults tr. reflexivity.
Qed.

(** ** Further properties of the orchestration layer *)

Lemma mark_last_healed_ok (heal_log : list HealAttempt.t) (ms : Z) :
  heal_log <> [] ->
  exists healed,
    mark_last_healed heal_log ms = Ok healed /\ length healed = length heal_log.
Proof.
  intros Hne. unfold mark_last_healed.
  destruct (last heal_log) as [a|] eqn:Hlast.
  - apply last_Some in Hlast as [l' ->]. eexists. split; [reflexivity|].
    rewrite removelast_last, !length_app. reflexivity.
  - apply last_None in Hlast. contradiction.
Qed.

Lemma heal_loop_total agent :
  forall k a current_sql heal_log last w,
    a + k = MAX_HEAL_ATTEMPTS + 1 -> 1 <= k -> length heal_log = a ->
    exists result heal_log' w',
      heal_loop agent (seq a k) current_sql heal_log last w = (Ok (result, heal_log'), w')
      /\ length heal_log' <= MAX_HEAL_ATTEMPTS
      /\ engine_calls (trace w') <= engine_calls (trace w) + k.
Proof.
  intros k. induction k as [|k IH]; intros a current_sql heal_log last w Hak Hk Hlen; [lia|].
  rewrite seq_cons, heal_loop_cons.
  destruct (mysql_execute_query_spec current_sql w) as (result & w1 & -> & _ & Htr1).
  destruct (QueryResult.success result).
  - destruct (Nat.ltb_spec 0 a) as [Hpos|Hzero].
    + destruct (mark_last_healed_ok heal_log (QueryResult.execution_ms result))
        as (healed & -> & Hhealed).
      { intros ->. cbn [length] in Hlen. lia. }
      do 3 eexists. split; [reflexivity|].
      rewrite Hhealed, Htr1, engine_calls_execute. lia.
    + do 3 eexists. split; [reflexivity|]. rewrite Htr1, engine_calls_execute. lia.
  - destruct (Nat.eqb_spec a MAX_HEAL_ATTEMPTS) as [Ha|Ha].
    + do 3 eexists. split; [reflexivity|]. rewrite Htr1, engine_calls_execute. lia.
    + destruct (heal_sql_spec agent current_sql (error_text result) w1)
        as (w2 & p & response & -> & Htr2).
      destruct (no_correction (healer_answer response) current_sql).
      * do 3 eexists. split; [reflexivity|].
        rewrite Htr2, Htr1, engine_calls_llm, engine_calls_execute. lia.
      * edestruct (IH (S a) (default EmptyString (healer_answer response))
                      (heal_log ++ [HealAttempt.mk (a + 1) current_sql (error_text result)
                                      (default EmptyString (healer_answer response)) false 0])
                      (Some result) w2)
          as (result' & heal_log' & w' & Hrun & Hmax & Hcalls).
        -- lia.
        -- unfold MAX_HEAL_ATTEMPTS in Hak, Ha. lia.
        -- rewrite length_app. cbn [length]. lia.
        -- exists result', heal_log', w'. rewrite Hrun.
           rewrite Htr2, Htr1, engine_calls_llm, engine_calls_execute in Hcalls.
           repeat split; [exact Hmax | lia].
Qed.

(** X1. Every run of [execute_with_healing], whatever the engine and the
    healer answer, returns a result and a heal log without raising, after
    at most [MAX_HEAL_ATTEMPTS + 1] engine calls and with at most
    [MAX_HEAL_ATTEMPTS] log entries. *)
Theorem healing_always_bounded agent sql w :
  exists result heal_log w',
    execute_with_healing agent sql w = (Ok (result, heal_log), w')
    /\ length heal_log <= MAX_HEAL_ATTEMPTS
    /\ engine_calls (trace w') <= engine_calls (trace w) + (MAX_HEAL_ATTEMPTS + 1).
Proof.
  unfold execute_with_healing.
  destruct (negb (PyStr.truthy_opt (_current_database agent))).
  - do 3 eexists. split; [reflexivity|]. cbn [length]. lia.
  - apply heal_loop_total; [reflexivity | unfold MAX_HEAL_ATTEMPTS; lia | reflexivity].
Qed.

(** X2. [_build_rolling_context] reads the store only: it calls neither
    the model nor the engine, and leaves the tables as they are. *)
Theorem rolling_context_reads_store_only (thread_id : string) (w : World E O) :
  exists context w',
    _build_rolling_context thread_id w = (Ok context, w')
    /\ trace w' = trace w /\ llm w' = llm w /\ mysql w' = mysql w /\ pg w' = pg w.
Proof.
  assert (Hread : forall {A} (fallback : A) (read : Store -> A) (w0 : World E O),
            exists a w1, pg_call fallback (fun s => (read s, s)) w0 = (Ok a, w1)
                         /\ trace w1 = trace w0 /\ llm w1 = llm w0
                         /\ mysql w1 = mysql w0 /\ pg w1 = pg w0).
  { intros A fallback read w0. unfold pg_call.
    destruct (pg_faults w0) as [|[] faults]; do 2 eexists; repeat split. }
  unfold _build_rolling_context, try_except, bind, ret, load_conversation_summary,
    get_messages_after_seq, get_recent_messages.
  destruct (Hread _ None (fun s => dbma_conversation_summary s !! thread_id) w)
    as (existing & w1 & -> & Ht1 & Hl1 & Hm1 & Hp1).
  destruct existing as [e|].
  - destruct (Hread _ [] (fun s => select_messages_after s thread_id
                                     (Summary.summarized_up_to_seq e)) w1)
      as (u & w2 & -> & Ht2 & Hl2 & Hm2 & Hp2).
    do 2 eexists. split; [reflexivity|]. repeat split; congruence.
  - destruct (Hread _ [] (fun s => select_recent_messages s thread_id RECENT_MESSAGES_COUNT)
                w1) as (u & w2 & -> & Ht2 & Hl2 & Hm2 & Hp2).
    do 2 eexists. split; [reflexivity|]. repeat split; congruence.
Qed.

(** ** What [_extract_sql] returns *)

Lemma first_token_strip (s : string) : first_token (PyStr.strip s) = first_token s.
Proof. rewrite <- !head_split, split_strip. reflexivity. Qed.

Lemma first_token_blank (s : string) : first_token s = None <-> blank s = true.
Proof.
  unfold first_token. induction s as [|c s IH]; cbn [PyStr.lstrip blank].
  - split; reflexivity.
  - destruct (PyStr.isspace c); cbn [andb]; [exact IH|]. split; discriminate.
Qed.

Lemma strip_nonempty_token (s : string) :
  PyStr.strip s <> EmptyString -> exists tok, first_token s = Some tok.
Proof.
  intros Hs. destruct (first_token s) as [tok|] eqn:Htok; [exists tok; reflexivity|].
  exfalso. apply Hs. apply first_token_blank, lstrip_blank in Htok.
  unfold PyStr.strip. rewrite Htok. reflexivity.
Qed.

Lemma first_token_app (s t tok : string) :
  first_token s = Some tok -> exists tok', first_token (s ++ t) = Some tok'.
Proof.
  unfold first_token. intros Hs.
  induction s as [|c s IH]; cbn [PyStr.lstrip] in Hs; [discriminate|].
  rewrite append_cons. cbn [PyStr.lstrip].
  destruct (PyStr.isspace c); [exact (IH Hs)|]. eexists. reflexivity.
Qed.

Lemma add_semicolon_token (s tok : string) :
  first_token s = Some tok -> exists tok', first_token (add_semicolon s) = Some tok'.
Proof.
  intros Hs. unfold add_semicolon.
  destruct (PyStrMore.endswith s ";"); [exists tok; exact Hs|].
  eapply first_token_app, Hs.
Qed.

Lemma starts_with_keyword_nonempty (s : string) :
  starts_with_keyword s = true -> s <> EmptyString.
Proof. intros H ->. vm_compute in H. discriminate H. Qed.

Lemma two_words_token (s : string) :
  (2 <=? length (PyStr.split s)) = true -> exists tok, first_token s = Some tok.
Proof.
  rewrite <- head_split. destruct (PyStr.split s) as [|w ws]; [discriminate|].
  intros _. exists w. reflexivity.
Qed.

Lemma first_sql_line_token (lines : list string) (q : string) :
  first_sql_line lines = Some q -> exists tok, first_token q = Some tok.
Proof.
  induction lines as [|line rest IH]; cbn [first_sql_line]; [discriminate|].
  destruct (starts_with_keyword (PyStr.strip line)
            && (2 <=? length (PyStr.split (PyStr.strip line)))) eqn:Hline; [|exact IH].
  apply andb_true_iff in Hline as [_ Hwords]. intros [= <-].
  destruct (two_words_token _ Hwords) as [tok Htok]. eapply add_semicolon_token, Htok.
Qed.

Lemma sql_from_tagged_block_token (text q : string) :
  sql_from_tagged_block text = Some q -> exists tok, first_token q = Some tok.
Proof.
  unfold sql_from_tagged_block. destruct (Re.search _ text) as [g|]; [|discriminate].
  destruct (PyStr.truthy (PyStr.strip g)) eqn:Hg; [|discriminate].
  intros [= <-]. rewrite first_token_strip.
  apply strip_nonempty_token, truthy_true, Hg.
Qed.

Lemma sql_from_plain_block_token (text q : string) :
  sql_from_plain_block text = Some q -> exists tok, first_token q = Some tok.
Proof.
  unfold sql_from_plain_block. destruct (Re.search _ text) as [g|]; [|discriminate].
  destruct (starts_with_keyword (PyStr.strip g)) eqn:Hg; [|discriminate].
  intros [= <-]. rewrite first_token_strip.
  apply strip_nonempty_token, starts_with_keyword_nonempty, Hg.
Qed.

Lemma sql_from_paragraph_token (text q : string) :
  sql_from_paragraph text = Some q -> exists tok, first_token q = Some tok.
Proof.
  unfold sql_from_paragraph. destruct (Re.search _ text) as [g|]; [|discriminate].
  destruct (2 <=? length (PyStr.split (PyStr.strip g))) eqn:Hg; [|discriminate].
  intros [= <-]. destruct (two_words_token _ Hg) as [tok Htok].
  eapply add_semicolon_token, Htok.
Qed.

Lemma or_first_Some (a b : option string) (q : string) :
  or_first a b = Some q -> a = Some q \/ b = Some q.
Proof. destruct a; cbn [or_first]; auto. Qed.

(** Whatever [_extract_sql] returns has a first word. *)
Lemma extract_sql_token (llm_response q : string) :
  _extract_sql llm_response = Some q -> exists tok, first_token q = Some tok.
Proof.
  unfold _extract_sql. intros H.
  apply or_first_Some in H as [H|H]; [eapply sql_from_tagged_block_token, H|].
  apply or_first_Some in H as [H|H]; [eapply sql_from_plain_block_token, H|].
  apply or_first_Some in H as [H|H]; [eapply sql_from_paragraph_token, H|].
  eapply first_sql_line_token, H.
Qed.

Lemma first_token_classified (s tok : string) :
  first_token s = Some tok ->
  (exists b, _is_destructive (Some s) = Ok b) /\ (exists level, _infer_risk_level s = Ok level).
Proof.
  intros Htok. split.
  - rewrite is_destructive_spec, Htok. eexists. reflexivity.
  - rewrite (infer_risk_level_spec _ _ Htok). eexists. reflexivity.
Qed.

(** X3. A query that [_extract_sql] finds in a model answer is never empty
    or blank: it has a first word, so neither [_is_destructive] nor
    [_infer_risk_level] raises on it. *)
Theorem extracted_sql_has_a_leading_verb (llm_response q : string) :
  _extract_sql llm_response = Some q ->
  (exists tok, first_token q = Some tok)
  /\ (exists b, _is_destructive (Some q) = Ok b)
  /\ (exists level, _infer_risk_level q = Ok level).
Proof.
  intros H. destruct (extract_sql_token _ _ H) as [tok Htok].
  split; [exists tok; exact Htok | exact (first_token_classified _ _ Htok)].
Qed.

Lemma has_sql_token (response : AgentResponse.t) :
  has_sql response = true <->
  exists sql tok, AgentResponse.sql_query response = Some sql /\ first_token sql = Some tok.
Proof.
  unfold has_sql. destruct (AgentResponse.sql_query response) as [sql|].
  - rewrite negb_true_iff, String.eqb_neq. split.
    + intros Hs. destruct (strip_nonempty_token _ Hs) as [tok Htok]. eauto.
    + intros (sql' & tok & [= <-] & Htok) Hs.
      rewrite <- first_token_strip, Hs in Htok. discriminate Htok.
  - split; [discriminate | intros (sql & tok & Hs & _); discriminate].
Qed.

(** X4. From any answer of the model, with the optimizer switched off as
    the source has it, steps 6 and 7 of [_chat_inner] build a response
    without raising and without calling the engine, the model or the
    store: its query is what [_extract_sql] found, [has_sql] holds exactly
    when a query was found, and confirmation is required only of a
    response that has a query. *)
Theorem chat_response_never_raises
    (agent : Agent) (intent : AgentIntent) (llm_response_text : string) (w : World E O) :
  exists response,
    _chat_inner_response agent intent llm_response_text w = (Ok response, w)
    /\ AgentResponse.sql_query response = _extract_sql llm_response_text
    /\ AgentResponse.natural_text response = _clean_response_text llm_response_text
    /\ AgentResponse.optimizer_report response = None
    /\ _is_destructive (AgentResponse.sql_query response)
       = Ok (AgentResponse.requires_confirmation response)
    /\ (has_sql response = true <-> AgentResponse.sql_query response <> None)
    /\ (AgentResponse.requires_confirmation response = true -> has_sql response = true).
Proof.
  unfold _chat_inner_response.
  unfold OPTIMIZER_ENABLED. rewrite andb_false_r. cbn [andb].
  unfold bind, ret, lift.
  assert (Hd : exists b, _is_destructive (_extract_sql llm_response_text) = Ok b).
  { destruct (_extract_sql llm_response_text) as [q|] eqn:Hq.
    - apply extract_sql_token in Hq as [tok Htok].
      apply (first_token_classified _ _ Htok).
    - exists false. reflexivity. }
  destruct Hd as [b Hb]. rewrite Hb.
  eexists. split; [reflexivity|].
  cbn [AgentResponse.sql_query AgentResponse.natural_text AgentResponse.optimizer_report
       AgentResponse.requires_confirmation].
  repeat split; [exact Hb | | |].
  - intros Hhas. apply has_sql_token in Hhas as (sql & tok & Hsql & _).
    cbn [AgentResponse.sql_query] in Hsql. rewrite Hsql. discriminate.
  - intros Hsome. apply has_sql_token. cbn [AgentResponse.sql_query].
    destruct (_extract_sql llm_response_text) as [q|] eqn:Hq; [|contradiction].
    apply extract_sql_token in Hq as [tok Htok]. exists q, tok. split; [reflexivity | exact Htok].
  - intros ->. apply has_sql_token. cbn [AgentResponse.sql_query].
    destruct (_extract_sql llm_response_text) as [q|] eqn:Hq; [|discriminate Hb].
    apply extract_sql_token in Hq as [tok Htok]. exists q, tok. split; [reflexivity | exact Htok].
Qed.

(** ** Where the two classifiers raise, and how they agree *)

Lemma first_word_upper_blank (s : string) :
  first_word_upper s = Raise IndexError <-> blank s = true.
Proof.
  rewrite first_word_upper_spec, <- first_token_blank.
  destruct (first_token s); split; congruence.
Qed.

(** X5. [_infer_risk_level] and [_is_destructive] raise on exactly one kind
    of input, a text that is not empty but holds only whitespace, and the
    exception is then an [IndexError]; on every other text, the empty one
    included, they return. *)
Theorem classifiers_raise_on_blank_text_only (s : string) (e : exn) :
  (_infer_risk_level s = Raise e <-> e = IndexError /\ s <> EmptyString /\ blank s = true)
  /\ (_is_destructive (Some s) = Raise e
      <-> e = IndexError /\ s <> EmptyString /\ blank s = true).
Proof.
  assert (Hinfer : _infer_risk_level s
                   = if PyStr.truthy s then
                       match first_token s with
                       | Some tok =>
                           Ok (if PyStr.mem (PyStr.upper tok) ["DELETE"; "DROP"; "TRUNCATE"]
                               then "HIGH"
                               else if PyStr.mem (PyStr.upper tok)
                                         ["UPDATE"; "INSERT"; "ALTER"; "CREATE"]
                                    then "MEDIUM" else "LOW")
                       | None => Raise IndexError
                       end
                     else Ok "LOW").
  { destruct (first_token s) as [tok|] eqn:Htok.
    - rewrite (infer_risk_level_spec _ _ Htok).
      apply first_token_nonempty, truthy_true in Htok. rewrite Htok. reflexivity.
    - unfold _infer_risk_level. rewrite first_word_upper_spec, Htok.
      destruct (PyStr.truthy s); reflexivity. }
  rewrite Hinfer, is_destructive_spec.
  destruct (PyStr.truthy s) eqn:Ht.
  - apply truthy_true in Ht.
    destruct (first_token s) as [tok|] eqn:Htok.
    + assert (Hb : blank s <> true) by (rewrite <- first_token_blank, Htok; discriminate).
      split; (split; [discriminate | intros (_ & _ & Habs); contradiction]).
    + apply first_token_blank in Htok.
      split; (split; [intros [= <-]; repeat split; assumption | intros (-> & _); reflexivity]).
  - assert (Hs : s = EmptyString).
    { destruct (String.eqb_spec s EmptyString) as [Heq|Hne]; [exact Heq|].
      apply truthy_true in Hne. congruence. }
    subst s. cbn [first_token PyStr.lstrip].
    split; (split; [discriminate | intros (_ & Habs & _); contradiction]).
Qed.

(** X6. The two classifiers agree in one direction: a query that
    [_infer_risk_level] rates HIGH is one for which [_is_destructive] asks
    for confirmation, and a query for which it asks is rated HIGH or
    MEDIUM, never LOW. *)
Theorem high_risk_requires_confirmation (s : string) :
  (_infer_risk_level s = Ok "HIGH" -> _is_destructive (Some s) = Ok true)
  /\ (_is_destructive (Some s) = Ok true ->
      _infer_risk_level s = Ok "HIGH" \/ _infer_risk_level s = Ok "MEDIUM").
Proof.
  rewrite is_destructive_spec.
  destruct (first_token s) as [tok|] eqn:Htok.
  - rewrite (infer_risk_level_spec _ _ Htok).
    generalize (PyStr.upper tok). intros verb.
    destruct (PyStr.mem verb ["DELETE"; "DROP"; "TRUNCATE"]) eqn:Hhigh.
    + split; [|left; reflexivity]. intros _. f_equal.
      apply mem_In in Hhigh. apply mem_In. cbn [In] in Hhigh |- *.
      destruct Hhigh as [H|[H|[H|[]]]]; auto.
    + destruct (PyStr.mem verb ["UPDATE"; "INSERT"; "ALTER"; "CREATE"]) eqn:Hmed.
      * split; [discriminate | right; reflexivity].
      * split; [discriminate|]. intros Hd. exfalso.
        apply (f_equal (fun o => match o with Ok b => b | Raise _ => false end)) in Hd.
        cbv beta iota in Hd. apply mem_In in Hd. cbn [In] in Hd.
        assert (Hnh : ~ In verb ["DELETE"; "DROP"; "TRUNCATE"])
          by (rewrite <- mem_In, Hhigh; discriminate).
        assert (Hnm : ~ In verb ["UPDATE"; "INSERT"; "ALTER"; "CREATE"])
          by (rewrite <- mem_In, Hmed; discriminate).
        cbn [In] in Hnh, Hnm.
        destruct Hd as [H|[H|[H|[H|[]]]]]; [apply Hnh | apply Hnh | apply Hnh | apply Hnm];
          auto.
  - unfold _infer_risk_level. rewrite first_word_upper_spec, Htok.
    destruct (PyStr.truthy s); cbn [negb]; split; discriminate.
Qed.

(** ** Outcomes of the optimizer pipeline *)

Lemma engine_calls_app (t u : list Event) :
  engine_calls (t ++ u) = engine_calls t + engine_calls u.
Proof. induction t as [|[] t IH]; cbn [app engine_calls]; lia. Qed.

Lemma llm_calls_app (t u : list Event) : llm_calls (t ++ u) = llm_calls t + llm_calls u.
Proof. induction t as [|[] t IH]; cbn [app llm_calls]; lia. Qed.

Lemma executed_queries_app (t u : list Event) :
  executed_queries (t ++ u) = executed_queries t ++ executed_queries u.
Proof. induction t as [|[] t IH]; cbn [app executed_queries]; congruence. Qed.

Lemma infer_risk_level_outcome (s : string) :
  (exists level, _infer_risk_level s = Ok level
                 /\ PyStr.mem level ["LOW"; "MEDIUM"; "HIGH"] = true)
  \/ (_infer_risk_level s = Raise IndexError /\ first_token s = None).
Proof.
  destruct (_infer_risk_level s) as [level|e] eqn:Hs.
  - left. exists level. split; [reflexivity|]. apply (infer_risk_level_range _ _ Hs).
  - right. revert Hs. unfold _infer_risk_level. rewrite first_word_upper_spec.
    destruct (negb (PyStr.truthy s)); [discriminate|].
    destruct (first_token s) as [tok|]; [|intros [= <-]; split; reflexivity].
    destruct (PyStr.mem (PyStr.upper tok) ["DELETE"; "DROP"; "TRUNCATE"]); [discriminate|].
    destruct (PyStr.mem (PyStr.upper tok) ["UPDATE"; "INSERT"; "ALTER"; "CREATE"]);
      discriminate.
Qed.

Lemma or_else_token (a : option string) (b : string) :
  (forall q, a = Some q -> exists tok, first_token q = Some tok) ->
  (exists tok, first_token b = Some tok) ->
  exists tok, first_token (PyStr.or_else a b) = Some tok.
Proof.
  intros Ha Hb. unfold PyStr.or_else. destruct a as [q|]; [|exact Hb].
  destruct (PyStr.truthy q); [apply Ha; reflexivity | exact Hb].
Qed.

(** The three ways a run of the pipeline can end: the optimizer's call
    raised, the validator's call raised, or both answered; in the last
    case the run fails only if the final query has no word to infer a risk
    level from. *)
Lemma run_optimizer_pipeline_cases agent original_sql (w : World E O) :
  exists outcome w',
    _run_optimizer_pipeline agent original_sql w = (outcome, w')
    /\ mysql w' = mysql w /\ pg w' = pg w /\ pg_faults w' = pg_faults w
    /\ ((exists p1, outcome = Raise LLMException /\ trace w' = trace w ++ [EvLLM p1 None])
        \/ (exists p1 r1 p2,
              outcome = Raise LLMException
              /\ trace w' = trace w ++ [EvLLM p1 (Some r1); EvLLM p2 None])
        \/ (exists p1 r1 p2 r2,
              trace w' = trace w ++ [EvLLM p1 (Some r1); EvLLM p2 (Some r2)]
              /\ ((exists report,
                     outcome = Ok report
                     /\ OptimizerReport.final_sql report
                        = PyStr.or_else (_extract_sql r2)
                            (PyStr.or_else (_extract_sql r1) original_sql)
                     /\ PyStr.mem (OptimizerReport.risk_level report)
                          ["LOW"; "MEDIUM"; "HIGH"] = true)
                  \/ (outcome = Raise IndexError
                      /\ first_token (PyStr.or_else (_extract_sql r2)
                                        (PyStr.or_else (_extract_sql r1) original_sql))
                         = None)))).
Proof.
  unfold _run_optimizer_pipeline, bind, _invoke_sub_agent, llm_call, lift, ret.
  set (sch := Re.prefix 1500 _).
  destruct (llm_invoke (llm w) _) as [[r1|] o1] eqn:H1.
  2: { do 2 eexists. split; [reflexivity|]. repeat split. left. eexists. split; reflexivity. }
  cbn [mysql llm pg pg_faults trace].
  destruct (llm_invoke o1 _) as [[r2|] o2] eqn:H2.
  2: { do 2 eexists. split; [reflexivity|]. repeat split. right; left.
       do 3 eexists. split; [reflexivity|]. cbn [trace]. rewrite <- app_assoc. reflexivity. }
  cbn [mysql llm pg pg_faults trace].
  set (final := PyStr.or_else (_extract_sql r2) (PyStr.or_else (_extract_sql r1) original_sql)).
  set (w2 := mkWorld (mysql w) o2 (pg w) (pg_faults w) _).
  assert (Hinferred :
    forall on vn,
    exists outcome w',
      match _infer_risk_level final with
      | Ok level =>
          (Ok (OptimizerReport.mk original_sql (PyStr.or_else (_extract_sql r1) original_sql)
                 final on vn level (sql_was_modified final original_sql)), w2)
      | Raise e => (Raise e, w2)
      end = (outcome, w')
      /\ mysql w' = mysql w /\ pg w' = pg w /\ pg_faults w' = pg_faults w
      /\ ((exists p1, outcome = Raise LLMException /\ trace w' = trace w ++ [EvLLM p1 None])
          \/ (exists p1 r1' p2,
                outcome = Raise LLMException
                /\ trace w' = trace w ++ [EvLLM p1 (Some r1'); EvLLM p2 None])
          \/ (exists p1 r1' p2 r2',
                trace w' = trace w ++ [EvLLM p1 (Some r1'); EvLLM p2 (Some r2')]
                /\ ((exists report,
                       outcome = Ok report
                       /\ OptimizerReport.final_sql report
                          = PyStr.or_else (_extract_sql r2')
                              (PyStr.or_else (_extract_sql r1') original_sql)
                       /\ PyStr.mem (OptimizerReport.risk_level report)
                            ["LOW"; "MEDIUM"; "HIGH"] = true)
                    \/ (outcome = Raise IndexError
                        /\ first_token (PyStr.or_else (_extract_sql r2')
                                          (PyStr.or_else (_extract_sql r1') original_sql))
                           = None))))).
  { intros on vn.
    destruct (infer_risk_level_outcome final) as [(level & -> & Hlevel)|[-> Hnone]];
      do 2 eexists; (split; [reflexivity|]); repeat split; right; right;
      do 4 eexists; (split; [unfold w2; cbn [trace]; rewrite <- app_assoc; reflexivity|]).
    - left. eexists. split; [reflexivity|]. split; [reflexivity | exact Hlevel].
    - right. split; [reflexivity | exact Hnone]. }
  destruct (_extract_tagged_line r2 "RISK_LEVEL") as [stated|] eqn:Hstated.
  - cbn [PyStr.truthy_opt].
    destruct (PyStr.truthy stated) eqn:Htruthy.
    + change (default EmptyString (Some stated)) with stated.
      destruct (PyStr.mem (PyStr.upper (PyStr.strip stated)) ["LOW"; "MEDIUM"; "HIGH"])
        eqn:Hmem; cbn [negb].
      * do 2 eexists. split; [reflexivity|]. repeat split. right; right.
        do 4 eexists. split; [unfold w2; cbn [trace]; rewrite <- app_assoc; reflexivity|].
        left. eexists. split; [reflexivity|]. split; [reflexivity | exact Hmem].
      * apply Hinferred.
    + destruct (infer_risk_level_outcome final) as [(level & Hinfer & Hlevel)|[Hinfer Hnone]].
      * rewrite Hinfer.
        destruct (infer_risk_level_range _ _ Hinfer) as [-> ->]. cbn [negb].
        specialize (Hinferred
          (PyStr.or_else (_extract_tagged_line r1 "OPTIMIZER_NOTES") "No changes needed")
          (PyStr.or_else (_extract_tagged_line r2 "VALIDATOR_NOTES")
             "Validated — no issues found")).
        rewrite Hinfer in Hinferred. exact Hinferred.
      * specialize (Hinferred EmptyString EmptyString).
        rewrite Hinfer in Hinferred |- *. exact Hinferred.
  - cbn [PyStr.truthy_opt].
    destruct (infer_risk_level_outcome final) as [(level & Hinfer & Hlevel)|[Hinfer Hnone]].
    + rewrite Hinfer.
      destruct (infer_risk_level_range _ _ Hinfer) as [-> ->]. cbn [negb].
      specialize (Hinferred
        (PyStr.or_else (_extract_tagged_line r1 "OPTIMIZER_NOTES") "No changes needed")
        (PyStr.or_else (_extract_tagged_line r2 "VALIDATOR_NOTES")
           "Validated — no issues found")).
      rewrite Hinfer in Hinferred. exact Hinferred.
    + specialize (Hinferred EmptyString EmptyString).
      rewrite Hinfer in Hinferred |- *. exact Hinferred.
Qed.

(** X7. A report of the optimizer pipeline always carries one of the three
    risk levels LOW, MEDIUM and HIGH, whatever the validator wrote; the run
    that produced it asked the model exactly twice, sent nothing to the
    engine and left the engine and the store as they were. *)
Theorem pipeline_reports_a_recognized_risk_level agent original_sql (w : World E O) report w' :
  _run_optimizer_pipeline agent original_sql w = (Ok report, w') ->
  In (OptimizerReport.risk_level report) ["LOW"; "MEDIUM"; "HIGH"]
  /\ llm_calls (trace w') = llm_calls (trace w) + 2
  /\ engine_calls (trace w') = engine_calls (trace w)
  /\ mysql w' = mysql w /\ pg w' = pg w.
Proof.
  intros Hrun.
  destruct (run_optimizer_pipeline_cases agent original_sql w)
    as (outcome & w1 & Hrun' & Hmysql & Hpg & _ & Hcases).
  rewrite Hrun in Hrun'. injection Hrun' as <- <-.
  destruct Hcases as [(p1 & Habs & _)|[(p1 & r1 & p2 & Habs & _)|
                      (p1 & r1 & p2 & r2 & Htr & Hend)]]; [discriminate Habs..|].
  destruct Hend as [(report' & [= <-] & _ & Hlevel)|[Habs _]]; [|discriminate Habs].
  rewrite Htr, llm_calls_app, engine_calls_app. cbn [llm_calls engine_calls].
  repeat split; [apply mem_In, Hlevel | lia | exact Hmysql | exact Hpg].
Qed.

(** X8. Given a query that has a first word, as every query found by
    [_extract_sql] has, the optimizer pipeline fails only with the model:
    it either returns a report whose final query again has a first word,
    or raises the model's exception, and the failed call of the model is
    then the last thing it did. *)
Theorem pipeline_fails_only_with_the_model agent original_sql tok (w : World E O) :
  first_token original_sql = Some tok ->
  exists w',
    ((exists report tok',
        _run_optimizer_pipeline agent original_sql w = (Ok report, w')
        /\ first_token (OptimizerReport.final_sql report) = Some tok')
     \/ (_run_optimizer_pipeline agent original_sql w = (Raise LLMException, w')
         /\ exists tr p, trace w' = tr ++ [EvLLM p None]))
    /\ engine_calls (trace w') = engine_calls (trace w)
    /\ pg w' = pg w.
Proof.
  intros Htok.
  assert (Hfinal : forall r1 r2, exists tok',
            first_token (PyStr.or_else (_extract_sql r2)
                           (PyStr.or_else (_extract_sql r1) original_sql)) = Some tok').
  { intros r1 r2. apply or_else_token; [intros q; apply extract_sql_token|].
    apply or_else_token; [intros q; apply extract_sql_token|]. exists tok. exact Htok. }
  destruct (run_optimizer_pipeline_cases agent original_sql w)
    as (outcome & w' & Hrun & _ & Hpg & _ & Hcases).
  exists w'. rewrite Hrun.
  destruct Hcases as [(p1 & -> & Htr)|[(p1 & r1 & p2 & -> & Htr)|
                      (p1 & r1 & p2 & r2 & Htr & Hend)]].
  - rewrite Htr, engine_calls_app. cbn [engine_calls].
    repeat split; [|lia | exact Hpg]. right. split; [reflexivity|]. do 2 eexists. reflexivity.
  - rewrite Htr, engine_calls_app. cbn [engine_calls].
    repeat split; [|lia | exact Hpg]. right. split; [reflexivity|].
    exists (trace w ++ [EvLLM p1 (Some r1)]), p2. rewrite <- app_assoc. reflexivity.
  - rewrite Htr, engine_calls_app. cbn [engine_calls].
    repeat split; [|lia | exact Hpg].
    destruct Hend as [(report & -> & Hsql & _)|[_ Hnone]].
    + left. destruct (Hfinal r1 r2) as [tok' Htok']. exists report, tok'.
      split; [reflexivity|]. rewrite Hsql. exact Htok'.
    + destruct (Hfinal r1 r2) as [tok' Htok']. congruence.
Qed.

(** ** The heal log as a record of the run *)

Lemma mysql_execute_query_frame (sql : string) (w : World E O) :
  exists result w1,
    mysql_execute_query sql w = (Ok result, w1)
    /\ trace w1 = trace w ++ [EvExecute sql result]
    /\ pg w1 = pg w /\ pg_faults w1 = pg_faults w /\ llm w1 = llm w.
Proof.
  unfold mysql_execute_query.
  destruct (execute_query (mysql w) sql) as [result e'].
  do 2 eexists. repeat split.
Qed.

Lemma heal_sql_frame agent (failed_sql error_message : string) (w : World E O) :
  exists w2 prompt response,
    _heal_sql agent failed_sql error_message w = (Ok (healer_answer response), w2)
    /\ trace w2 = trace w ++ [EvLLM prompt response]
    /\ pg w2 = pg w /\ pg_faults w2 = pg_faults w /\ mysql w2 = mysql w.
Proof.
  unfold _heal_sql, llm_call.
  destruct (llm_invoke (llm w) _) as [[response|] o'] eqn:Hllm.
  - do 2 eexists. exists (Some response). repeat split.
  - do 2 eexists. exists None. repeat split.
Qed.

Lemma mark_last_healed_snoc (l : list HealAttempt.t) (x : HealAttempt.t) (ms : Z) :
  mark_last_healed (l ++ [x]) ms
  = Ok (l ++ [HealAttempt.mk (HealAttempt.attempt_no x) (HealAttempt.original_sql x)
                (HealAttempt.error_message x) (HealAttempt.corrected_sql x) true ms]).
Proof. unfold mark_last_healed. rewrite last_snoc, removelast_last. reflexivity. Qed.

Lemma Forall_removelast {A} (P : A -> Prop) (l : list A) :
  Forall P l -> Forall P (removelast l).
Proof.
  destruct l as [|x l _] using rev_ind; [intros _; constructor|].
  rewrite removelast_last, Forall_app. intros [H _]. exact H.
Qed.

Lemma Forall_last {A} (P : A -> Prop) (l : list A) (x : A) :
  Forall P l -> last l = Some x -> P x.
Proof.
  intros Hall Hlast. apply last_Some in Hlast as [l' ->].
  apply Forall_app in Hall as [_ Hx]. apply Forall_inv in Hx. exact Hx.
Qed.

Lemma no_correction_false (corrected_sql : option string) (current_sql : string) :
  no_correction corrected_sql current_sql = false ->
  default EmptyString corrected_sql <> EmptyString
  /\ PyStr.strip (default EmptyString corrected_sql) <> PyStr.strip current_sql.
Proof.
  unfold no_correction. rewrite orb_false_iff, negb_false_iff. intros [Ht Hne].
  apply String.eqb_neq in Hne. split; [|exact Hne].
  destruct corrected_sql as [c|]; [|discriminate Ht].
  change (default EmptyString (Some c)) with c. apply truthy_true. exact Ht.
Qed.

(** What the rest of the retry loop adds to the heal log and to the trace:
    [news] are the corrections it adopts. *)
Lemma heal_loop_record agent :
  forall k a current_sql heal_log prev_result (w : World E O) result heal_log' w',
    a + k = MAX_HEAL_ATTEMPTS + 1 -> 1 <= k -> length heal_log = a ->
    Forall unsuccessful heal_log ->
    heal_loop agent (seq a k) current_sql heal_log prev_result w
    = (Ok (result, heal_log'), w') ->
    exists news,
      HealAttempt.attempt_no <$> heal_log'
      = (HealAttempt.attempt_no <$> heal_log) ++ seq (a + 1) (length news)
      /\ HealAttempt.original_sql <$> heal_log'
         = (HealAttempt.original_sql <$> heal_log) ++ take (length news) (current_sql :: news)
      /\ HealAttempt.corrected_sql <$> heal_log'
         = (HealAttempt.corrected_sql <$> heal_log) ++ news
      /\ (Forall is_correction heal_log -> Forall is_correction heal_log')
      /\ Forall unsuccessful (removelast heal_log')
      /\ (forall x, last heal_log' = Some x ->
                    HealAttempt.success x = QueryResult.success result)
      /\ executed_queries (trace w') = executed_queries (trace w) ++ current_sql :: news
      /\ llm_calls (trace w) + length news <= llm_calls (trace w')
      /\ llm_calls (trace w') <= llm_calls (trace w) + (k - 1)
      /\ pg w' = pg w /\ pg_faults w' = pg_faults w
      /\ (exists tr q after,
            trace w' = trace w ++ tr ++ EvExecute q result :: after
            /\ engine_calls after = 0).
Proof.
  intros k. induction k as [|k IH];
    intros a current_sql heal_log prev_result w result heal_log' w' Hak Hk Hlen Hall Hrun; [lia|].
  rewrite seq_cons, heal_loop_cons in Hrun.
  destruct (mysql_execute_query_frame current_sql w)
    as (r & w1 & Hexec & Htr1 & Hpg1 & Hf1 & _).
  rewrite Hexec in Hrun.
  assert (Hstop : forall w2 tail,
            trace w2 = trace w1 ++ tail -> engine_calls tail = 0 ->
            executed_queries tail = [] -> llm_calls tail <= k ->
            pg w2 = pg w1 -> pg_faults w2 = pg_faults w1 ->
            QueryResult.success r = false ->
            (Ok (r, heal_log), w2) = (Ok (result, heal_log'), w') ->
            exists news,
              HealAttempt.attempt_no <$> heal_log'
              = (HealAttempt.attempt_no <$> heal_log) ++ seq (a + 1) (length news)
              /\ HealAttempt.original_sql <$> heal_log'
                 = (HealAttempt.original_sql <$> heal_log)
                   ++ take (length news) (current_sql :: news)
              /\ HealAttempt.corrected_sql <$> heal_log'
                 = (HealAttempt.corrected_sql <$> heal_log) ++ news
              /\ (Forall is_correction heal_log -> Forall is_correction heal_log')
              /\ Forall unsuccessful (removelast heal_log')
              /\ (forall x, last heal_log' = Some x ->
                            HealAttempt.success x = QueryResult.success result)
              /\ executed_queries (trace w') = executed_queries (trace w) ++ current_sql :: news
              /\ llm_calls (trace w) + length news <= llm_calls (trace w')
              /\ llm_calls (trace w') <= llm_calls (trace w) + (S k - 1)
              /\ pg w' = pg w /\ pg_faults w' = pg_faults w
              /\ (exists tr q after,
                    trace w' = trace w ++ tr ++ EvExecute q result :: after
                    /\ engine_calls after = 0)).
  { intros w2 tail Htr2 Hcalls Hqueries Hllm Hpg2 Hf2 Hfail [= <- <- <-].
    exists []. cbn [length seq take]. rewrite !app_nil_r.
    rewrite Htr2, Htr1, !executed_queries_app, !llm_calls_app, Hqueries.
    cbn [executed_queries llm_calls]. rewrite app_nil_r.
    repeat split; [auto | apply Forall_removelast, Hall | | lia | lia | congruence
                   | congruence |].
    - intros x Hx. rewrite Hfail. apply (Forall_last _ _ _ Hall Hx).
    - exists [], current_sql, tail. split; [|exact Hcalls].
      rewrite <- app_assoc. reflexivity. }
  destruct (QueryResult.success r) eqn:Hsucc.
  - (* the query ran *)
    assert (Hdone : forall log1,
              HealAttempt.attempt_no <$> log1 = HealAttempt.attempt_no <$> heal_log ->
              HealAttempt.original_sql <$> log1 = HealAttempt.original_sql <$> heal_log ->
              HealAttempt.corrected_sql <$> log1 = HealAttempt.corrected_sql <$> heal_log ->
              (Forall is_correction heal_log -> Forall is_correction log1) ->
              Forall unsuccessful (removelast log1) ->
              (forall x, last log1 = Some x -> HealAttempt.success x = true) ->
              (Ok (r, log1), w1) = (Ok (result, heal_log'), w') ->
              exists news,
                HealAttempt.attempt_no <$> heal_log'
                = (HealAttempt.attempt_no <$> heal_log) ++ seq (a + 1) (length news)
                /\ HealAttempt.original_sql <$> heal_log'
                   = (HealAttempt.original_sql <$> heal_log)
                     ++ take (length news) (current_sql :: news)
                /\ HealAttempt.corrected_sql <$> heal_log'
                   = (HealAttempt.corrected_sql <$> heal_log) ++ news
                /\ (Forall is_correction heal_log -> Forall is_correction heal_log')
                /\ Forall unsuccessful (removelast heal_log')
                /\ (forall x, last heal_log' = Some x ->
                              HealAttempt.success x = QueryResult.success result)
                /\ executed_queries (trace w')
                   = executed_queries (trace w) ++ current_sql :: news
                /\ llm_calls (trace w) + length news <= llm_calls (trace w')
                /\ llm_calls (trace w') <= llm_calls (trace w) + (S k - 1)
                /\ pg w' = pg w /\ pg_faults w' = pg_faults w
                /\ (exists tr q after,
                      trace w' = trace w ++ tr ++ EvExecute q result :: after
                      /\ engine_calls after = 0)).
    { intros log1 Hno Horig Hcorr Hreal Hflags Hlast [= <- <- <-].
      exists []. cbn [length seq take]. rewrite !app_nil_r.
      rewrite Htr1, !executed_queries_app, !llm_calls_app.
      cbn [executed_queries llm_calls].
      repeat split; [exact Hno | exact Horig | exact Hcorr | exact Hreal | exact Hflags
                     | | lia | lia | exact Hpg1 | exact Hf1 |].
      - intros x Hx. rewrite Hsucc. apply Hlast, Hx.
      - exists [], current_sql, []. split; reflexivity. }
    destruct (Nat.ltb_spec 0 a) as [Hpos|Hzero].
    + destruct heal_log as [|x l _] using rev_ind; [cbn [length] in Hlen; lia|].
      rewrite mark_last_healed_snoc in Hrun. revert Hrun. apply Hdone.
      * rewrite !fmap_app. reflexivity.
      * rewrite !fmap_app. reflexivity.
      * rewrite !fmap_app. reflexivity.
      * rewrite !Forall_app. intros [Hl Hx]. split; [exact Hl|].
        apply Forall_inv in Hx. repeat constructor; apply Hx.
      * rewrite removelast_last. apply Forall_app in Hall as [Hl _]. exact Hl.
      * intros y. rewrite last_snoc. intros [= <-]. reflexivity.
    + assert (heal_log = []) as -> by (destruct heal_log; [reflexivity | cbn [length] in Hlen; lia]).
      revert Hrun. apply Hdone; try reflexivity; [auto | constructor | discriminate].
  - destruct (Nat.eqb_spec a MAX_HEAL_ATTEMPTS) as [Ha|Ha].
    + (* the retry limit is hit *)
      revert Hrun. apply (Hstop w1 []); try reflexivity; [rewrite app_nil_r; reflexivity | cbn [llm_calls]; lia].
    + destruct (heal_sql_frame agent current_sql (error_text r) w1)
        as (w2 & p & response & Hheal & Htr2 & Hpg2 & Hf2 & _).
      rewrite Hheal in Hrun.
      assert (Hk' : 1 <= k) by (unfold MAX_HEAL_ATTEMPTS in Hak, Ha; lia).
      destruct (no_correction (healer_answer response) current_sql) eqn:Hno.
      * (* the healer could not help *)
        revert Hrun. apply (Hstop w2 [EvLLM p response]); try reflexivity;
          [exact Htr2 | cbn [llm_calls]; lia | exact Hpg2 | exact Hf2].
      * (* a correction is logged and tried *)
        apply no_correction_false in Hno as [Hne Hdiff].
        set (c := default EmptyString (healer_answer response)) in Hrun, Hne, Hdiff.
        apply IH with (a := S a) in Hrun;
          [| lia | exact Hk' | rewrite length_app; cbn [length]; lia
           | apply Forall_app; split; [exact Hall | repeat constructor]].
        destruct Hrun as (news & Hno' & Horig & Hcorr & Hreal & Hflags & Hlast & Hq & Hl1
                          & Hl2 & Hpg & Hf & (tr & q & after & Htr & Hafter)).
        exists (c :: news). cbn [length take].
        rewrite Htr2, Htr1, !executed_queries_app in Hq.
        rewrite Htr2, Htr1, !llm_calls_app in Hl1, Hl2.
        cbn [executed_queries llm_calls] in Hq, Hl1, Hl2.
        rewrite app_nil_r, <- app_assoc in Hq.
        rewrite fmap_app in Hno'. rewrite fmap_app in Horig. rewrite fmap_app in Hcorr.
        cbn [fmap list_fmap] in Hno', Horig, Hcorr.
        cbn [HealAttempt.attempt_no HealAttempt.original_sql HealAttempt.corrected_sql]
          in Hno', Horig, Hcorr.
        rewrite <- app_assoc in Hno', Horig, Hcorr.
        repeat split.
        -- rewrite Hno'. reflexivity.
        -- rewrite Horig. reflexivity.
        -- rewrite Hcorr. reflexivity.
        -- intros Hlog. apply Hreal, Forall_app. split; [exact Hlog|].
           repeat constructor; assumption.
        -- exact Hflags.
        -- exact Hlast.
        -- rewrite Hq. reflexivity.
        -- lia.
        -- lia.
        -- congruence.
        -- congruence.
        -- exists ([EvExecute current_sql r; EvLLM p response] ++ tr), q, after.
           split; [|exact Hafter]. rewrite Htr, Htr2, Htr1, <- !app_assoc. reflexivity.
Qed.

(** X9. The heal log that [execute_with_healing] returns is a faithful
    record of the run: its entries are numbered 1, 2, ..., the first one
    corrects the query that was passed in and each later one the correction
    logged before it, every logged correction is non-empty and differs,
    after trimming, from the query it replaces, and only the last entry can
    be marked successful, which it is exactly when the returned result
    succeeded. *)
Theorem heal_log_records_the_run agent sql (w : World E O) result heal_log w' :
  execute_with_healing agent sql w = (Ok (result, heal_log), w') ->
  HealAttempt.attempt_no <$> heal_log = seq 1 (length heal_log)
  /\ HealAttempt.original_sql <$> heal_log
     = take (length heal_log) (sql :: (HealAttempt.corrected_sql <$> heal_log))
  /\ Forall is_correction heal_log
  /\ Forall unsuccessful (removelast heal_log)
  /\ (forall x, last heal_log = Some x ->
                HealAttempt.success x = QueryResult.success result).
Proof.
  unfold execute_with_healing.
  destruct (negb (PyStr.truthy_opt (_current_database agent))).
  - intros [= <- <- <-]. repeat split; [constructor | constructor | discriminate].
  - intros Hrun.
    apply heal_loop_record in Hrun;
      [| reflexivity | unfold MAX_HEAL_ATTEMPTS; lia | reflexivity | constructor].
    destruct Hrun as (news & Hno & Horig & Hcorr & Hreal & Hflags & Hlast & _).
    cbn [fmap list_fmap app] in Hno, Horig, Hcorr.
    assert (Hlen : length news = length heal_log)
      by (rewrite <- Hcorr, length_fmap; reflexivity).
    rewrite Hcorr, <- Hlen.
    repeat split; [exact Hno | exact Horig | apply Hreal; constructor | exact Hflags
                   | exact Hlast].
Qed.

(** X10. During a run of [execute_with_healing] the engine is sent the
    query that was passed in and then the logged corrections, in order, and
    nothing else (nothing at all when no database is selected); the
    returned result is the engine's answer to the last of them.  The model
    is asked at least once for every logged correction and at most
    [MAX_HEAL_ATTEMPTS] times, and the store is left as it was. *)
Theorem engine_runs_the_query_then_its_corrections
    agent sql (w : World E O) result heal_log w' :
  execute_with_healing agent sql w = (Ok (result, heal_log), w') ->
  executed_queries (trace w')
  = executed_queries (trace w)
    ++ (if PyStr.truthy_opt (_current_database agent)
        then sql :: (HealAttempt.corrected_sql <$> heal_log) else [])
  /\ llm_calls (trace w) + length heal_log <= llm_calls (trace w')
  /\ llm_calls (trace w') <= llm_calls (trace w) + MAX_HEAL_ATTEMPTS
  /\ pg w' = pg w
  /\ (PyStr.truthy_opt (_current_database agent) = true ->
      exists tr q after,
        trace w' = trace w ++ tr ++ EvExecute q result :: after
        /\ engine_calls after = 0).
Proof.
  unfold execute_with_healing.
  destruct (PyStr.truthy_opt (_current_database agent)); cbn [negb].
  - intros Hrun.
    apply heal_loop_record in Hrun;
      [| reflexivity | unfold MAX_HEAL_ATTEMPTS; lia | reflexivity | constructor].
    destruct Hrun as (news & _ & _ & Hcorr & _ & _ & _ & Hq & Hl1 & Hl2 & Hpg & _ & Hlast).
    cbn [fmap list_fmap app] in Hcorr.
    assert (Hlen : length news = length heal_log)
      by (rewrite <- Hcorr, length_fmap; reflexivity).
    rewrite Hcorr, <- Hlen.
    repeat split; [exact Hq | exact Hl1 | unfold MAX_HEAL_ATTEMPTS in Hl2 |- *; lia
                   | exact Hpg | intros _; exact Hlast].
  - intros [= <- <- <-]. rewrite app_nil_r. cbn [length].
    repeat split; [lia | lia | discriminate].
Qed.

(** ** The shape of thread identifiers *)

Lemma length_round st kw : length (SHA256.round st kw) = length st.
Proof.
  unfold SHA256.round.
  destruct st as [|a [|b [|c [|d [|e [|f [|g [|h [|i st]]]]]]]]]; reflexivity.
Qed.

Lemma length_rounds kws : forall st, length (fold_left SHA256.round kws st) = length st.
Proof.
  induction kws as [|kw kws IH]; intros st; cbn [fold_left]; [reflexivity|].
  rewrite IH. apply length_round.
Qed.

Lemma length_compress h block : length (SHA256.compress h block) = length h.
Proof.
  unfold SHA256.compress. rewrite length_map, length_combine, length_rounds. lia.
Qed.

Lemma length_digest msg : length (SHA256.digest msg) = 8.
Proof.
  unfold SHA256.digest. cbv zeta.
  match goal with |- context [fold_left SHA256.compress ?b _] => generalize b end.
  intros bs. change 8 with (length SHA256.H0). generalize SHA256.H0.
  induction bs as [|b bs IH]; intros h; cbn [fold_left]; [reflexivity|].
  rewrite IH. apply length_compress.
Qed.

Lemma hex_digit_is_hex (x : N) : is_hex_digit (SHA256.hex_digit (N.land x 0xF)) = true.
Proof.
  assert (H : (N.land x 0xF < 16)%N).
  { change 0xF%N with (N.ones 4). rewrite N.land_ones. apply N.mod_lt. discriminate. }
  revert H. generalize (N.land x 0xF). intros n Hn.
  assert (Hcases : In n [0; 1; 2; 3; 4; 5; 6; 7; 8; 9; 10; 11; 12; 13; 14; 15]%N).
  { cbn [In]. lia. }
  cbn [In] in Hcases.
  repeat (destruct Hcases as [<-|Hcases]; [reflexivity|]). contradiction.
Qed.

Lemma length_hex_of_word d x : String.length (SHA256.hex_of_word d x) = d.
Proof. induction d as [|d IH]; cbn [SHA256.hex_of_word String.length]; congruence. Qed.

Lemma all_hex_hex_of_word d x : all_hex (SHA256.hex_of_word d x) = true.
Proof.
  induction d as [|d IH]; cbn [SHA256.hex_of_word all_hex]; [reflexivity|].
  rewrite hex_digit_is_hex, IH. reflexivity.
Qed.

Lemma length_string_app (s t : string) :
  String.length (s ++ t)%string = String.length s + String.length t.
Proof.
  induction s as [|c s IH]; [reflexivity|].
  rewrite append_cons. cbn [String.length]. rewrite IH. reflexivity.
Qed.

Lemma all_hex_app (s t : string) : all_hex (s ++ t)%string = all_hex s && all_hex t.
Proof.
  induction s as [|c s IH]; [reflexivity|].
  rewrite append_cons. cbn [all_hex]. rewrite IH, andb_assoc. reflexivity.
Qed.

Lemma hexdigest_shape msg :
  String.length (SHA256.hexdigest msg) = 64 /\ all_hex (SHA256.hexdigest msg) = true.
Proof.
  unfold SHA256.hexdigest. pose proof (length_digest msg) as Hlen. revert Hlen.
  generalize (SHA256.digest msg). intros ws.
  change 64 with (8 * 8). generalize 8 at 1 3. intros n. revert n.
  induction ws as [|x ws IH]; intros n Hn; cbn [length] in Hn; subst n; cbn [fold_right].
  - split; reflexivity.
  - destruct (IH _ eq_refl) as [Hl Hh].
    rewrite length_string_app, all_hex_app, length_hex_of_word, all_hex_hex_of_word, Hl, Hh.
    split; [lia | reflexivity].
Qed.

Lemma prefix_shape n s :
  n <= String.length s -> all_hex s = true ->
  String.length (Re.prefix n s) = n /\ all_hex (Re.prefix n s) = true.
Proof.
  revert s. induction n as [|n IH]; intros s Hn Hs; [split; reflexivity|].
  destruct s as [|c s]; cbn [String.length] in Hn; [lia|].
  cbn [all_hex] in Hs. apply andb_true_iff in Hs as [Hc Hs].
  destruct (IH s) as [Hl Hh]; [lia | exact Hs|].
  cbn [Re.prefix String.length all_hex]. rewrite Hl, Hc, Hh. split; reflexivity.
Qed.

(** X11. Every thread identifier has the same shape: ["thread_"] followed
    by exactly 32 lowercase hexadecimal digits, 39 characters in all,
    whatever the host, the user and the database are. *)
Theorem thread_id_format host user database :
  exists digits,
    generate_thread_id host user database = ("thread_" ++ digits)%string
    /\ String.length digits = 32 /\ all_hex digits = true
    /\ String.length (generate_thread_id host user database) = 39.
Proof.
  unfold generate_thread_id.
  destruct (hexdigest_shape (SHA256.encode (host ++ "::" ++ user ++ "::" ++ database)%string))
    as [Hl Hh].
  destruct (prefix_shape 32 _ ltac:(rewrite Hl; lia) Hh) as [Hpl Hph].
  eexists. split; [reflexivity|]. split; [exact Hpl|]. split; [exact Hph|].
  rewrite length_string_app, Hpl. reflexivity.
Qed.

Lemma string_app_assoc (s t u : string) : ((s ++ t) ++ u = s ++ (t ++ u))%string.
Proof.
  induction s as [|c s IH]; [rewrite !append_nil; reflexivity|].
  rewrite !append_cons, IH. reflexivity.
Qed.

(** X12. The identifier does not keep the three parts apart: they are
    joined with ["::"] before hashing, so moving a ["::"] from the end of the
    host into the user, or from the user into the database, gives the same
    thread. *)
Theorem thread_id_separator_collision a b c d :
  generate_thread_id (a ++ "::" ++ b)%string c d
  = generate_thread_id a (b ++ "::" ++ c)%string d
  /\ generate_thread_id a (b ++ "::" ++ c)%string d
     = generate_thread_id a b (c ++ "::" ++ d)%string.
Proof.
  unfold generate_thread_id. rewrite !string_app_assoc. split; reflexivity.
Qed.

(** ** Reads and writes of the store *)

Lemma in_thread_eq (thread_id : string) (m : ChatMessage.t) :
  in_thread thread_id m = true <-> ChatMessage.thread_id m = thread_id.
Proof. unfold in_thread. apply String.eqb_eq. Qed.

Lemma pg_call_fault {A} (fallback : A) (body : Store -> A * Store) (w : World E O) faults :
  pg_faults w = true :: faults ->
  pg_call fallback body w
  = (Ok fallback, mkWorld (mysql w) (llm w) (pg w) faults (trace w)).
Proof. intros Hf. unfold pg_call. rewrite Hf. reflexivity. Qed.

Lemma pg_write_no_fault {A} (fallback : A) (body : Store -> A * Store) (w : World E O) :
  pg_faults w = [] ->
  pg_call fallback body w
  = (Ok (body (pg w)).1, mkWorld (mysql w) (llm w) (body (pg w)).2 [] (trace w)).
Proof. intros Hf. unfold pg_call. rewrite Hf. destruct (body (pg w)). reflexivity. Qed.

(** X13. [get_or_create_session] never removes a registered session and
    never changes the database name, host or user stored for one, for its
    own thread or any other, whatever arguments it is called with; it leaves
    the messages and the summaries alone, and when the store answers, the
    thread it returns is registered afterwards, a new one with the database
    name, host and user of the call. *)
Theorem session_registry_keeps_its_rows
    (mysql_config : MySQLConfig.t) (database_name : string) (host user : option string)
    (w : World E O) :
  exists thread_id w',
    get_or_create_session mysql_config database_name host user w = (Ok thread_id, w')
    /\ dbma_messages (pg w') = dbma_messages (pg w)
    /\ dbma_conversation_summary (pg w') = dbma_conversation_summary (pg w)
    /\ (forall t row,
          dbma_sessions (pg w) !! t = Some row ->
          exists row',
            dbma_sessions (pg w') !! t = Some row'
            /\ Session.mysql_db_name row' = Session.mysql_db_name row
            /\ Session.mysql_host row' = Session.mysql_host row
            /\ Session.mysql_user row' = Session.mysql_user row)
    /\ (forall t, t <> thread_id -> dbma_sessions (pg w') !! t = dbma_sessions (pg w) !! t)
    /\ (pg_faults w = [] ->
        exists row,
          dbma_sessions (pg w') !! thread_id = Some row
          /\ (dbma_sessions (pg w) !! thread_id = None ->
              row = Session.mk database_name
                      (PyStr.or_else host (MySQLConfig.host mysql_config))
                      (PyStr.or_else user (MySQLConfig.user mysql_config)) 0)).
Proof.
  unfold get_or_create_session.
  set (thread_id := generate_thread_id _ _ _).
  assert (Hupsert : forall s row0,
    let sessions' :=
      match dbma_sessions s !! thread_id with
      | Some row =>
          <[thread_id := Session.mk (Session.mysql_db_name row) (Session.mysql_host row)
                           (Session.mysql_user row) (S (Session.touched row))]>
            (dbma_sessions s)
      | None => <[thread_id := row0]> (dbma_sessions s)
      end in
    (forall t row,
       dbma_sessions s !! t = Some row ->
       exists row',
         sessions' !! t = Some row'
         /\ Session.mysql_db_name row' = Session.mysql_db_name row
         /\ Session.mysql_host row' = Session.mysql_host row
         /\ Session.mysql_user row' = Session.mysql_user row)
    /\ (forall t, t <> thread_id -> sessions' !! t = dbma_sessions s !! t)
    /\ exists row, sessions' !! thread_id = Some row
                   /\ (dbma_sessions s !! thread_id = None -> row = row0)).
  { intros s row0 sessions'. subst sessions'.
    destruct (dbma_sessions s !! thread_id) as [old|] eqn:Hold.
    - split; [|split].
      + intros t row Ht. destruct (decide (t = thread_id)) as [->|Hne].
        * rewrite lookup_insert_eq. eexists. split; [reflexivity|].
          rewrite Hold in Ht. injection Ht as <-. repeat split.
        * rewrite lookup_insert_ne by congruence. exists row. repeat split. exact Ht.
      + intros t Hne. rewrite lookup_insert_ne by congruence. reflexivity.
      + eexists. rewrite lookup_insert_eq. split; [reflexivity | discriminate].
    - split; [|split].
      + intros t row Ht. destruct (decide (t = thread_id)) as [->|Hne]; [congruence|].
        rewrite lookup_insert_ne by congruence. exists row. repeat split. exact Ht.
      + intros t Hne. rewrite lookup_insert_ne by congruence. reflexivity.
      + exists row0. rewrite lookup_insert_eq. split; [reflexivity | reflexivity]. }
  unfold pg_call.
  destruct (pg_faults w) as [|[] faults] eqn:Hf.
  - do 2 eexists. split; [reflexivity|]. cbn [pg dbma_messages dbma_conversation_summary
                                              dbma_sessions].
    edestruct Hupsert as (Hkeep & Hframe & Hrow).
    repeat split; [exact Hkeep | exact Hframe | intros _; exact Hrow].
  - do 2 eexists. split; [reflexivity|]. cbn [pg].
    repeat split; [eauto 10 | discriminate].
  - do 2 eexists. split; [reflexivity|]. cbn [pg dbma_messages dbma_conversation_summary
                                              dbma_sessions].
    edestruct Hupsert as (Hkeep & Hframe & Hrow).
    repeat split; [exact Hkeep | exact Hframe | discriminate].
Qed.

(** X14. A summary that [save_conversation_summary] reports as saved is
    what [load_conversation_summary] returns next for that thread; the save
    touches no other thread's summary, no message and no session, and when
    it reports failure the store is as it was. *)
Theorem summary_save_then_load
    (thread_id summary_text : string) (summarized_up_to_seq message_count_summarized : Z)
    (w : World E O) (saved : bool) (w1 : World E O) :
  save_conversation_summary thread_id summary_text summarized_up_to_seq
    message_count_summarized w = (Ok saved, w1) ->
  dbma_messages (pg w1) = dbma_messages (pg w)
  /\ dbma_sessions (pg w1) = dbma_sessions (pg w)
  /\ (forall t, t <> thread_id ->
        dbma_conversation_summary (pg w1) !! t = dbma_conversation_summary (pg w) !! t)
  /\ (saved = false -> pg w1 = pg w)
  /\ (saved = true ->
      pg_faults w1 = [] ->
      load_conversation_summary thread_id w1
      = (Ok (Some (Summary.mk summary_text summarized_up_to_seq message_count_summarized)),
         w1)).
Proof.
  unfold save_conversation_summary, pg_call.
  destruct (pg_faults w) as [|[] faults] eqn:Hf; intros [= <- <-];
    cbn [pg dbma_messages dbma_sessions dbma_conversation_summary].
  - repeat split; [intros t Hne; apply lookup_insert_ne; congruence | discriminate|].
    intros _ _. unfold load_conversation_summary.
    rewrite pg_read_no_fault by reflexivity.
    cbn [pg dbma_conversation_summary]. rewrite lookup_insert_eq. reflexivity.
  - repeat split. discriminate.
  - repeat split; [intros t Hne; apply lookup_insert_ne; congruence | discriminate|].
    intros _ Hnil. unfold load_conversation_summary.
    rewrite pg_read_no_fault by exact Hnil.
    cbn [pg dbma_conversation_summary]. rewrite lookup_insert_eq. reflexivity.
Qed.

Lemma elem_of_order_by_seq_asc (l : list ChatMessage.t) (m : ChatMessage.t) :
  m ∈ order_by_seq_asc l <-> m ∈ l.
Proof. unfold order_by_seq_asc. rewrite merge_sort_Permutation. reflexivity. Qed.

Lemma order_by_seq_asc_sorted (l : list ChatMessage.t) :
  StronglySorted seq_le (order_by_seq_asc l).
Proof. apply StronglySorted_merge_sort; apply _. Qed.

(** X15. When the store answers, [get_messages_after_seq] returns exactly
    the stored messages of the thread whose sequence number is greater than
    the given one, in ascending order of sequence number; when the store
    fails it returns the empty list, as if there were no such message. *)
Theorem messages_after_seq_are_exact (thread_id : string) (after_seq : Z) (w : World E O) :
  (pg_faults w = [] ->
   exists l,
     get_messages_after_seq thread_id after_seq w = (Ok l, w)
     /\ StronglySorted seq_le l
     /\ l ≡ₚ filter (fun m => in_thread thread_id m = true
                              /\ (after_seq < ChatMessage.sequence_no m)%Z)
               (dbma_messages (pg w))
     /\ (forall m, m ∈ l <-> m ∈ dbma_messages (pg w)
                            /\ ChatMessage.thread_id m = thread_id
                            /\ (after_seq < ChatMessage.sequence_no m)%Z))
  /\ (forall faults,
        pg_faults w = true :: faults ->
        get_messages_after_seq thread_id after_seq w
        = (Ok [], mkWorld (mysql w) (llm w) (pg w) faults (trace w))).
Proof.
  split.
  - intros Hf. unfold get_messages_after_seq. rewrite pg_read_no_fault by exact Hf.
    eexists. split; [reflexivity|].
    split; [apply select_messages_after_sorted|].
    split; [apply select_messages_after_perm|].
    intros m. rewrite select_messages_after_perm, list_elem_of_filter, in_thread_eq.
    split; [intros [[? ?] ?] | intros [? [? ?]]]; repeat split; assumption.
  - intros faults Hf. unfold get_messages_after_seq. apply pg_call_fault, Hf.
Qed.

(** X16. When the store answers, [get_recent_messages] returns the newest
    [n] messages of the thread in ascending order: as many as the thread has
    if it has fewer than [n], only messages of that thread, and no message of
    the thread that is left out is newer than one that is returned. *)
Theorem recent_messages_are_the_newest (thread_id : string) (n : nat) (w : World E O) :
  pg_faults w = [] ->
  exists l,
    get_recent_messages thread_id n w = (Ok l, w)
    /\ StronglySorted seq_le l
    /\ length l = n `min` length (filter (fun m => in_thread thread_id m = true)
                                         (dbma_messages (pg w)))
    /\ (forall m, m ∈ l -> m ∈ dbma_messages (pg w) /\ ChatMessage.thread_id m = thread_id)
    /\ (forall m older,
          m ∈ l -> older ∈ dbma_messages (pg w) ->
          ChatMessage.thread_id older = thread_id -> older ∉ l ->
          (ChatMessage.sequence_no older <= ChatMessage.sequence_no m)%Z).
Proof.
  intros Hf. unfold get_recent_messages. rewrite pg_read_no_fault by exact Hf.
  eexists. split; [reflexivity|].
  unfold select_recent_messages.
  set (all := order_by_seq_asc (filter (fun m => in_thread thread_id m = true)
                                       (dbma_messages (pg w)))).
  assert (Hall : forall m, m ∈ all <-> m ∈ dbma_messages (pg w)
                                      /\ ChatMessage.thread_id m = thread_id).
  { intros m. unfold all. rewrite elem_of_order_by_seq_asc, list_elem_of_filter, in_thread_eq.
    split; intros [? ?]; split; assumption. }
  assert (Hlen : length all = length (filter (fun m => in_thread thread_id m = true)
                                             (dbma_messages (pg w))))
    by apply length_order_by_seq_asc.
  assert (Hnew : forall m, m ∈ order_by_seq_asc (take n (reverse all))
                           <-> m ∈ drop (length all - n) all).
  { intros m. rewrite elem_of_order_by_seq_asc, take_reverse, elem_of_reverse. reflexivity. }
  split; [apply order_by_seq_asc_sorted|].
  split; [rewrite length_order_by_seq_asc, length_take, length_reverse, Hlen; reflexivity|].
  split.
  - intros m Hm. apply Hall. apply Hnew in Hm.
    rewrite <- (take_drop (length all - n) all). apply elem_of_app. right. exact Hm.
  - intros m older Hm Holder Hthread Hnot.
    apply Hnew in Hm. rewrite Hnew in Hnot.
    assert (Hin : older ∈ all) by (apply Hall; split; assumption).
    rewrite <- (take_drop (length all - n) all) in Hin.
    apply elem_of_app in Hin as [Hin|Hin]; [|contradiction].
    pose proof (order_by_seq_asc_sorted (filter (fun m => in_thread thread_id m = true)
                                                (dbma_messages (pg w)))) as Hsorted.
    fold all in Hsorted. rewrite <- (take_drop (length all - n) all) in Hsorted.
    apply (StronglySorted_app_1_elem_of _ _ _ _ _ Hsorted Hin Hm).
Qed.

(** X17. [load_chat_history] treats a limit of 0 like no limit: with [None]
    or 0 it returns every message of the thread, as many as
    [get_message_count] counts, and with a positive limit the same list as
    [get_recent_messages], so at most that many; in each case in ascending
    order and from that thread only. *)
Theorem chat_history_limit_zero_loads_everything
    (thread_id : string) (limit : option nat) (w : World E O) :
  pg_faults w = [] ->
  exists l count,
    load_chat_history thread_id limit w = (Ok l, w)
    /\ get_message_count thread_id w = (Ok count, w)
    /\ StronglySorted seq_le l
    /\ (forall m, m ∈ l -> m ∈ dbma_messages (pg w) /\ ChatMessage.thread_id m = thread_id)
    /\ length l = match limit with
                  | Some (S n) => S n `min` count
                  | _ => count
                  end
    /\ (forall n, limit = Some (S n) ->
                  get_recent_messages thread_id (S n) w = (Ok l, w)).
Proof.
  intros Hf. unfold load_chat_history, get_message_count, get_recent_messages.
  rewrite !pg_read_no_fault by exact Hf.
  do 2 eexists. split; [reflexivity|]. split; [reflexivity|].
  assert (Hall : forall m, m ∈ select_all_messages (pg w) thread_id ->
                           m ∈ dbma_messages (pg w) /\ ChatMessage.thread_id m = thread_id).
  { intros m. unfold select_all_messages.
    rewrite elem_of_order_by_seq_asc, list_elem_of_filter, in_thread_eq.
    intros [? ?]; split; assumption. }
  destruct limit as [[|n]|].
  - split; [apply order_by_seq_asc_sorted|]. split; [exact Hall|].
    split; [apply length_order_by_seq_asc | discriminate].
  - split; [apply order_by_seq_asc_sorted|]. split.
    + intros m. unfold select_recent_messages.
      rewrite elem_of_order_by_seq_asc. intros Hm. apply Hall.
      apply elem_of_take in Hm as (i & Hi & _).
      apply list_elem_of_lookup_2 in Hi. rewrite elem_of_reverse in Hi. exact Hi.
    + split; [|intros n' [= <-]; rewrite pg_read_no_fault by exact Hf; reflexivity].
      unfold select_recent_messages.
      rewrite length_order_by_seq_asc, length_take, length_reverse, length_order_by_seq_asc.
      reflexivity.
  - split; [apply order_by_seq_asc_sorted|]. split; [exact Hall|].
    split; [apply length_order_by_seq_asc | discriminate].
Qed.

(** ** The history handed to the model *)

Lemma ROLE_MAP_range (role : string) : ROLE_MAP role = "user" \/ ROLE_MAP role = "assistant".
Proof.
  unfold ROLE_MAP.
  destruct (String.eqb role "human"); [left; reflexivity|].
  destruct (String.eqb role "user"); [left; reflexivity|].
  destruct (String.eqb role "assistant"); [right | left]; reflexivity.
Qed.

(** X18. Every entry of the history that [format_history_for_llm] builds
    has the role ["user"] or ["assistant"] and a content that is not blank,
    so the prompt builder of [_invoke_llm], which skips unknown roles,
    keeps every one of them: the prompt has one part per entry. *)
Theorem formatted_history_survives_the_prompt (messages : list ChatMessage.t) :
  Forall (fun msg => (msg.1 = "user" \/ msg.1 = "assistant")
                     /\ PyStr.strip msg.2 <> EmptyString)
         (format_history_for_llm messages)
  /\ length (concat (map prompt_part (format_history_for_llm messages)))
     = length (format_history_for_llm messages).
Proof.
  induction messages as [|msg rest [IHall IHlen]]; [split; [constructor | reflexivity]|].
  cbn [format_history_for_llm].
  destruct (PyStr.truthy (PyStr.strip _)) eqn:Hcontent; [|split; assumption].
  apply truthy_true in Hcontent.
  split.
  - constructor; [|exact IHall]. split; [apply ROLE_MAP_range | exact Hcontent].
  - cbn [map concat]. rewrite length_app, IHlen. cbn [length]. f_equal.
    unfold prompt_part.
    destruct (ROLE_MAP_range (ChatMessage.role msg)) as [-> | ->]; reflexivity.
Qed.

(** ** Bookkeeping of the fold *)

Lemma strip_think_block_nonempty_or (result existing : string) :
  (if PyStr.truthy (strip_think_block result) then strip_think_block result else existing)
  = existing
  \/ (if PyStr.truthy (strip_think_block result) then strip_think_block result else existing)
     <> EmptyString.
Proof.
  destruct (PyStr.truthy (strip_think_block result)) eqn:Ht; [|left; reflexivity].
  right. apply truthy_true, Ht.
Qed.

(** The summarizer asks the model once, never raises and touches neither
    the engine nor the store; its text is the existing summary or a
    non-empty new one. *)
Lemma summarize_messages_frame existing_summary new_messages (w : World E O) :
  exists text w' prompt response,
    _summarize_messages existing_summary new_messages w = (Ok text, w')
    /\ trace w' = trace w ++ [EvLLM prompt response]
    /\ pg w' = pg w /\ pg_faults w' = pg_faults w /\ mysql w' = mysql w
    /\ (text = existing_summary \/ text <> EmptyString)
    /\ (response = None -> text = existing_summary).
Proof.
  unfold _summarize_messages, try_except, bind, _invoke_llm, llm_call, ret.
  destruct (llm_invoke (llm w) _) as [[response|] o'].
  - do 4 eexists. split; [reflexivity|]. cbn [trace pg pg_faults mysql].
    repeat split; [apply strip_think_block_nonempty_or | discriminate].
  - do 4 eexists. split; [reflexivity|]. cbn [trace pg pg_faults mysql].
    repeat split. left. reflexivity.
Qed.

(** One activation of the fold, in a store that answers. *)
Lemma update_summary_step (thread_id : string) (w : World E O) :
  pg_faults w = [] ->
  distinct_sequence_numbers (pg w) thread_id ->
  exists w',
    update_summary_if_needed thread_id w = (Ok tt, w')
    /\ pg_faults w' = [] /\ mysql w' = mysql w
    /\ dbma_messages (pg w') = dbma_messages (pg w)
    /\ dbma_sessions (pg w') = dbma_sessions (pg w)
    /\ (forall t, t <> thread_id ->
          dbma_conversation_summary (pg w') !! t = dbma_conversation_summary (pg w) !! t)
    /\ engine_calls (trace w') = engine_calls (trace w)
    /\ (unsummarized_count (pg w) thread_id <= RECENT_MESSAGES_COUNT -> w' = w)
    /\ (RECENT_MESSAGES_COUNT < unsummarized_count (pg w) thread_id ->
        unsummarized_count (pg w') thread_id = RECENT_MESSAGES_COUNT
        /\ llm_calls (trace w') = llm_calls (trace w) + 1
        /\ exists e',
             dbma_conversation_summary (pg w') !! thread_id = Some e'
             /\ Summary.message_count_summarized e'
                = (match dbma_conversation_summary (pg w) !! thread_id with
                   | Some e => Summary.message_count_summarized e
                   | None => 0
                   end
                   + Z.of_nat (unsummarized_count (pg w) thread_id - RECENT_MESSAGES_COUNT))%Z
             /\ (Summary.summary_text e'
                 = match dbma_conversation_summary (pg w) !! thread_id with
                   | Some e => Summary.summary_text e
                   | None => EmptyString
                   end
                 \/ Summary.summary_text e' <> EmptyString)).
Proof.
  intros Hf Hnd.
  unfold update_summary_if_needed, try_except.
  unfold bind at 1, load_conversation_summary. rewrite pg_read_no_fault by exact Hf.
  unfold bind at 1, get_messages_after_seq. rewrite pg_read_no_fault by exact Hf.
  change (match dbma_conversation_summary (pg w) !! thread_id with
          | Some e => Summary.summarized_up_to_seq e
          | None => 0%Z
          end) with (stored_up_to (pg w) thread_id).
  pose proof (length_select_messages_after (pg w) thread_id) as Hcount.
  pose proof (select_messages_after_sorted (pg w) thread_id (stored_up_to (pg w) thread_id))
    as Hsorted.
  pose proof (select_messages_after_distinct (pg w) thread_id
                (stored_up_to (pg w) thread_id) Hnd) as Hdistinct.
  pose proof (select_messages_after_perm (pg w) thread_id (stored_up_to (pg w) thread_id))
    as Hperm.
  set (unsummarized := select_messages_after (pg w) thread_id (stored_up_to (pg w) thread_id))
    in Hcount, Hsorted, Hdistinct, Hperm |- *.
  destruct (Nat.leb_spec (length unsummarized) RECENT_MESSAGES_COUNT) as [Hle|Hgt].
  - (* nothing to fold *)
    exists w. unfold ret. split; [reflexivity|]. split; [exact Hf|].
    do 3 (split; [reflexivity|]). split; [intros t _; reflexivity|].
    split; [reflexivity|]. split; [intros _; reflexivity|].
    intros Hbig. rewrite <- Hcount in Hbig. lia.
  - set (to_fold := slice_but_last RECENT_MESSAGES_COUNT unsummarized).
    destruct (summarize_messages_frame
                (match dbma_conversation_summary (pg w) !! thread_id with
                 | Some e => Summary.summary_text e
                 | None => EmptyString
                 end) to_fold w)
      as (text & w1 & p & response & Hsum & Htr & Hpg & Hfaults & Hmysql & Htext & _).
    unfold bind at 1. rewrite Hsum.
    assert (Hk : unsummarized !! (length unsummarized - RECENT_MESSAGES_COUNT - 1)
                 = last to_fold).
    { unfold to_fold, slice_but_last. rewrite last_lookup, length_take_le by lia.
      rewrite lookup_take_lt by lia. f_equal. lia. }
    destruct (lookup_lt_is_Some_2 unsummarized
                (length unsummarized - RECENT_MESSAGES_COUNT - 1)) as [newest Hnewest];
      [lia|].
    rewrite <- Hk, Hnewest.
    unfold bind, save_conversation_summary, pg_call, ret. rewrite Hfaults, Hf.
    eexists. split; [reflexivity|].
    cbn [pg pg_faults mysql trace dbma_messages dbma_sessions dbma_conversation_summary].
    rewrite Hpg, Htr, engine_calls_app, llm_calls_app. cbn [engine_calls llm_calls].
    assert (Hnew : forall msgs sessions summaries count,
              stored_up_to
                (mkStore sessions msgs
                   (<[thread_id := Summary.mk text (ChatMessage.sequence_no newest) count]>
                      summaries)) thread_id
              = ChatMessage.sequence_no newest).
    { intros. unfold stored_up_to. cbn [dbma_conversation_summary].
      rewrite lookup_insert_eq. reflexivity. }
    repeat split.
    + exact Hmysql.
    + intros t Hne. apply lookup_insert_ne. congruence.
    + lia.
    + intros Hsmall. rewrite <- Hcount in Hsmall. lia.
    + unfold unsummarized_count at 1. rewrite Hnew. cbn [dbma_messages].
      rewrite (list_filter_iff _
                 (fun m => (ChatMessage.sequence_no newest < ChatMessage.sequence_no m)%Z
                           /\ (in_thread thread_id m = true
                               /\ (stored_up_to (pg w) thread_id
                                   < ChatMessage.sequence_no m)%Z))).
      2: { assert (Hafter : (stored_up_to (pg w) thread_id
                             < ChatMessage.sequence_no newest)%Z).
           { assert (Hin : newest ∈ unsummarized)
               by (eapply list_elem_of_lookup_2, Hnewest).
             rewrite Hperm in Hin. apply list_elem_of_filter in Hin.
             destruct Hin as [[_ Hlt] _]. exact Hlt. }
           intros m; split; [intros [? ?] | intros [? [? ?]]]; repeat split;
             solve [assumption | lia]. }
      rewrite <- list_filter_filter, <- Hperm.
      apply take_drop_middle in Hnewest.
      rewrite <- Hnewest in Hsorted, Hdistinct |- * at 1.
      rewrite (filter_after_sorted _ _ _ Hsorted Hdistinct), length_drop. lia.
    + eexists. rewrite lookup_insert_eq. split; [reflexivity|].
      cbn [Summary.message_count_summarized Summary.summary_text].
      split; [|exact Htext].
      f_equal. f_equal. unfold to_fold, slice_but_last.
      rewrite length_take_le, Hcount by lia. reflexivity.
Qed.

(** X19. Folding is idempotent: in a store that answers and whose
    messages have distinct sequence numbers, a second
    [update_summary_if_needed] right after a first one changes nothing and
    asks the model nothing. *)
Theorem fold_twice_is_fold_once (thread_id : string) (w : World E O) :
  pg_faults w = [] ->
  distinct_sequence_numbers (pg w) thread_id ->
  exists w',
    update_summary_if_needed thread_id w = (Ok tt, w')
    /\ update_summary_if_needed thread_id w' = (Ok tt, w').
Proof.
  intros Hf Hnd.
  destruct (update_summary_step thread_id w Hf Hnd)
    as (w' & Hrun & Hf' & _ & Hmsgs & _ & _ & _ & Hsmall & Hbig).
  exists w'. split; [exact Hrun|].
  assert (Hnd' : distinct_sequence_numbers (pg w') thread_id).
  { unfold distinct_sequence_numbers in Hnd |- *. rewrite Hmsgs. exact Hnd. }
  destruct (update_summary_step thread_id w' Hf' Hnd')
    as (w'' & Hrun' & _ & _ & _ & _ & _ & _ & Hsmall' & _).
  rewrite Hrun'. f_equal. apply Hsmall'.
  destruct (Nat.le_gt_cases (unsummarized_count (pg w) thread_id) RECENT_MESSAGES_COUNT)
    as [Hle|Hgt].
  - rewrite (Hsmall Hle). exact Hle.
  - destruct (Hbig Hgt) as [-> _]. lia.
Qed.

(** X20. When more than [RECENT_MESSAGES_COUNT] messages lie beyond the
    summary, a fold in a store that answers adds exactly the number of
    messages it folds, the excess over [RECENT_MESSAGES_COUNT], to
    [message_count_summarized]; the text it stores is the old summary or a
    non-empty new one; it asks the model once and the engine never, and
    touches neither another thread's summary nor the sessions. *)
Theorem fold_accounts_for_what_it_folds (thread_id : string) (w : World E O) :
  pg_faults w = [] ->
  distinct_sequence_numbers (pg w) thread_id ->
  RECENT_MESSAGES_COUNT < unsummarized_count (pg w) thread_id ->
  exists w' e',
    update_summary_if_needed thread_id w = (Ok tt, w')
    /\ dbma_conversation_summary (pg w') !! thread_id = Some e'
    /\ Summary.message_count_summarized e'
       = (match dbma_conversation_summary (pg w) !! thread_id with
          | Some e => Summary.message_count_summarized e
          | None => 0
          end
          + Z.of_nat (unsummarized_count (pg w) thread_id - RECENT_MESSAGES_COUNT))%Z
    /\ (Summary.summary_text e'
        = match dbma_conversation_summary (pg w) !! thread_id with
          | Some e => Summary.summary_text e
          | None => EmptyString
          end
        \/ Summary.summary_text e' <> EmptyString)
    /\ (forall t, t <> thread_id ->
          dbma_conversation_summary (pg w') !! t = dbma_conversation_summary (pg w) !! t)
    /\ dbma_sessions (pg w') = dbma_sessions (pg w)
    /\ llm_calls (trace w') = llm_calls (trace w) + 1
    /\ engine_calls (trace w') = engine_calls (trace w)
    /\ mysql w' = mysql w.
Proof.
  intros Hf Hnd Hbig.
  destruct (update_summary_step thread_id w Hf Hnd)
    as (w' & Hrun & _ & Hmysql & _ & Hsessions & Hothers & Hengine & _ & Hfold).
  destruct (Hfold Hbig) as (_ & Hllm & e' & He' & Hcount & Htext).
  exists w', e'. repeat split; assumption.
Qed.

(** ** Clearing a thread *)

Lemma filter_nil_Forall {A} (P : A -> Prop) `{!forall x, Decision (P x)} (l : list A) :
  Forall (fun x => ~ P x) l -> filter P l = [].
Proof.
  induction 1 as [|x l Hx _ IH]; [reflexivity|].
  rewrite filter_cons_False by exact Hx. exact IH.
Qed.

(** How [clear_thread] can end: with the thread's messages deleted, or,
    when the first statement failed, with the store as it was. *)
Lemma clear_thread_cases (thread_id : string) (w : World E O) :
  exists cleared w',
    clear_thread thread_id w = (Ok cleared, w')
    /\ (pg w' = mkStore (dbma_sessions (pg w))
                   (filter (fun m => in_thread thread_id m = false) (dbma_messages (pg w)))
                   (dbma_conversation_summary (pg w))
        \/ (pg w' = pg w /\ cleared = false))
    /\ (forall faults,
          pg_faults w = false :: true :: faults ->
          cleared = false
          /\ pg w' = mkStore (dbma_sessions (pg w))
                       (filter (fun m => in_thread thread_id m = false)
                               (dbma_messages (pg w)))
                       (dbma_conversation_summary (pg w))).
Proof.
  unfold clear_thread, bind, pg_call, ret.
  destruct (pg_faults w) as [|[|] [|[|] [|[|] faults]]] eqn:Hf; cbn [negb pg_faults pg];
    do 2 eexists; (split; [reflexivity|]); cbn [pg];
    (split; [solve [left; reflexivity | right; split; reflexivity]|]);
    solve [intros faults' [=] | intros faults' _; split; reflexivity].
Qed.

Lemma cleared_thread_has_no_message (thread_id : string) (s : Store) (m : ChatMessage.t) :
  m ∈ filter (fun m => in_thread thread_id m = false) (dbma_messages s) ->
  ChatMessage.thread_id m <> thread_id.
Proof.
  rewrite list_elem_of_filter. intros [Hin _] Heq. apply in_thread_eq in Heq. congruence.
Qed.

(** X21. [clear_thread] never touches the conversation summaries or the
    sessions, nor the messages of another thread.  When it reports success
    the thread has no message left, [get_message_count] is 0, and
    [load_conversation_summary] still returns the summary stored before;
    when its second statement fails it reports failure although the
    thread's messages are already deleted. *)
Theorem clear_thread_keeps_the_summary (thread_id : string) (w : World E O) :
  exists cleared w',
    clear_thread thread_id w = (Ok cleared, w')
    /\ dbma_conversation_summary (pg w') = dbma_conversation_summary (pg w)
    /\ dbma_sessions (pg w') = dbma_sessions (pg w)
    /\ (forall m, ChatMessage.thread_id m <> thread_id ->
                  (m ∈ dbma_messages (pg w') <-> m ∈ dbma_messages (pg w)))
    /\ (cleared = true ->
        forall m, m ∈ dbma_messages (pg w') -> ChatMessage.thread_id m <> thread_id)
    /\ (cleared = true -> pg_faults w' = [] ->
        get_message_count thread_id w' = (Ok 0, w')
        /\ load_conversation_summary thread_id w'
           = (Ok (dbma_conversation_summary (pg w) !! thread_id), w'))
    /\ (forall faults,
          pg_faults w = false :: true :: faults ->
          cleared = false
          /\ forall m, m ∈ dbma_messages (pg w') -> ChatMessage.thread_id m <> thread_id).
Proof.
  destruct (clear_thread_cases thread_id w) as (cleared & w' & Hrun & Hpg & Hpartial).
  exists cleared, w'. split; [exact Hrun|].
  set (s' := mkStore (dbma_sessions (pg w))
               (filter (fun m => in_thread thread_id m = false) (dbma_messages (pg w)))
               (dbma_conversation_summary (pg w))) in Hpg, Hpartial.
  assert (Hother : forall m, ChatMessage.thread_id m <> thread_id ->
                             (m ∈ dbma_messages s' <-> m ∈ dbma_messages (pg w))).
  { intros m Hm. unfold s'. cbn [dbma_messages]. rewrite list_elem_of_filter.
    split; [intros [_ ?]; assumption | intros ?; split; [|assumption]].
    destruct (in_thread thread_id m) eqn:Hin; [|reflexivity].
    apply in_thread_eq in Hin. contradiction. }
  assert (Hgone : forall m, m ∈ dbma_messages s' -> ChatMessage.thread_id m <> thread_id)
    by (intros m; apply cleared_thread_has_no_message).
  destruct Hpg as [Hpg|[Hpg Hfalse]].
  - rewrite Hpg. split; [reflexivity|]. split; [reflexivity|]. split; [exact Hother|].
    split; [intros _; exact Hgone|]. split.
    + intros _ Hf'. unfold get_message_count, load_conversation_summary.
      rewrite !pg_read_no_fault by exact Hf'. rewrite Hpg. split; [|reflexivity].
      rewrite filter_nil_Forall; [reflexivity|].
      apply Forall_forall. intros m Hm Hin. apply in_thread_eq in Hin.
      exact (Hgone m Hm Hin).
    + intros faults Hfaults. destruct (Hpartial faults Hfaults) as [-> _].
      split; [reflexivity | exact Hgone].
  - rewrite Hpg. split; [reflexivity|]. split; [reflexivity|].
    split; [intros m _; reflexivity|].
    split; [intros Htrue; congruence|]. split; [intros Htrue; congruence|].
    intros faults Hfaults. destruct (Hpartial faults Hfaults) as [_ Hs'].
    split; [exact Hfalse|]. rewrite <- Hpg, Hs'. exact Hgone.
Qed.

(** X22. Clearing a thread does not clear its memory: after a successful
    [clear_thread] of a thread that had a summary, [_build_rolling_context]
    returns that summary, with no recent turn. *)
Theorem memory_survives_clearing (thread_id : string) (w w' : World E O) (e : Summary.t) :
  clear_thread thread_id w = (Ok true, w') ->
  pg_faults w' = [] ->
  dbma_conversation_summary (pg w) !! thread_id = Some e ->
  _build_rolling_context thread_id w'
  = (Ok (mkRollingContext (Summary.summary_text e) []), w').
Proof.
  intros Hclear Hf He.
  destruct (clear_thread_cases thread_id w) as (cleared & w1 & Hrun & Hpg & _).
  rewrite Hclear in Hrun. injection Hrun as <- <-.
  destruct Hpg as [Hpg|[_ Habs]]; [|discriminate Habs].
  unfold _build_rolling_context, try_except.
  unfold bind at 1, load_conversation_summary. rewrite pg_read_no_fault by exact Hf.
  rewrite Hpg. cbn [dbma_conversation_summary]. rewrite He.
  unfold bind at 1. unfold bind at 1, get_messages_after_seq.
  rewrite pg_read_no_fault by exact Hf. rewrite Hpg.
  unfold select_messages_after. cbn [dbma_messages].
  rewrite filter_nil_Forall; [reflexivity|].
  apply Forall_forall. intros m Hm [Hin _]. apply in_thread_eq in Hin.
  exact (cleared_thread_has_no_message _ _ _ Hm Hin).
Qed.

(** ** Intent classification *)

Example classify_intent_ex1 : classify_intent "Show all tables" = SHOW_TABLES.
Proof. vm_compute. reflexivity. Qed.
Example classify_intent_ex2 : classify_intent "  USE shop_db " = SWITCH_DATABASE.
Proof. vm_compute. reflexivity. Qed.
Example classify_intent_ex3 : classify_intent "drop table users" = DROP_TABLE.
Proof. vm_compute. reflexivity. Qed.
Example classify_intent_ex4 : classify_intent "delete table users" = DELETE_DATA.
Proof. vm_compute. reflexivity. Qed.
Example classify_intent_ex5 : classify_intent "yes, please run it" = EXECUTE_QUERY.
Proof. vm_compute. reflexivity. Qed.
Example classify_intent_ex6 : classify_intent "users of the shop" = GENERAL_QUESTION.
Proof. vm_compute. reflexivity. Qed.
Example classify_intent_ex7 : classify_intent "what tables hold the schema" = EXPLAIN_SCHEMA.
Proof. vm_compute. reflexivity. Qed.
Example classify_intent_ex8 : classify_intent "how many orders today" = GENERAL_QUESTION.
Proof. vm_compute. reflexivity. Qed.

Lemma lower_upper_char (c : ascii) :
  PyStr.lower_char (PyStr.upper_char c) = PyStr.lower_char c.
Proof. destruct c as [[] [] [] [] [] [] [] []]; reflexivity. Qed.

Lemma lower_upper (s : string) : PyStr.lower (PyStr.upper s) = PyStr.lower s.
Proof.
  induction s as [|c s IH]; [reflexivity|].
  cbn [PyStr.upper PyStr.lower]. rewrite lower_upper_char, IH. reflexivity.
Qed.

Lemma lower_app (s t : string) :
  PyStr.lower (s ++ t) = (PyStr.lower s ++ PyStr.lower t)%string.
Proof.
  induction s as [|c s IH]; [rewrite !append_nil; reflexivity|].
  rewrite append_cons. cbn [PyStr.lower]. rewrite append_cons, IH. reflexivity.
Qed.

Lemma blank_lower (s : string) : blank (PyStr.lower s) = blank s.
Proof.
  induction s as [|c s IH]; [reflexivity|].
  cbn [PyStr.lower blank]. rewrite isspace_lower_char, IH. reflexivity.
Qed.

(** X23. [classify_intent] looks at the trimmed lowercase text only: the
    intent of a text does not change when its letters change case or when
    whitespace is put around it.  It never answers [UNKNOWN] or
    [ALTER_TABLE]. *)
Theorem classify_intent_ignores_case_and_padding (user_input : string) :
  classify_intent (PyStr.upper user_input) = classify_intent user_input
  /\ classify_intent (PyStr.lower user_input) = classify_intent user_input
  /\ (forall l r, blank l = true -> blank r = true ->
                  classify_intent (l ++ user_input ++ r) = classify_intent user_input)
  /\ classify_intent user_input <> UNKNOWN
  /\ classify_intent user_input <> ALTER_TABLE.
Proof.
  assert (Hinp : forall a b,
            PyStr.strip (PyStr.lower a) = PyStr.strip (PyStr.lower b) ->
            classify_intent a = classify_intent b).
  { intros a b Hab. unfold classify_intent. rewrite Hab. reflexivity. }
  split; [apply Hinp; rewrite lower_upper; reflexivity|].
  split.
  { apply Hinp. f_equal. clear. induction user_input as [|c s IH]; [reflexivity|].
    cbn [PyStr.lower]. rewrite IH. f_equal.
    destruct c as [[] [] [] [] [] [] [] []]; reflexivity. }
  split.
  { intros l r Hl Hr. apply Hinp. rewrite !lower_app.
    apply strip_padded; rewrite blank_lower; assumption. }
  unfold classify_intent.
  repeat match goal with
         | |- context [if found ?r ?s then _ else _] => destruct (found r s)
         end; split; discriminate.
Qed.

(** ** Regular expressions: where a pattern is found *)

Lemma search_from_mono (r1 r2 : Re.regex) :
  (forall prev s, is_Some (Re.run r1 prev s None Re.accept) ->
                  is_Some (Re.run r2 prev s None Re.accept)) ->
  forall s prev, is_Some (Re.search_from r1 prev s) -> is_Some (Re.search_from r2 prev s).
Proof.
  intros Hrun s. induction s as [|c s IH]; intros prev; cbn [Re.search_from].
  - specialize (Hrun prev EmptyString).
    destruct (Re.run r1 prev EmptyString None Re.accept) as [m|].
    + destruct Hrun as [m' ->]; [eexists; reflexivity|]. intros _. eexists. reflexivity.
    + intros [x Hx]. discriminate Hx.
  - specialize (Hrun prev (String c s)).
    destruct (Re.run r1 prev (String c s) None Re.accept) as [m|].
    + destruct Hrun as [m' ->]; [eexists; reflexivity|]. intros _. eexists. reflexivity.
    + intros Hfound.
      destruct (Re.run r2 prev (String c s) None Re.accept); [eexists; reflexivity|].
      specialize (IH (Some c)).
      destruct (Re.search_from r1 (Some c) s) as [[skipped m]|];
        [|destruct Hfound as [x Hx]; discriminate Hx].
      destruct IH as [[skipped' m'] ->]; [eexists; reflexivity|]. eexists. reflexivity.
Qed.

Lemma search_from_alt (a b : Re.regex) :
  forall s prev,
    is_Some (Re.search_from (Re.Alt a b) prev s) ->
    is_Some (Re.search_from a prev s) \/ is_Some (Re.search_from b prev s).
Proof.
  intros s. induction s as [|c s IH]; intros prev; cbn [Re.search_from Re.run].
  - destruct (Re.run a prev EmptyString None Re.accept) as [m|];
      [intros _; left; eexists; reflexivity|].
    cbn [Re.or_try].
    destruct (Re.run b prev EmptyString None Re.accept) as [m|];
      [intros _; right; eexists; reflexivity|].
    intros [x Hx]; discriminate Hx.
  - destruct (Re.run a prev (String c s) None Re.accept) as [m|];
      [intros _; left; eexists; reflexivity|].
    cbn [Re.or_try].
    destruct (Re.run b prev (String c s) None Re.accept) as [m|];
      [intros _; right; eexists; reflexivity|].
    specialize (IH (Some c)).
    destruct (Re.search_from (Re.Alt a b) (Some c) s) as [[skipped m]|];
      [|intros [x Hx]; discriminate Hx].
    intros _. destruct IH as [[[sk m'] ->]|[[sk m'] ->]]; [eexists; reflexivity | |].
    + left. eexists. reflexivity.
    + right. eexists. reflexivity.
Qed.

Lemma found_alt (a b : Re.regex) (s : string) :
  found (Re.Alt a b) s = true -> found a s = true \/ found b s = true.
Proof.
  unfold found. rewrite !bool_decide_eq_true. apply search_from_alt.
Qed.

Lemma found_mono (r1 r2 : Re.regex) (s : string) :
  (forall prev s, is_Some (Re.run r1 prev s None Re.accept) ->
                  is_Some (Re.run r2 prev s None Re.accept)) ->
  found r1 s = true -> found r2 s = true.
Proof.
  intros Hrun. unfold found. rewrite !bool_decide_eq_true. apply search_from_mono, Hrun.
Qed.

Lemma isspace_not_word (c : ascii) : PyStr.isspace c = true -> Re.is_word c = false.
Proof. destruct c as [[] [] [] [] [] [] [] []]; cbv; intros H; congruence. Qed.

Lemma delete_table_is_delete (prev : option ascii) (s : string) :
  is_Some (Re.run (bounded [Re.lit "delete"; spaces; Re.lit "table"]) prev s None Re.accept) ->
  is_Some (Re.run (bounded [Re.lit "delete"]) prev s None Re.accept).
Proof.
  unfold bounded, seqs, spaces. cbn [app fold_right Re.lit Re.run].
  destruct (xorb (Re.is_word_opt prev) (Re.is_word_opt (Re.head_char s)));
    [|intros [x Hx]; discriminate Hx].
  destruct s as [|c1 s]; [intros [x Hx]; discriminate Hx|].
  destruct (Ascii.eqb "d" c1); [|intros [x Hx]; discriminate Hx].
  destruct s as [|c2 s]; [intros [x Hx]; discriminate Hx|].
  destruct (Ascii.eqb "e" c2); [|intros [x Hx]; discriminate Hx].
  destruct s as [|c3 s]; [intros [x Hx]; discriminate Hx|].
  destruct (Ascii.eqb "l" c3); [|intros [x Hx]; discriminate Hx].
  destruct s as [|c4 s]; [intros [x Hx]; discriminate Hx|].
  destruct (Ascii.eqb "e" c4) eqn:H4; [|intros [x Hx]; discriminate Hx].
  destruct s as [|c5 s]; [intros [x Hx]; discriminate Hx|].
  destruct (Ascii.eqb "t" c5); [|intros [x Hx]; discriminate Hx].
  destruct s as [|c6 s]; [intros [x Hx]; discriminate Hx|].
  destruct (Ascii.eqb "e" c6) eqn:H6; [|intros [x Hx]; discriminate Hx].
  apply Ascii.eqb_eq in H6. subst c6.
  destruct s as [|c7 s]; [intros [x Hx]; discriminate Hx|].
  unfold Re.space.
  destruct (PyStr.isspace c7) eqn:H7; [|intros [x Hx]; discriminate Hx].
  intros _. cbn [Re.is_word_opt Re.head_char].
  rewrite (isspace_not_word _ H7). eexists. reflexivity.
Qed.

(** X24. A text is classified [DROP_TABLE] only if it holds the words
    ["drop"] and ["table"], in that order and with only whitespace between
    them, and not the word ["delete"]: the alternative ["delete table"] of
    the pattern for [DROP_TABLE] is never the one that decides, because a
    text with ["delete"] in it is classified earlier, as [DELETE_DATA] at the
    latest. *)
Theorem drop_table_needs_the_word_drop (user_input : string) :
  classify_intent user_input = DROP_TABLE ->
  found (bounded [Re.lit "drop"; spaces; Re.lit "table"])
        (PyStr.strip (PyStr.lower user_input)) = true
  /\ found (bounded [Re.lit "delete"]) (PyStr.strip (PyStr.lower user_input)) = false.
Proof.
  unfold classify_intent. generalize (PyStr.strip (PyStr.lower user_input)). intros inp.
  do 9 (match goal with
        | |- (if found ?r inp then _ else _) = _ -> _ =>
            destruct (found r inp); [discriminate|]
        end).
  match goal with
  | |- (if found ?r inp then _ else _) = _ -> _ =>
      destruct (found r inp) eqn:Hdelete; [discriminate|]
  end.
  assert (Hno : found (bounded [Re.lit "delete"]) inp = false).
  { destruct (found (bounded [Re.lit "delete"]) inp) eqn:Hd; [|reflexivity].
    rewrite <- Hdelete. symmetry. revert Hd. apply found_mono.
    intros prev s [m Hm]. cbn [Re.alts Re.run]. rewrite Hm. eexists. reflexivity. }
  match goal with
  | |- (if found ?r inp then _ else _) = _ -> _ =>
      destruct (found r inp); [discriminate|]
  end.
  match goal with
  | |- (if found ?r inp then _ else _) = _ -> _ =>
      destruct (found r inp) eqn:Hdrop
  end.
  - intros _. split; [|exact Hno].
    apply found_alt in Hdrop as [Hd|Hd]; [exact Hd|].
    apply (found_mono _ (bounded [Re.lit "delete"])) in Hd;
      [congruence | apply delete_table_is_delete].
  - match goal with
    | |- (if found ?r inp then _ else _) = _ -> _ => destruct (found r inp); discriminate
    end.
Qed.

(** ** Query types *)

Lemma first_word_or_empty_spec (sql : string) :
  first_word_or_empty sql
  = Ok (match first_token sql with Some tok => PyStr.upper tok | None => EmptyString end).
Proof.
  unfold first_word_or_empty. destruct (PyStr.truthy (PyStr.strip sql)) eqn:Hs.
  - apply truthy_true, strip_nonempty_token in Hs as [tok Htok].
    rewrite first_word_upper_spec, Htok. reflexivity.
  - assert (Hempty : PyStr.strip sql = EmptyString).
    { destruct (String.eqb_spec (PyStr.strip sql) EmptyString) as [Heq|Hne]; [exact Heq|].
      apply truthy_true in Hne. congruence. }
    rewrite <- first_token_strip, Hempty. reflexivity.
Qed.

(** X25. [_detect_query_type] and [is_safe_query] never raise, unlike the
    agent's two classifiers, and they agree with them: a query for which
    [_is_destructive] holds has one of the types DELETE, DROP, TRUNCATE and
    UPDATE and is not safe, and a safe query has one of the types SELECT,
    SHOW, DESCRIBE and EXPLAIN, is not destructive and has risk level
    LOW. *)
Theorem query_type_never_raises_and_agrees (sql : string) :
  exists query_type safe,
    _detect_query_type sql = Ok query_type
    /\ is_safe_query sql = Ok safe
    /\ (_is_destructive (Some sql) = Ok true ->
        In query_type ["DELETE"; "DROP"; "TRUNCATE"; "UPDATE"] /\ safe = false)
    /\ (safe = true ->
        In query_type ["SELECT"; "SHOW"; "DESCRIBE"; "EXPLAIN"]
        /\ _is_destructive (Some sql) = Ok false
        /\ _infer_risk_level sql = Ok "LOW").
Proof.
  unfold _detect_query_type, is_safe_query. rewrite first_word_or_empty_spec.
  do 2 eexists. split; [reflexivity|]. split; [reflexivity|].
  rewrite is_destructive_spec.
  destruct (first_token sql) as [tok|] eqn:Htok.
  - rewrite (infer_risk_level_spec _ _ Htok). generalize (PyStr.upper tok). intros verb.
    split.
    + intros Hd.
      apply (f_equal (fun o => match o with Ok b => b | Raise _ => false end)) in Hd.
      cbv beta iota in Hd. apply mem_In in Hd. cbn [In] in Hd.
      destruct Hd as [<-|[<-|[<-|[<-|[]]]]]; split; cbn; auto.
    + intros Hsafe. apply mem_In in Hsafe. cbn [In] in Hsafe.
      destruct Hsafe as [<-|[<-|[<-|[<-|[<-|[]]]]]]; repeat split; cbn; auto.
  - split.
    + destruct (PyStr.truthy sql); discriminate.
    + discriminate.
Qed.

End Orchestration.

(** * The theorems at concrete runs *)

(** C10 on a chat turn whose answer carries an UPDATE. *)
Lemma is_destructive_iff_leading_verb_witness :
  exists response w',
    _chat_inner_response Script.llm_invoke Script.OPTIMIZER_PROMPT Script.VALIDATOR_PROMPT
      Script.agent UPDATE_DATA
      ("I will reset the totals." ++ nl ++ Script.sql_block "update orders set total = 0")
      (Script.world tt [] Script.empty_store)
    = (Ok response, w')
    /\ AgentResponse.sql_query response = Some "update orders set total = 0"
    /\ AgentResponse.requires_confirmation response = true
    /\ _infer_risk_level "update orders set total = 0" = Ok "MEDIUM".
Proof.
  eexists. eexists. split; [vm_compute; reflexivity|]. split; [reflexivity|].
  eapply (proj2 (is_destructive_iff_leading_verb Script.llm_invoke
                  Script.OPTIMIZER_PROMPT Script.VALIDATOR_PROMPT)
           Script.agent UPDATE_DATA
           ("I will reset the totals." ++ nl
            ++ Script.sql_block "update orders set total = 0")%string
           (Script.world tt [] Script.empty_store) _ _
           "update orders set total = 0" "update").
  - vm_compute. reflexivity.
  - reflexivity.
  - reflexivity.
  - reflexivity.
Defined.

(** C8 on a run whose validator states no risk level for a DELETE. *)

(** C8 on a run whose validator states no risk level for a DELETE. *)
Lemma risk_level_falls_back_to_leading_verb_witness :
  exists report w',
    _run_optimizer_pipeline Script.llm_invoke Script.OPTIMIZER_PROMPT Script.VALIDATOR_PROMPT
      Script.agent "delete from orders where id = 1"
      (Script.world tt
         [Some (Script.sql_block "delete from orders where id = 1" ++ nl
                ++ "OPTIMIZER_NOTES: No changes needed")%string;
          Some "The query is valid."]
         Script.empty_store)
    = (Ok report, w')
    /\ OptimizerReport.final_sql report = "delete from orders where id = 1"
    /\ OptimizerReport.risk_level report = "HIGH".
Proof.
  eexists. eexists. split; [vm_compute; reflexivity|]. split; [reflexivity|].
  eapply (proj1 (risk_level_falls_back_to_leading_verb Script.llm_invoke
                   Script.OPTIMIZER_PROMPT Script.VALIDATOR_PROMPT
                   Script.agent "delete from orders where id = 1"
                   (Script.world tt
                      [Some (Script.sql_block "delete from orders where id = 1" ++ nl
                             ++ "OPTIMIZER_NOTES: No changes needed")%string;
                       Some "The query is valid."]
                      Script.empty_store)
                   _ _ [_] _ "The query is valid." "delete" _ _ _ _)).
  Unshelve.
  all: try (vm_compute; reflexivity).
  vm_compute. left. reflexivity.
Defined.

(** C9, amended, on a run whose validator only changes the case of the
    query. *)
Lemma was_modified_compares_trimmed_texts_witness :
  exists report w',
    _run_optimizer_pipeline Script.llm_invoke Script.OPTIMIZER_PROMPT Script.VALIDATOR_PROMPT
      Script.agent "select 1"
      (Script.world tt
         [Some (Script.sql_block "select 1");
          Some (Script.sql_block "SELECT 1" ++ nl ++ "RISK_LEVEL: LOW")%string]
         Script.empty_store)
    = (Ok report, w')
    /\ OptimizerReport.final_sql report = "SELECT 1"
    /\ OptimizerReport.was_modified report = false.
Proof.
  eexists. eexists. split; [vm_compute; reflexivity|]. split; [reflexivity|].
  eapply (proj1 (proj2 (was_modified_compares_trimmed_texts Script.llm_invoke
                          Script.OPTIMIZER_PROMPT Script.VALIDATOR_PROMPT
                          Script.agent "select 1"
                          (Script.world tt
                             [Some (Script.sql_block "select 1");
                              Some (Script.sql_block "SELECT 1" ++ nl
                                    ++ "RISK_LEVEL: LOW")%string]
                             Script.empty_store)
                          _ _ _))).
  Unshelve.
  all: try (vm_compute; reflexivity).
  apply lower_eq_iff. vm_compute. reflexivity.
Defined.

(** C9 as stated fails: a validator that doubles a space inside the query
    leaves it the same under a case-insensitive, whitespace-normalized
    comparison, and yet the report says it was modified. *)
Lemma was_modified_interior_whitespace_counterexample :
  exists report w',
    _run_optimizer_pipeline Script.llm_invoke Script.OPTIMIZER_PROMPT Script.VALIDATOR_PROMPT
      Script.agent "SELECT 1"
      (Script.world tt
         [Some (Script.sql_block "SELECT 1");
          Some (Script.sql_block "SELECT  1" ++ nl ++ "RISK_LEVEL: LOW")%string]
         Script.empty_store)
    = (Ok report, w')
    /\ OptimizerReport.original_sql report = "SELECT 1"
    /\ OptimizerReport.final_sql report = "SELECT  1"
    /\ same_normalized_text (OptimizerReport.original_sql report)
                            (OptimizerReport.final_sql report)
    /\ OptimizerReport.was_modified report = true.
Proof.
  eexists. eexists. split; [vm_compute; reflexivity|].
  repeat split. unfold same_normalized_text.
  apply lower_eq_iff. vm_compute. reflexivity.
Qed.

(** C1 as stated fails: the engine rejects every query, and the run ends
    after one engine call with an empty heal log, because the healer had no
    correction to offer. *)
Lemma healing_stops_short_counterexample :
  (forall e q, QueryResult.success (Script.reject_all e q).1 = false)
  /\ exists result w',
       execute_with_healing Script.reject_all Script.llm_invoke Script.HEALER_PROMPT
         Script.agent Script.orders_query Script.healer_gives_up
       = (Ok (result, []), w')
       /\ QueryResult.success result = false
       /\ engine_calls (trace w') = 1
       /\ length (@nil HealAttempt.t) <> MAX_HEAL_ATTEMPTS.
Proof.
  split; [intros e q; reflexivity|].
  eexists. eexists. split; [vm_compute; reflexivity|].
  repeat split. discriminate.
Qed.

(** C1, amended, on an engine that rejects every query. *)
Lemma healing_bounded_when_engine_rejects_witness :
  exists result heal_log w',
    execute_with_healing Script.reject_all Script.llm_invoke Script.HEALER_PROMPT
      Script.agent Script.orders_query Script.never_heals
    = (Ok (result, heal_log), w')
    /\ QueryResult.success result = false
    /\ length heal_log <= MAX_HEAL_ATTEMPTS
    /\ engine_calls (trace w') = engine_calls (trace Script.never_heals) + S (length heal_log).
Proof.
  destruct (healing_bounded_when_engine_rejects Script.reject_all Script.llm_invoke
              Script.HEALER_PROMPT Script.agent Script.orders_query Script.never_heals)
    as (result & heal_log & w' & Hrun & Hfail & Hmax & Hcalls & _).
  - reflexivity.
  - intros e q. reflexivity.
  - exists result, heal_log, w'. repeat split; assumption.
Defined.

(** The third scenario of the specification: three different corrections,
    four engine calls, a heal log of three failed attempts. *)
Example healing_exhausted_after_three_corrections :
  exists result heal_log w',
    execute_with_healing Script.reject_all Script.llm_invoke Script.HEALER_PROMPT
      Script.agent Script.orders_query Script.never_heals
    = (Ok (result, heal_log), w')
    /\ QueryResult.success result = false
    /\ engine_calls (trace w') = 4
    /\ HealAttempt.attempt_no <$> heal_log = [1; 2; 3]
    /\ HealAttempt.success <$> heal_log = [false; false; false].
Proof. do 3 eexists. split; [vm_compute; reflexivity|]. repeat split. Qed.

(** C4 on a healer that repeats the failing query. *)
Lemma healing_stops_on_unhelpful_correction_witness :
  exists result w2,
    execute_with_healing Script.reject_all Script.llm_invoke Script.HEALER_PROMPT
      Script.agent Script.orders_query Script.healer_repeats
    = (Ok (result, []), w2)
    /\ QueryResult.success result = false
    /\ engine_calls (trace w2) = 1.
Proof.
  edestruct (healing_stops_on_unhelpful_correction Script.reject_all Script.llm_invoke
               Script.HEALER_PROMPT Script.agent Script.orders_query Script.healer_repeats
               0 [1; 2; 3] Script.orders_query [] None Script.healer_repeats)
    as [Hrun _].
  - apply loop_head_first. reflexivity.
  - vm_compute. reflexivity.
  - reflexivity.
  - discriminate.
  - vm_compute. reflexivity.
  - right. right. eexists. split; reflexivity.
  - do 2 eexists. split; [exact Hrun|]. split; reflexivity.
Defined.

(** C5 as stated fails: in the run of the first scenario the query succeeds
    on the third engine call and the heal log has two entries, but only the
    second is marked successful. *)
Lemma healing_marks_both_counterexample :
  exists result heal_log w',
    execute_with_healing Script.execute_query Script.llm_invoke Script.HEALER_PROMPT
      Script.agent Script.orders_query Script.heals_on_third_call
    = (Ok (result, heal_log), w')
    /\ QueryResult.success result = true
    /\ engine_calls (trace w') = 3
    /\ length heal_log = 2
    /\ HealAttempt.success <$> heal_log = [false; true].
Proof. do 3 eexists. split; [vm_compute; reflexivity|]. repeat split. Qed.

(** C5, amended, on that run. *)
Lemma healing_marks_last_correction_witness :
  exists result heal_log w',
    execute_with_healing Script.execute_query Script.llm_invoke Script.HEALER_PROMPT
      Script.agent Script.orders_query Script.heals_on_third_call
    = (Ok (result, heal_log), w')
    /\ HealAttempt.success <$> heal_log = [false; true].
Proof.
  do 3 eexists. split.
  - eapply (healing_marks_last_correction Script.execute_query Script.llm_invoke
              Script.HEALER_PROMPT Script.agent Script.orders_query
              Script.heals_on_third_call).
    + reflexivity.
    + vm_compute. reflexivity.
    + reflexivity.
    + vm_compute. reflexivity.
    + intros [H|[H|(c & H & Hc)]]; [discriminate H | discriminate H |].
      injection H as <-. vm_compute in Hc. discriminate Hc.
    + vm_compute. reflexivity.
    + reflexivity.
    + vm_compute. reflexivity.
    + intros [H|[H|(c & H & Hc)]]; [discriminate H | discriminate H |].
      injection H as <-. vm_compute in Hc. discriminate Hc.
    + vm_compute. reflexivity.
    + reflexivity.
  - reflexivity.
Defined.

(** The second scenario of the specification: the healer repeats the
    query, and the run ends after one engine call with an empty heal log. *)
Example healing_stops_when_healer_repeats :
  exists result w',
    execute_with_healing Script.reject_all Script.llm_invoke Script.HEALER_PROMPT
      Script.agent Script.orders_query Script.healer_repeats
    = (Ok (result, []), w')
    /\ QueryResult.success result = false
    /\ engine_calls (trace w') = 1.
Proof. do 2 eexists. split; [vm_compute; reflexivity|]. repeat split. Qed.

(** Without a selected database no engine call is made. *)
Example healing_needs_a_database :
  exists result w',
    execute_with_healing Script.reject_all Script.llm_invoke Script.HEALER_PROMPT
      (mkAgent None None "") Script.orders_query Script.never_heals
    = (Ok (result, []), w')
    /\ QueryResult.error result = Some "No database selected"
    /\ trace w' = [].
Proof. do 2 eexists. split; [vm_compute; reflexivity|]. repeat split. Qed.

(** C2 on the fourth scenario of the specification: 85 turns, no summary. *)
Lemma fold_keeps_recent_window_witness :
  exists w',
    update_summary_if_needed Script.llm_invoke Script.SUMMARIZER_PROMPT Script.orders_thread
      (Script.world tt [Some "The user browsed the orders table."] Script.long_store)
    = (Ok tt, w')
    /\ unsummarized_count (pg w') Script.orders_thread = RECENT_MESSAGES_COUNT.
Proof.
  destruct (fold_keeps_recent_window Script.llm_invoke Script.SUMMARIZER_PROMPT
              Script.orders_thread
              (Script.world tt [Some "The user browsed the orders table."] Script.long_store))
    as (w' & Hrun & _ & _ & _ & Hfold).
  - reflexivity.
  - apply (bool_decide_unpack _). vm_compute. reflexivity.
  - exists w'. split; [exact Hrun|]. apply Hfold. vm_compute. lia.
Defined.

(** In that scenario the oldest 45 turns are folded and the context then
    holds the new summary and exactly 40 turns. *)
Example fold_of_85_turns :
  exists w' context w'',
    update_summary_if_needed Script.llm_invoke Script.SUMMARIZER_PROMPT Script.orders_thread
      (Script.world tt [Some "The user browsed the orders table."] Script.long_store)
    = (Ok tt, w')
    /\ dbma_conversation_summary (pg w') !! Script.orders_thread
       = Some (Summary.mk "The user browsed the orders table." 45 45)
    /\ _build_rolling_context Script.orders_thread w' = (Ok context, w'')
    /\ summary context = "The user browsed the orders table."
    /\ length (recent_formatted context) = 40.
Proof.
  do 3 eexists. split; [vm_compute; reflexivity|].
  split; [vm_compute; reflexivity|].
  split; [vm_compute; reflexivity|]. split; reflexivity.
Qed.

(** C3 fails on the code: with a summary up to message 10 and 41 messages
    beyond it, a summarizer that raises, or that answers nothing, leaves the
    summary text as it was and yet [summarized_up_to_seq] moves from 10 to
    11, so message 11 is in neither the summary nor the recent window. *)
Lemma fold_advances_when_summarizer_fails :
  dbma_conversation_summary Script.summarized_store !! Script.orders_thread
  = Some (Summary.mk "The user listed the orders of customer 7." 10 10)
  /\ (exists w',
        update_summary_if_needed Script.llm_invoke Script.SUMMARIZER_PROMPT
          Script.orders_thread (Script.world tt [None] Script.summarized_store)
        = (Ok tt, w')
        /\ dbma_conversation_summary (pg w') !! Script.orders_thread
           = Some (Summary.mk "The user listed the orders of customer 7." 11 11))
  /\ (exists w',
        update_summary_if_needed Script.llm_invoke Script.SUMMARIZER_PROMPT
          Script.orders_thread (Script.world tt [Some ""] Script.summarized_store)
        = (Ok tt, w')
        /\ dbma_conversation_summary (pg w') !! Script.orders_thread
           = Some (Summary.mk "The user listed the orders of customer 7." 11 11)).
Proof.
  split; [vm_compute; reflexivity|].
  split; eexists; (split; [vm_compute; reflexivity|]); vm_compute; reflexivity.
Qed.

(** The fifth scenario of the specification: the same identifier with and
    without a reachable store. *)
Example session_thread_id_with_outage :
  (get_or_create_session (MySQLConfig.mk "localhost" "root") "orders_db"
     (Some "db.internal") (Some "svc") (Script.world tt [] Script.empty_store)).1
  = Ok "thread_5e6892e28eb3b3578ae9ab95ad3746a3"
  /\ (get_or_create_session (MySQLConfig.mk "localhost" "root") "orders_db"
        (Some "db.internal") (Some "svc")
        (mkWorld tt (@nil (option string)) Script.empty_store [true] [])).1
     = Ok "thread_5e6892e28eb3b3578ae9ab95ad3746a3".
Proof. split; vm_compute; reflexivity. Qed.

(** * The further properties at concrete runs *)

(** X3 on an answer that carries a DELETE in a tagged block. *)
Lemma extracted_sql_has_a_leading_verb_witness :
  _extract_sql ("I will remove it." ++ nl ++ Script.sql_block "DELETE FROM orders WHERE id = 7")
  = Some "DELETE FROM orders WHERE id = 7"
  /\ (exists tok, first_token "DELETE FROM orders WHERE id = 7" = Some tok)
  /\ (exists b, _is_destructive (Some "DELETE FROM orders WHERE id = 7") = Ok b)
  /\ (exists level, _infer_risk_level "DELETE FROM orders WHERE id = 7" = Ok level).
Proof.
  split; [vm_compute; reflexivity|].
  apply (extracted_sql_has_a_leading_verb
           ("I will remove it." ++ nl
            ++ Script.sql_block "DELETE FROM orders WHERE id = 7")%string).
  vm_compute. reflexivity.
Defined.

(** X4 on that answer: the response has a query and asks for confirmation. *)
Lemma chat_response_never_raises_witness :
  exists response,
    _chat_inner_response Script.llm_invoke Script.OPTIMIZER_PROMPT Script.VALIDATOR_PROMPT
      Script.agent DELETE_DATA
      ("I will remove it." ++ nl ++ Script.sql_block "DELETE FROM orders WHERE id = 7")
      (Script.world tt [] Script.empty_store)
    = (Ok response, Script.world tt [] Script.empty_store)
    /\ AgentResponse.requires_confirmation response = true
    /\ has_sql response = true.
Proof.
  destruct (chat_response_never_raises Script.llm_invoke Script.OPTIMIZER_PROMPT
              Script.VALIDATOR_PROMPT Script.agent DELETE_DATA
              ("I will remove it." ++ nl
               ++ Script.sql_block "DELETE FROM orders WHERE id = 7")%string
              (Script.world tt [] Script.empty_store))
    as (response & Hrun & Hsql & _ & _ & Hd & _ & Hconf).
  exists response. split; [exact Hrun|].
  rewrite Hsql in Hd. vm_compute in Hd. injection Hd as Hd.
  split; [symmetry; exact Hd | apply Hconf; symmetry; exact Hd].
Defined.

(** X5 on a text of three spaces. *)
Lemma classifiers_raise_on_blank_text_only_witness :
  _infer_risk_level "   " = Raise IndexError
  /\ _is_destructive (Some "   ") = Raise IndexError.
Proof.
  destruct (classifiers_raise_on_blank_text_only "   " IndexError) as [[_ Hinfer] [_ Hdestr]].
  split; [apply Hinfer | apply Hdestr]; repeat split; discriminate.
Defined.

(** X6 on a query that drops a table. *)
Lemma high_risk_requires_confirmation_witness :
  _infer_risk_level "drop table orders" = Ok "HIGH"
  /\ _is_destructive (Some "drop table orders") = Ok true.
Proof.
  split; [reflexivity|].
  apply (proj1 (high_risk_requires_confirmation "drop table orders")). reflexivity.
Defined.

(** X7 on a run whose validator states a level that is not one of the
    three. *)
Lemma pipeline_reports_a_recognized_risk_level_witness :
  exists report w',
    _run_optimizer_pipeline Script.llm_invoke Script.OPTIMIZER_PROMPT Script.VALIDATOR_PROMPT
      Script.agent "delete from orders where id = 1"
      (Script.world tt
         [Some "OPTIMIZER_NOTES: No changes needed";
          Some ("The query is valid." ++ nl ++ "RISK_LEVEL: CRITICAL")%string]
         Script.empty_store)
    = (Ok report, w')
    /\ OptimizerReport.risk_level report = "HIGH"
    /\ In (OptimizerReport.risk_level report) ["LOW"; "MEDIUM"; "HIGH"]
    /\ llm_calls (trace w') = 2.
Proof.
  do 2 eexists. split; [vm_compute; reflexivity|]. split; [reflexivity|].
  edestruct (pipeline_reports_a_recognized_risk_level Script.llm_invoke
               Script.OPTIMIZER_PROMPT Script.VALIDATOR_PROMPT Script.agent
               "delete from orders where id = 1"
               (Script.world tt
                  [Some "OPTIMIZER_NOTES: No changes needed";
                   Some ("The query is valid." ++ nl ++ "RISK_LEVEL: CRITICAL")%string]
                  Script.empty_store))
    as (Hlevel & Hcalls & _).
  - vm_compute. reflexivity.
  - split; [exact Hlevel | exact Hcalls].
Defined.

(** X8 on a run whose validator cannot be reached. *)
Lemma pipeline_fails_only_with_the_model_witness :
  first_token "select 1" = Some "select"
  /\ exists w',
       _run_optimizer_pipeline Script.llm_invoke Script.OPTIMIZER_PROMPT
         Script.VALIDATOR_PROMPT Script.agent "select 1"
         (Script.world tt [Some (Script.sql_block "SELECT 1")] Script.empty_store)
       = (Raise LLMException, w')
       /\ engine_calls (trace w') = 0.
Proof.
  split; [reflexivity|].
  destruct (pipeline_fails_only_with_the_model Script.llm_invoke Script.OPTIMIZER_PROMPT
              Script.VALIDATOR_PROMPT Script.agent "select 1" "select"
              (Script.world tt [Some (Script.sql_block "SELECT 1")] Script.empty_store)
              eq_refl)
    as (w' & [(report & tok' & Hrun & _)|[Hrun _]] & Hcalls & _).
  - vm_compute in Hrun. discriminate Hrun.
  - exists w'. split; [exact Hrun | exact Hcalls].
Defined.

(** X9 on the first scenario: two corrections, the second of which runs. *)
Lemma heal_log_records_the_run_witness :
  exists result heal_log w',
    execute_with_healing Script.execute_query Script.llm_invoke Script.HEALER_PROMPT
      Script.agent Script.orders_query Script.heals_on_third_call
    = (Ok (result, heal_log), w')
    /\ HealAttempt.attempt_no <$> heal_log = seq 1 (length heal_log)
    /\ HealAttempt.original_sql <$> heal_log
       = take (length heal_log)
              (Script.orders_query :: (HealAttempt.corrected_sql <$> heal_log))
    /\ Forall is_correction heal_log
    /\ Forall unsuccessful (removelast heal_log)
    /\ (forall x, last heal_log = Some x ->
                  HealAttempt.success x = QueryResult.success result).
Proof.
  do 3 eexists. split; [vm_compute; reflexivity|].
  eapply (heal_log_records_the_run Script.execute_query Script.llm_invoke
            Script.HEALER_PROMPT Script.agent Script.orders_query
            Script.heals_on_third_call).
  vm_compute. reflexivity.
Defined.

(** X10 on that run: three queries reach the engine, the model is asked
    twice. *)
Lemma engine_runs_the_query_then_its_corrections_witness :
  exists result heal_log w',
    execute_with_healing Script.execute_query Script.llm_invoke Script.HEALER_PROMPT
      Script.agent Script.orders_query Script.heals_on_third_call
    = (Ok (result, heal_log), w')
    /\ executed_queries (trace w')
       = [Script.orders_query;
          "SELECT * FROM order WHERE customer_id = 7";
          "SELECT * FROM orders WHERE customer_id = 7"]
    /\ executed_queries (trace w')
       = executed_queries (trace Script.heals_on_third_call)
         ++ Script.orders_query :: (HealAttempt.corrected_sql <$> heal_log).
Proof.
  do 3 eexists. split; [vm_compute; reflexivity|]. split; [vm_compute; reflexivity|].
  edestruct (engine_runs_the_query_then_its_corrections Script.execute_query
               Script.llm_invoke Script.HEALER_PROMPT Script.agent Script.orders_query
               Script.heals_on_third_call) as (Hq & _).
  - vm_compute. reflexivity.
  - exact Hq.
Defined.

(** X13 on a first call for a database: its session is registered. *)
Lemma session_registry_keeps_its_rows_witness :
  exists thread_id w' row,
    get_or_create_session (MySQLConfig.mk "localhost" "root") "orders_db" None None
      (Script.world tt [] Script.empty_store)
    = (Ok thread_id, w')
    /\ dbma_sessions (pg w') !! thread_id = Some row
    /\ row = Session.mk "orders_db" "localhost" "root" 0.
Proof.
  destruct (session_registry_keeps_its_rows (MySQLConfig.mk "localhost" "root") "orders_db"
              None None (Script.world tt [] Script.empty_store))
    as (thread_id & w' & Hrun & _ & _ & _ & _ & Hrow).
  destruct (Hrow eq_refl) as (row & Hrow' & Hnew).
  exists thread_id, w', row. split; [exact Hrun|]. split; [exact Hrow'|].
  apply Hnew. reflexivity.
Defined.

(** X14 on a first summary for a thread. *)
Lemma summary_save_then_load_witness :
  exists w1,
    save_conversation_summary Script.orders_thread "The user browsed the orders table." 45 45
      (Script.world tt [] Script.long_store)
    = (Ok true, w1)
    /\ load_conversation_summary Script.orders_thread w1
       = (Ok (Some (Summary.mk "The user browsed the orders table." 45 45)), w1).
Proof.
  eexists. split; [reflexivity|].
  eapply (summary_save_then_load Script.orders_thread "The user browsed the orders table."
            45 45 (Script.world tt [] Script.long_store) true);
    reflexivity.
Defined.

(** X15 on a thread with messages 1 to 51: those after message 48. *)
Lemma messages_after_seq_are_exact_witness :
  exists l,
    get_messages_after_seq Script.orders_thread 48
      (Script.world tt [] Script.summarized_store)
    = (Ok l, Script.world tt [] Script.summarized_store)
    /\ ChatMessage.sequence_no <$> l = [49; 50; 51]%Z
    /\ StronglySorted seq_le l.
Proof.
  destruct (proj1 (messages_after_seq_are_exact Script.orders_thread 48
                     (Script.world tt [] Script.summarized_store)) eq_refl)
    as (l & Hrun & Hsorted & _).
  exists l. split; [exact Hrun|]. split; [|exact Hsorted].
  vm_compute in Hrun. injection Hrun as <-. reflexivity.
Defined.

(** X16 on that thread: the three newest messages. *)
Lemma recent_messages_are_the_newest_witness :
  exists l,
    get_recent_messages Script.orders_thread 3 (Script.world tt [] Script.summarized_store)
    = (Ok l, Script.world tt [] Script.summarized_store)
    /\ ChatMessage.sequence_no <$> l = [49; 50; 51]%Z
    /\ StronglySorted seq_le l.
Proof.
  destruct (recent_messages_are_the_newest Script.orders_thread 3
              (Script.world tt [] Script.summarized_store) eq_refl)
    as (l & Hrun & Hsorted & _).
  exists l. split; [exact Hrun|]. split; [|exact Hsorted].
  vm_compute in Hrun. injection Hrun as <-. reflexivity.
Defined.

(** X17 on that thread: a limit of 0 loads all 51 messages. *)
Lemma chat_history_limit_zero_loads_everything_witness :
  exists l,
    load_chat_history Script.orders_thread (Some 0)
      (Script.world tt [] Script.summarized_store)
    = (Ok l, Script.world tt [] Script.summarized_store)
    /\ length l = 51.
Proof.
  destruct (chat_history_limit_zero_loads_everything Script.orders_thread (Some 0)
              (Script.world tt [] Script.summarized_store) eq_refl)
    as (l & count & Hrun & Hcount & _ & _ & Hlen & _).
  exists l. split; [exact Hrun|]. rewrite Hlen.
  vm_compute in Hcount. injection Hcount as <-. reflexivity.
Defined.

(** X19 on the fourth scenario: 85 turns are folded once, and a second
    fold changes nothing. *)
Lemma fold_twice_is_fold_once_witness :
  exists w',
    update_summary_if_needed Script.llm_invoke Script.SUMMARIZER_PROMPT Script.orders_thread
      (Script.world tt [Some "The user browsed the orders table."] Script.long_store)
    = (Ok tt, w')
    /\ update_summary_if_needed Script.llm_invoke Script.SUMMARIZER_PROMPT
         Script.orders_thread w'
       = (Ok tt, w').
Proof.
  apply (fold_twice_is_fold_once Script.llm_invoke Script.SUMMARIZER_PROMPT
           Script.orders_thread
           (Script.world tt [Some "The user browsed the orders table."] Script.long_store)).
  - reflexivity.
  - apply (bool_decide_unpack _). vm_compute. reflexivity.
Defined.

(** X20 on a thread summarized up to message 10 with messages 1 to 51: one
    message is folded and counted. *)
Lemma fold_accounts_for_what_it_folds_witness :
  exists w' e',
    update_summary_if_needed Script.llm_invoke Script.SUMMARIZER_PROMPT Script.orders_thread
      (Script.world tt [Some "The user asked for the orders of customer 7 twice."]
         Script.summarized_store)
    = (Ok tt, w')
    /\ dbma_conversation_summary (pg w') !! Script.orders_thread = Some e'
    /\ Summary.message_count_summarized e' = 11%Z.
Proof.
  destruct (fold_accounts_for_what_it_folds Script.llm_invoke Script.SUMMARIZER_PROMPT
              Script.orders_thread
              (Script.world tt [Some "The user asked for the orders of customer 7 twice."]
                 Script.summarized_store))
    as (w' & e' & Hrun & He' & Hcount & _).
  - reflexivity.
  - apply (bool_decide_unpack _). vm_compute. reflexivity.
  - vm_compute. lia.
  - exists w', e'. split; [exact Hrun|]. split; [exact He'|].
    rewrite Hcount. vm_compute. reflexivity.
Defined.

(** X21 on that thread: after clearing, no message is left and the summary
    is still there. *)
Lemma clear_thread_keeps_the_summary_witness :
  exists w',
    clear_thread Script.orders_thread
      (Script.world tt (@nil (option string)) Script.summarized_store)
    = (Ok true, w')
    /\ get_message_count Script.orders_thread w' = (Ok 0, w')
    /\ load_conversation_summary Script.orders_thread w'
       = (Ok (Some (Summary.mk "The user listed the orders of customer 7." 10 10)), w').
Proof.
  destruct (clear_thread_keeps_the_summary Script.orders_thread
              (Script.world tt (@nil (option string)) Script.summarized_store))
    as (cleared & w' & Hrun & _ & _ & _ & _ & Hafter & _).
  assert (Hcleared : cleared = true).
  { vm_compute in Hrun. injection Hrun as Hc _. symmetry. exact Hc. }
  subst cleared. exists w'. split; [exact Hrun|].
  assert (Hfaults : pg_faults w' = []).
  { vm_compute in Hrun. injection Hrun as <-. reflexivity. }
  destruct (Hafter eq_refl Hfaults) as [Hcount Hload].
  split; [exact Hcount|]. rewrite Hload. reflexivity.
Defined.

(** X22 on that thread: the context built after clearing still holds the
    summary. *)
Lemma memory_survives_clearing_witness :
  exists w',
    clear_thread Script.orders_thread
      (Script.world tt (@nil (option string)) Script.summarized_store)
    = (Ok true, w')
    /\ _build_rolling_context Script.orders_thread w'
       = (Ok (mkRollingContext "The user listed the orders of customer 7." []), w').
Proof.
  eexists. split; [vm_compute; reflexivity|].
  eapply (memory_survives_clearing Script.orders_thread
            (Script.world tt (@nil (option string)) Script.summarized_store) _
            (Summary.mk "The user listed the orders of customer 7." 10 10)).
  - vm_compute. reflexivity.
  - reflexivity.
  - vm_compute. reflexivity.
Defined.

(** X23 on a request with whitespace around it. *)
Lemma classify_intent_ignores_case_and_padding_witness :
  classify_intent ("  " ++ "Show all tables" ++ nl) = classify_intent "Show all tables"
  /\ classify_intent "Show all tables" = SHOW_TABLES.
Proof.
  split; [|vm_compute; reflexivity].
  apply (proj1 (proj2 (proj2 (classify_intent_ignores_case_and_padding "Show all tables"))));
    reflexivity.
Defined.

(** X24 on a request to drop a table. *)
Lemma drop_table_needs_the_word_drop_witness :
  classify_intent "Please DROP  table users" = DROP_TABLE
  /\ found (bounded [Re.lit "drop"; spaces; Re.lit "table"])
           (PyStr.strip (PyStr.lower "Please DROP  table users")) = true
  /\ found (bounded [Re.lit "delete"])
           (PyStr.strip (PyStr.lower "Please DROP  table users")) = false.
Proof.
  split; [vm_compute; reflexivity|].
  apply (drop_table_needs_the_word_drop "Please DROP  table users").
  vm_compute. reflexivity.
Defined.

(** X25 on a SHOW query. *)
Lemma query_type_never_raises_and_agrees_witness :
  exists query_type,
    _detect_query_type "show tables;" = Ok query_type
    /\ In query_type ["SELECT"; "SHOW"; "DESCRIBE"; "EXPLAIN"]
    /\ _is_destructive (Some "show tables;") = Ok false
    /\ _infer_risk_level "show tables;" = Ok "LOW".
Proof.
  destruct (query_type_never_raises_and_agrees "show tables;")
    as (query_type & safe & Htype & Hsafe & _ & Hagree).
  exists query_type. split; [exact Htype|]. apply Hagree.
  vm_compute in Hsafe. injection Hsafe as <-. reflexivity.
Defined.
